(** * GstVideoPlayer: decision logic of the eLinux video player

    A shallow embedding of [packages/video_player/elinux/gst_video_player.cc]
    and [gst_video_player.h].  The GStreamer engine and the libav probing
    library are outside the repository: their answers enter the model as
    explicit arguments, and the requests the player sends to them are
    recorded in an event trace carried by the player state. *)

From Stdlib Require Import ZArith List String Ascii Bool Lia SpecFloat.
From Stdlib.Strings Require Import Byte.
From Stdlib Require Import DecimalString.
From stdpp Require Import base option gmap strings.

Local Open Scope string_scope.
Local Open Scope list_scope.
Local Open Scope Z_scope.

(** ** Outcomes of fallible C++ code

    A call either returns, throws a C++ exception, has no defined
    behaviour (an access outside a container, a signed overflow), or
    never returns. *)

Inductive outcome (A : Type) : Type :=
| Returns (a : A)
| Throws (what : string)
| Undefined
| Hangs.

Arguments Returns {A} a.
Arguments Throws {A} what.
Arguments Undefined {A}.
Arguments Hangs {A}.

#[global] Instance outcome_ret : MRet outcome := fun A a => Returns a.

#[global] Instance outcome_bind : MBind outcome := fun A B k m =>
  match m with
  | Returns a => k a
  | Throws w => Throws w
  | Undefined => Undefined
  | Hangs => Hangs
  end.

(** ** ResolutionCatalog *)

Module Catalog.

(** [resolution_values_] of the header. *)
Definition resolution_values_ : list Z := [1080; 1920; 2160; 3480].

(** [std::lower_bound] as the standard library implements it: a binary
    search over the index range [first, first + len).  [fuel] bounds the
    number of halvings; [len] strictly decreases, so [len] itself is
    enough fuel. *)
Fixpoint lower_bound_loop (fuel : nat) (v : list Z) (first len : nat) (val : Z) : nat :=
  match fuel with
  | O => first
  | S fuel' =>
      match len with
      | O => first
      | _ =>
          let half := Nat.div2 len in
          let middle := (first + half)%nat in
          if nth middle v 0 <? val
          then lower_bound_loop fuel' v (S middle) (len - half - 1)%nat val
          else lower_bound_loop fuel' v first half val
      end
  end.

Definition lower_bound (v : list Z) (val : Z) : nat :=
  lower_bound_loop (length v) v 0%nat (length v) val.

(** [std::find(v.begin(), v.end(), x) != v.end()]. *)
Fixpoint find_in (v : list Z) (x : Z) : bool :=
  match v with
  | [] => false
  | y :: v' => if y =? x then true else find_in v' x
  end.

(** [GstVideoPlayer::NormalizeResolutionValue]: the iterator returned by
    [lower_bound] is dereferenced without a check against [end()]. *)
Definition NormalizeResolutionValue (res_val : Z) : outcome Z :=
  match nth_error resolution_values_ (lower_bound resolution_values_ res_val) with
  | Some r => Returns r
  | None => Undefined
  end.

End Catalog.

(** ** std::string operations used by the player

    Positions are [size_t] values: integers modulo [2^64], with
    [npos = 2^64 - 1]. *)

Module StdString.

Definition size_t_modulus : Z := 2 ^ 64.
Definition npos : Z := size_t_modulus - 1.
Definition wrap (z : Z) : Z := z mod size_t_modulus.

Definition size (s : string) : Z := Z.of_nat (String.length s).

Fixpoint drop (n : nat) (s : string) : string :=
  match n, s with
  | O, _ => s
  | S n', String _ s' => drop n' s'
  | S _, EmptyString => EmptyString
  end.

Fixpoint take (n : nat) (s : string) : string :=
  match n, s with
  | S n', String c s' => String c (take n' s')
  | _, _ => EmptyString
  end.

(** Offset of the first [c] in [s], if any. *)
Fixpoint index_of (c : ascii) (s : string) : option nat :=
  match s with
  | EmptyString => None
  | String a s' =>
      if Ascii.eqb a c then Some O
      else match index_of c s' with
           | Some k => Some (S k)
           | None => None
           end
  end.

(** Offset of the last [c] in [s], if any. *)
Fixpoint last_index_of (c : ascii) (s : string) : option nat :=
  match s with
  | EmptyString => None
  | String a s' =>
      match last_index_of c s' with
      | Some k => Some (S k)
      | None => if Ascii.eqb a c then Some O else None
      end
  end.

(** [s.find(c, pos)] *)
Definition find (s : string) (c : ascii) (pos : Z) : Z :=
  if size s <=? pos then npos
  else match index_of c (drop (Z.to_nat pos) s) with
       | Some k => pos + Z.of_nat k
       | None => npos
       end.

(** [s.find_last_of(c)] *)
Definition find_last_of (s : string) (c : ascii) : Z :=
  match last_index_of c s with
  | Some k => Z.of_nat k
  | None => npos
  end.

(** [s.substr(pos, count)]: throws when [pos > size()], and otherwise
    yields [min(count, size() - pos)] characters. *)
Definition substr (s : string) (pos count : Z) : outcome string :=
  if size s <? pos then Throws "out_of_range"
  else Returns (take (Z.to_nat (Z.min count (size s - pos))) (drop (Z.to_nat pos) s)).

(** [std::isspace] in the C locale. *)
Definition isspace (c : ascii) : bool :=
  let n := Z.of_nat (nat_of_ascii c) in
  (n =? 32) || ((9 <=? n) && (n <=? 13)).

Definition digit_value (c : ascii) : option Z :=
  let n := Z.of_nat (nat_of_ascii c) in
  if (48 <=? n) && (n <=? 57) then Some (n - 48) else None.

Fixpoint skip_spaces (s : string) : string :=
  match s with
  | String c s' => if isspace c then skip_spaces s' else s
  | EmptyString => s
  end.

(** The longest prefix of decimal digits: how many there are, and the
    number they denote after the digits already folded into [acc]. *)
Fixpoint read_digits (s : string) (count : nat) (acc : Z) : nat * Z :=
  match s with
  | String c s' =>
      match digit_value c with
      | Some d => read_digits s' (S count) (10 * acc + d)
      | None => (count, acc)
      end
  | EmptyString => (count, acc)
  end.

Definition INT_MIN : Z := - 2 ^ 31.
Definition INT_MAX : Z := 2 ^ 31 - 1.

(** [std::stoi(s)]: [strtol] in base 10 (leading white space, an optional
    sign, then digits; trailing characters are ignored), raising
    [invalid_argument] when there is no digit and [out_of_range] when the
    number does not fit an [int]. *)
Definition stoi (s : string) : outcome Z :=
  let s1 := skip_spaces s in
  let '(negative, s2) :=
    match s1 with
    | String "-"%char r => (true, r)
    | String "+"%char r => (false, r)
    | _ => (false, s1)
    end in
  let '(count, magnitude) := read_digits s2 O 0 in
  match count with
  | O => Throws "invalid_argument"
  | _ =>
      let v := if negative then - magnitude else magnitude in
      if (INT_MIN <=? v) && (v <=? INT_MAX) then Returns v else Throws "out_of_range"
  end.

(** [std::to_string(int)] *)
Definition to_string (z : Z) : string := NilEmpty.string_of_int (Z.to_int z).

End StdString.

(** ** Query parameters of a stream URL *)

Module Url.
Import StdString.

(** [params.insert(std::make_pair(k, v))] on an [unordered_map]: an
    existing key keeps its value. *)
Definition insert_pair (k v : string) (params : gmap string string) : gmap string string :=
  match params !! k with
  | Some _ => params
  | None => <[k := v]> params
  end.

(** The pair made of one parameter [p]:
    [p.substr(0, p_pos)] and [p.substr(p_pos + 1)] for
    [p_pos = p.find('=')]. *)
Definition split_param (p : string) : outcome (string * string) :=
  let p_pos := find p "=" 0 in
  key ← substr p 0 p_pos;
  value ← substr p (wrap (p_pos + 1)) npos;
  Returns (key, value).

(** One pass through the body of the [while] loop of
    [SetStreamDataFromUrl]; yields the new [param_start_pos],
    [param_end_pos] and [params]. *)
Definition param_step (uri : string) (param_start_pos : Z) (params : gmap string string)
  : outcome (Z * Z * gmap string string) :=
  let param_end_pos := find uri "&" param_start_pos in
  p ← substr uri param_start_pos (wrap (param_end_pos - param_start_pos));
  '(key, value) ← split_param p;
  Returns (wrap (param_end_pos + 1), param_end_pos, insert_pair key value params).

(** The [while (param_end_pos != npos)] loop.  Every pass but the last
    moves [param_start_pos] forward, so [fuel] larger than the length of
    the URL is never used up (lemma [param_loop_fuel] below). *)
Fixpoint param_loop (fuel : nat) (uri : string) (param_start_pos param_end_pos : Z)
    (params : gmap string string) : outcome (gmap string string) :=
  if param_end_pos =? npos then Returns params
  else match fuel with
       | O => Undefined
       | S fuel' =>
           '(start', end', params') ← param_step uri param_start_pos params;
           param_loop fuel' uri start' end' params'
       end.

(** The parameter table built by [SetStreamDataFromUrl], or [None] when
    the URL has no ['?']. *)
Definition parse_params (uri : string) : outcome (option (gmap string string)) :=
  let param_start_pos := find_last_of uri "?" in
  if param_start_pos =? npos then Returns None
  else
    let param_start_pos := wrap (param_start_pos + 1) in
    let param_end_pos := find uri "&" param_start_pos in
    params ← param_loop (S (String.length uri)) uri param_start_pos param_end_pos ∅;
    Returns (Some params).

(** Query strings, for stating what the parser does: the parameters
    [k=v] of a list of pairs joined by [&]. *)
Definition segment (kv : string * string) : string := kv.1 +:+ "=" +:+ kv.2.

Fixpoint join (segments : list string) : string :=
  match segments with
  | [] => ""
  | [s] => s
  | s :: rest => s +:+ "&" +:+ join rest
  end.

Definition query_string (pairs : list (string * string)) : string :=
  join (map segment pairs).

(** The value of the first pair with the key [k]. *)
Fixpoint first_value (k : string) (pairs : list (string * string)) : option string :=
  match pairs with
  | [] => None
  | (k', v) :: rest => if String.eqb k' k then Some v else first_value k rest
  end.

Definition lacks (c : ascii) (s : string) : bool :=
  match index_of c s with
  | None => true
  | Some _ => false
  end.

(** A key without [=], [&] and [?], and a value without [&] and [?]. *)
Definition plain_pair (kv : string * string) : bool :=
  lacks "=" kv.1 && lacks "&" kv.1 && lacks "?" kv.1 && lacks "&" kv.2 && lacks "?" kv.2.

End Url.

(** ** Regular expressions of the classifier

    [std::regex] patterns (ECMAScript grammar, [icase]) as syntax trees,
    matched by derivatives: [regex_match] asks whether the whole subject is
    in the language of the pattern, so capture groups play no role. *)

Module Regex.

Definition code (c : ascii) : Z := Z.of_nat (nat_of_ascii c).

(** [tolower] and [toupper] of the C locale. *)
Definition tolower (c : ascii) : ascii :=
  if (65 <=? code c) && (code c <=? 90) then ascii_of_nat (nat_of_ascii c + 32) else c.

Definition toupper (c : ascii) : ascii :=
  if (97 <=? code c) && (code c <=? 122) then ascii_of_nat (nat_of_ascii c - 32) else c.

(** What one character of the subject is tested against. *)
Inductive atom :=
| Lit (c : ascii)           (* an ordinary pattern character *)
| Dot                       (* [.] *)
| Range (lo hi : ascii).    (* [[lo-hi]] *)

Inductive regex :=
| Never
| Eps
| Atom (a : atom)
| Cat (r1 r2 : regex)
| Alt (r1 r2 : regex)
| Star (r : regex).

(** Under [icase] a literal is compared after case folding, [.] refuses
    the line terminators LF and CR, and a range accepts a character whose
    lower-case or upper-case form lies in it. *)
Definition atom_matches (a : atom) (c : ascii) : bool :=
  match a with
  | Lit p => Ascii.eqb (tolower c) (tolower p)
  | Dot => negb (code c =? 10) && negb (code c =? 13)
  | Range lo hi =>
      ((code lo <=? code (tolower c)) && (code (tolower c) <=? code hi))
      || ((code lo <=? code (toupper c)) && (code (toupper c) <=? code hi))
  end.

Fixpoint nullable (r : regex) : bool :=
  match r with
  | Never => false
  | Eps => true
  | Atom _ => false
  | Cat r1 r2 => nullable r1 && nullable r2
  | Alt r1 r2 => nullable r1 || nullable r2
  | Star _ => true
  end.

Fixpoint deriv (c : ascii) (r : regex) : regex :=
  match r with
  | Never => Never
  | Eps => Never
  | Atom a => if atom_matches a c then Eps else Never
  | Cat r1 r2 =>
      if nullable r1 then Alt (Cat (deriv c r1) r2) (deriv c r2)
      else Cat (deriv c r1) r2
  | Alt r1 r2 => Alt (deriv c r1) (deriv c r2)
  | Star r1 => Cat (deriv c r1) (Star r1)
  end.

(** [std::regex_match(s, r)] *)
Fixpoint regex_match (s : string) (r : regex) : bool :=
  match s with
  | EmptyString => nullable r
  | String c s' => regex_match s' (deriv c r)
  end.

(** A run of ordinary characters. *)
Fixpoint lit (s : string) : regex :=
  match s with
  | EmptyString => Eps
  | String c s' => Cat (Atom (Lit c)) (lit s')
  end.

(** The language of a pattern: the strings [regex_match] is meant to
    accept, said without derivatives. *)
Inductive lang : regex -> string -> Prop :=
| lang_Eps : lang Eps ""
| lang_Atom (a : atom) (c : ascii) :
    atom_matches a c = true -> lang (Atom a) (String c "")
| lang_Cat (r1 r2 : regex) (s1 s2 : string) :
    lang r1 s1 -> lang r2 s2 -> lang (Cat r1 r2) (s1 +:+ s2)
| lang_Alt_l (r1 r2 : regex) (s : string) : lang r1 s -> lang (Alt r1 r2) s
| lang_Alt_r (r1 r2 : regex) (s : string) : lang r2 s -> lang (Alt r1 r2) s
| lang_Star_nil (r : regex) : lang (Star r) ""
| lang_Star_cons (r : regex) (s1 s2 : string) :
    lang r s1 -> lang (Star r) s2 -> lang (Star r) (s1 +:+ s2).

End Regex.

(** ** SourceClassifier *)

Module Classifier.
Import Regex.

(** The pattern of [stream_type_regex_]: one of the schemes rtp, rtmp,
    rtcp, rtsp, udp, then [://], then any number of [.] *)
Definition stream_type_regex_ : regex :=
  Cat (Alt (lit "rtp") (Alt (lit "rtmp") (Alt (lit "rtcp") (Alt (lit "rtsp") (lit "udp")))))
      (Cat (lit "://") (Star (Atom Dot))).

(** The pattern of [stream_ext_regex_]: http or https, then [://], any
    number of [.], and last [.m3u8] or [.flv], where the dot before each
    extension is not escaped and so is a wildcard too. *)
Definition stream_ext_regex_ : regex :=
  Cat (Alt (lit "http") (lit "https"))
      (Cat (lit "://")
           (Cat (Star (Atom Dot))
                (Alt (Cat (Atom Dot) (lit "m3u8")) (Cat (Atom Dot) (lit "flv"))))).

(** The pattern of [camera_path_regex_]: [/dev/video] and one character
    of the class 0-9. *)
Definition camera_path_regex_ : regex :=
  Cat (lit "/dev/video") (Atom (Range "0" "9")).

(** [GstVideoPlayer::IsStreamUri] *)
Definition IsStreamUri (uri : string) : bool :=
  regex_match uri stream_type_regex_ || regex_match uri stream_ext_regex_.

(** The shapes of identifier the classifier is meant to recognise as
    streams, for stating its properties. *)
Definition stream_schemes : list string := ["rtp"; "rtmp"; "rtcp"; "rtsp"; "udp"].
Definition http_schemes : list string := ["http"; "https"].
Definition stream_extensions : list string := [".m3u8"; ".flv"].

(** Equality of two strings up to the case of their letters. *)
Fixpoint same_ignoring_case (s p : string) : bool :=
  match s, p with
  | EmptyString, EmptyString => true
  | String a s', String c p' => Ascii.eqb (tolower a) (tolower c) && same_ignoring_case s' p'
  | _, _ => false
  end.

Definition is_one_of (candidates : list string) (s : string) : bool :=
  existsb (same_ignoring_case s) candidates.

(** No line feed and no carriage return in the string. *)
Fixpoint no_line_break (s : string) : bool :=
  match s with
  | EmptyString => true
  | String c s' => negb (code c =? 10) && negb (code c =? 13) && no_line_break s'
  end.

Inductive SourceKind := Camera | NetworkStream | LocalFile.

Section ParseUri.

(** GStreamer's [gst_uri_is_valid] and [gst_filename_to_uri] ([None] for
    a null result). *)
Variable gst_uri_is_valid : string -> bool.
Variable gst_filename_to_uri : string -> option string.

(** [GstVideoPlayer::ParseUri] *)
Definition ParseUri (uri : string) : string :=
  if gst_uri_is_valid uri then uri
  else match gst_filename_to_uri uri with
       | None => uri
       | Some result_uri => result_uri
       end.

(** The branch the constructor takes for an identifier. *)
Definition classify (uri : string) : SourceKind :=
  if negb (regex_match uri camera_path_regex_) then
    if IsStreamUri (ParseUri uri) then NetworkStream else LocalFile
  else Camera.

End ParseUri.

(** The shapes of identifier each pattern accepts, for stating what the
    classifier recognises exactly. *)
Definition is_digit (c : ascii) : bool := (48 <=? code c) && (code c <=? 57).

Definition not_line_break (c : ascii) : bool := negb (code c =? 10) && negb (code c =? 13).

Definition bare_extensions : list string := ["m3u8"; "flv"].

(** One of the five stream schemes, [://], and a rest on one line. *)
Definition scheme_shape (s : string) : Prop :=
  exists scheme rest,
    s = scheme +:+ "://" +:+ rest
    /\ is_one_of stream_schemes scheme = true
    /\ no_line_break rest = true.

(** http or https, [://], a middle part on one line, any one character
    that is no line break, and [m3u8] or [flv]. *)
Definition extension_shape (s : string) : Prop :=
  exists scheme middle c ext,
    s = scheme +:+ "://" +:+ middle +:+ String c ext
    /\ is_one_of http_schemes scheme = true
    /\ no_line_break middle = true
    /\ not_line_break c = true
    /\ is_one_of bare_extensions ext = true.

(** [/dev/video] in any case and one decimal digit. *)
Definition camera_shape (s : string) : Prop :=
  exists path d,
    s = path +:+ String d ""
    /\ same_ignoring_case path "/dev/video" = true
    /\ is_digit d = true.

End Classifier.

(** ** The player object *)

Module Player.

(** GStreamer's [GST_MSECOND]: nanoseconds per millisecond. *)
Definition GST_MSECOND : Z := 1000000.

(** The range of [int64_t], and the value an [int64_t] holds after an
    arithmetic result [z]: [z] itself within the range, and beyond it
    [z] reduced modulo [2 ^ 64] into the range, which is what the
    multiplication of the machine gives. *)
Definition INT64_MIN : Z := - 2 ^ 63.
Definition INT64_MAX : Z := 2 ^ 63 - 1.
Definition to_int64 (z : Z) : Z := (z + 2 ^ 63) mod 2 ^ 64 - 2 ^ 63.

(** A [double]: an IEEE 754 binary64 value, compared as the standard
    says ([SFltb], [SFleb]: false whenever a NaN is involved).  The
    constants are in canonical form, with a 53-bit mantissa. *)
Definition double := spec_float.
Definition d_zero : double := S754_zero false.
Definition d_half : double := S754_finite false (2 ^ 52) (-53).
Definition d_one : double := S754_finite false (2 ^ 52) (-52).
Definition d_two : double := S754_finite false (2 ^ 52) (-51).

Inductive GstState := GST_STATE_NULL | GST_STATE_READY | GST_STATE_PAUSED | GST_STATE_PLAYING.

Inductive GstSeekFlags := GST_SEEK_FLAG_FLUSH | GST_SEEK_FLAG_FLUSH_KEY_UNIT.

Inductive GValue := GBool (b : bool) | GDouble (d : double) | GString (s : string).

(** What the player asks of its two collaborators: the stream handler
    ([OnNotify...]) and the engine. *)
Inductive event :=
| OnNotifyInitialized
| OnNotifyFrameDecoded
| OnNotifyCompleted
| gst_element_seek (rate : double) (flags : GstSeekFlags) (start_ns : Z)
| gst_element_set_state (state : GstState)
| g_object_set (element property : string) (value : GValue)
| gst_plugin_feature_set_rank (element : string).

(** [struct GstVideoElements]: a pointer is modelled by whether it is set,
    the two elements whose factory is chosen at run time by the name of
    that factory, and [buffer] by the bytes of the referenced frame. *)
Record GstVideoElements := {
  pipeline : bool;
  video_src : option string;
  video_convert : option string;
  caps_filter : bool;
  video_sink : bool;
  output : bool;
  bus : bool;
  buffer : option (list byte)
}.

(** The data members of [class GstVideoPlayer].  [is_camera_] and
    [is_inconsistent_] are used by the implementation file as [bool]
    members.  [pixels_] holds the bytes of the pixel array ([None] for a
    null pointer), and [trace] the history of requests sent so far. *)
Record GstVideoPlayer := {
  gst_ : GstVideoElements;
  uri_ : string;
  aspect_ratio_ : string;
  pixels_ : option (list byte);
  width_ : Z;
  height_ : Z;
  volume_ : double;
  playback_rate_ : double;
  mute_ : bool;
  is_stream_ : bool;
  is_camera_ : bool;
  is_inconsistent_ : bool;
  auto_repeat_ : bool;
  is_completed_ : bool;
  trace : list event
}.

Definition set_pipeline (v : bool) (x : GstVideoElements) : GstVideoElements :=
  {| pipeline := v; video_src := video_src x; video_convert := video_convert x;
     caps_filter := caps_filter x; video_sink := video_sink x; output := output x;
     bus := bus x; buffer := buffer x |}.

Definition set_video_src (v : option string) (x : GstVideoElements) : GstVideoElements :=
  {| pipeline := pipeline x; video_src := v; video_convert := video_convert x;
     caps_filter := caps_filter x; video_sink := video_sink x; output := output x;
     bus := bus x; buffer := buffer x |}.

Definition set_video_convert (v : option string) (x : GstVideoElements) : GstVideoElements :=
  {| pipeline := pipeline x; video_src := video_src x; video_convert := v;
     caps_filter := caps_filter x; video_sink := video_sink x; output := output x;
     bus := bus x; buffer := buffer x |}.

Definition set_caps_filter (v : bool) (x : GstVideoElements) : GstVideoElements :=
  {| pipeline := pipeline x; video_src := video_src x;
     video_convert := video_convert x; caps_filter := v; video_sink := video_sink x;
     output := output x; bus := bus x; buffer := buffer x |}.

Definition set_video_sink (v : bool) (x : GstVideoElements) : GstVideoElements :=
  {| pipeline := pipeline x; video_src := video_src x;
     video_convert := video_convert x; caps_filter := caps_filter x; video_sink := v;
     output := output x; bus := bus x; buffer := buffer x |}.

Definition set_output (v : bool) (x : GstVideoElements) : GstVideoElements :=
  {| pipeline := pipeline x; video_src := video_src x;
     video_convert := video_convert x; caps_filter := caps_filter x;
     video_sink := video_sink x; output := v; bus := bus x; buffer := buffer x |}.

Definition set_bus (v : bool) (x : GstVideoElements) : GstVideoElements :=
  {| pipeline := pipeline x; video_src := video_src x;
     video_convert := video_convert x; caps_filter := caps_filter x;
     video_sink := video_sink x; output := output x; bus := v; buffer := buffer x |}.

Definition set_buffer (v : option (list byte)) (x : GstVideoElements) : GstVideoElements :=
  {| pipeline := pipeline x; video_src := video_src x;
     video_convert := video_convert x; caps_filter := caps_filter x;
     video_sink := video_sink x; output := output x; bus := bus x; buffer := v |}.

Definition set_gst_ (v : GstVideoElements) (x : GstVideoPlayer) : GstVideoPlayer :=
  {| gst_ := v; uri_ := uri_ x; aspect_ratio_ := aspect_ratio_ x; pixels_ := pixels_ x;
     width_ := width_ x; height_ := height_ x; volume_ := volume_ x;
     playback_rate_ := playback_rate_ x; mute_ := mute_ x; is_stream_ := is_stream_ x;
     is_camera_ := is_camera_ x; is_inconsistent_ := is_inconsistent_ x;
     auto_repeat_ := auto_repeat_ x; is_completed_ := is_completed_ x;
     trace := trace x |}.

Definition set_uri_ (v : string) (x : GstVideoPlayer) : GstVideoPlayer :=
  {| gst_ := gst_ x; uri_ := v; aspect_ratio_ := aspect_ratio_ x; pixels_ := pixels_ x;
     width_ := width_ x; height_ := height_ x; volume_ := volume_ x;
     playback_rate_ := playback_rate_ x; mute_ := mute_ x; is_stream_ := is_stream_ x;
     is_camera_ := is_camera_ x; is_inconsistent_ := is_inconsistent_ x;
     auto_repeat_ := auto_repeat_ x; is_completed_ := is_completed_ x;
     trace := trace x |}.

Definition set_aspect_ratio_ (v : string) (x : GstVideoPlayer) : GstVideoPlayer :=
  {| gst_ := gst_ x; uri_ := uri_ x; aspect_ratio_ := v; pixels_ := pixels_ x;
     width_ := width_ x; height_ := height_ x; volume_ := volume_ x;
     playback_rate_ := playback_rate_ x; mute_ := mute_ x; is_stream_ := is_stream_ x;
     is_camera_ := is_camera_ x; is_inconsistent_ := is_inconsistent_ x;
     auto_repeat_ := auto_repeat_ x; is_completed_ := is_completed_ x;
     trace := trace x |}.

Definition set_pixels_ (v : option (list byte)) (x : GstVideoPlayer) : GstVideoPlayer :=
  {| gst_ := gst_ x; uri_ := uri_ x; aspect_ratio_ := aspect_ratio_ x; pixels_ := v;
     width_ := width_ x; height_ := height_ x; volume_ := volume_ x;
     playback_rate_ := playback_rate_ x; mute_ := mute_ x; is_stream_ := is_stream_ x;
     is_camera_ := is_camera_ x; is_inconsistent_ := is_inconsistent_ x;
     auto_repeat_ := auto_repeat_ x; is_completed_ := is_completed_ x;
     trace := trace x |}.

Definition set_width_ (v : Z) (x : GstVideoPlayer) : GstVideoPlayer :=
  {| gst_ := gst_ x; uri_ := uri_ x; aspect_ratio_ := aspect_ratio_ x;
     pixels_ := pixels_ x; width_ := v; height_ := height_ x; volume_ := volume_ x;
     playback_rate_ := playback_rate_ x; mute_ := mute_ x; is_stream_ := is_stream_ x;
     is_camera_ := is_camera_ x; is_inconsistent_ := is_inconsistent_ x;
     auto_repeat_ := auto_repeat_ x; is_completed_ := is_completed_ x;
     trace := trace x |}.

Definition set_height_ (v : Z) (x : GstVideoPlayer) : GstVideoPlayer :=
  {| gst_ := gst_ x; uri_ := uri_ x; aspect_ratio_ := aspect_ratio_ x;
     pixels_ := pixels_ x; width_ := width_ x; height_ := v; volume_ := volume_ x;
     playback_rate_ := playback_rate_ x; mute_ := mute_ x; is_stream_ := is_stream_ x;
     is_camera_ := is_camera_ x; is_inconsistent_ := is_inconsistent_ x;
     auto_repeat_ := auto_repeat_ x; is_completed_ := is_completed_ x;
     trace := trace x |}.

Definition set_volume_ (v : double) (x : GstVideoPlayer) : GstVideoPlayer :=
  {| gst_ := gst_ x; uri_ := uri_ x; aspect_ratio_ := aspect_ratio_ x;
     pixels_ := pixels_ x; width_ := width_ x; height_ := height_ x; volume_ := v;
     playback_rate_ := playback_rate_ x; mute_ := mute_ x; is_stream_ := is_stream_ x;
     is_camera_ := is_camera_ x; is_inconsistent_ := is_inconsistent_ x;
     auto_repeat_ := auto_repeat_ x; is_completed_ := is_completed_ x;
     trace := trace x |}.

Definition set_playback_rate_ (v : double) (x : GstVideoPlayer) : GstVideoPlayer :=
  {| gst_ := gst_ x; uri_ := uri_ x; aspect_ratio_ := aspect_ratio_ x;
     pixels_ := pixels_ x; width_ := width_ x; height_ := height_ x;
     volume_ := volume_ x; playback_rate_ := v; mute_ := mute_ x;
     is_stream_ := is_stream_ x; is_camera_ := is_camera_ x;
     is_inconsistent_ := is_inconsistent_ x; auto_repeat_ := auto_repeat_ x;
     is_completed_ := is_completed_ x; trace := trace x |}.

Definition set_mute_ (v : bool) (x : GstVideoPlayer) : GstVideoPlayer :=
  {| gst_ := gst_ x; uri_ := uri_ x; aspect_ratio_ := aspect_ratio_ x;
     pixels_ := pixels_ x; width_ := width_ x; height_ := height_ x;
     volume_ := volume_ x; playback_rate_ := playback_rate_ x; mute_ := v;
     is_stream_ := is_stream_ x; is_camera_ := is_camera_ x;
     is_inconsistent_ := is_inconsistent_ x; auto_repeat_ := auto_repeat_ x;
     is_completed_ := is_completed_ x; trace := trace x |}.

Definition set_is_stream_ (v : bool) (x : GstVideoPlayer) : GstVideoPlayer :=
  {| gst_ := gst_ x; uri_ := uri_ x; aspect_ratio_ := aspect_ratio_ x;
     pixels_ := pixels_ x; width_ := width_ x; height_ := height_ x;
     volume_ := volume_ x; playback_rate_ := playback_rate_ x; mute_ := mute_ x;
     is_stream_ := v; is_camera_ := is_camera_ x;
     is_inconsistent_ := is_inconsistent_ x; auto_repeat_ := auto_repeat_ x;
     is_completed_ := is_completed_ x; trace := trace x |}.

Definition set_is_camera_ (v : bool) (x : GstVideoPlayer) : GstVideoPlayer :=
  {| gst_ := gst_ x; uri_ := uri_ x; aspect_ratio_ := aspect_ratio_ x;
     pixels_ := pixels_ x; width_ := width_ x; height_ := height_ x;
     volume_ := volume_ x; playback_rate_ := playback_rate_ x; mute_ := mute_ x;
     is_stream_ := is_stream_ x; is_camera_ := v;
     is_inconsistent_ := is_inconsistent_ x; auto_repeat_ := auto_repeat_ x;
     is_completed_ := is_completed_ x; trace := trace x |}.

Definition set_is_inconsistent_ (v : bool) (x : GstVideoPlayer) : GstVideoPlayer :=
  {| gst_ := gst_ x; uri_ := uri_ x; aspect_ratio_ := aspect_ratio_ x;
     pixels_ := pixels_ x; width_ := width_ x; height_ := height_ x;
     volume_ := volume_ x; playback_rate_ := playback_rate_ x; mute_ := mute_ x;
     is_stream_ := is_stream_ x; is_camera_ := is_camera_ x; is_inconsistent_ := v;
     auto_repeat_ := auto_repeat_ x; is_completed_ := is_completed_ x;
     trace := trace x |}.

Definition set_auto_repeat_ (v : bool) (x : GstVideoPlayer) : GstVideoPlayer :=
  {| gst_ := gst_ x; uri_ := uri_ x; aspect_ratio_ := aspect_ratio_ x;
     pixels_ := pixels_ x; width_ := width_ x; height_ := height_ x;
     volume_ := volume_ x; playback_rate_ := playback_rate_ x; mute_ := mute_ x;
     is_stream_ := is_stream_ x; is_camera_ := is_camera_ x;
     is_inconsistent_ := is_inconsistent_ x; auto_repeat_ := v;
     is_completed_ := is_completed_ x; trace := trace x |}.

Definition set_is_completed_ (v : bool) (x : GstVideoPlayer) : GstVideoPlayer :=
  {| gst_ := gst_ x; uri_ := uri_ x; aspect_ratio_ := aspect_ratio_ x;
     pixels_ := pixels_ x; width_ := width_ x; height_ := height_ x;
     volume_ := volume_ x; playback_rate_ := playback_rate_ x; mute_ := mute_ x;
     is_stream_ := is_stream_ x; is_camera_ := is_camera_ x;
     is_inconsistent_ := is_inconsistent_ x; auto_repeat_ := auto_repeat_ x;
     is_completed_ := v; trace := trace x |}.

Definition set_trace (v : list event) (x : GstVideoPlayer) : GstVideoPlayer :=
  {| gst_ := gst_ x; uri_ := uri_ x; aspect_ratio_ := aspect_ratio_ x;
     pixels_ := pixels_ x; width_ := width_ x; height_ := height_ x;
     volume_ := volume_ x; playback_rate_ := playback_rate_ x; mute_ := mute_ x;
     is_stream_ := is_stream_ x; is_camera_ := is_camera_ x;
     is_inconsistent_ := is_inconsistent_ x; auto_repeat_ := auto_repeat_ x;
     is_completed_ := is_completed_ x; trace := v |}.

Definition emit (e : event) (x : GstVideoPlayer) : GstVideoPlayer :=
  set_trace (trace x ++ [e]) x.

Definition set_gst (f : GstVideoElements -> GstVideoElements) (x : GstVideoPlayer) : GstVideoPlayer :=
  set_gst_ (f (gst_ x)) x.

(** ** PlaybackController

    The engine's answers to the requests a call makes are arguments of
    the call: [seek_ok] for [gst_element_seek], [query] for a position or
    duration query ([None] when the query fails, else the value in
    nanoseconds), [ok] for a state change. *)

Definition Play (ok : bool) (x : GstVideoPlayer) : bool * GstVideoPlayer :=
  (ok, emit (gst_element_set_state GST_STATE_PLAYING) x).

Definition Pause (ok : bool) (x : GstVideoPlayer) : bool * GstVideoPlayer :=
  (ok, emit (gst_element_set_state GST_STATE_PAUSED) x).

Definition Stop (ok : bool) (x : GstVideoPlayer) : bool * GstVideoPlayer :=
  (ok, emit (gst_element_set_state GST_STATE_READY) x).

Definition SetVolume (volume : double) (x : GstVideoPlayer) : bool * GstVideoPlayer :=
  match video_src (gst_ x) with
  | None => (false, x)
  | Some _ =>
      let x := set_volume_ volume x in
      (true, emit (g_object_set "src" "volume" (GDouble volume)) x)
  end.

Definition SetAutoRepeat (auto_repeat : bool) (x : GstVideoPlayer) : GstVideoPlayer :=
  set_auto_repeat_ auto_repeat x.

Definition SetSeek (position : Z) (seek_ok : bool) (x : GstVideoPlayer) : bool * GstVideoPlayer :=
  if is_stream_ x || is_camera_ x then (false, x)
  else
    let nanosecond := to_int64 (position * 1000 * 1000) in
    let x := emit (gst_element_seek (playback_rate_ x) GST_SEEK_FLAG_FLUSH_KEY_UNIT nanosecond) x in
    if negb seek_ok then (false, x) else (true, x).

Definition GetDuration (query : option Z) (x : GstVideoPlayer) : Z :=
  if is_stream_ x || is_camera_ x then 0
  else match query with
       | None => -1
       | Some duration_msec => Z.quot duration_msec GST_MSECOND
       end.

(** The block of [GetCurrentPosition] that runs under
    [mutex_event_completed_]: test and clear [is_completed_], then notify
    and restart. *)
Definition drain_completed (seek_ok : bool) (x : GstVideoPlayer) : GstVideoPlayer :=
  if is_completed_ x then
    let x := set_is_completed_ false x in
    let x := emit OnNotifyCompleted x in
    if auto_repeat_ x then snd (SetSeek 0 seek_ok x) else x
  else x.

Definition GetCurrentPosition (query : option Z) (seek_ok : bool) (x : GstVideoPlayer)
  : Z * GstVideoPlayer :=
  let position := 0 in
  if is_stream_ x || is_camera_ x then (position, x)
  else match query with
       | None => (-1, x)
       | Some position =>
           let x := drain_completed seek_ok x in
           (Z.quot position GST_MSECOND, x)
       end.

(** [repeat_seek_ok] answers the seek that the nested position query may
    issue, [seek_ok] the seek that changes the rate. *)
Definition SetPlaybackRate (rate : double) (query : option Z) (repeat_seek_ok seek_ok : bool)
    (x : GstVideoPlayer) : bool * GstVideoPlayer :=
  if is_stream_ x || is_camera_ x then (false, x)
  else match video_src (gst_ x) with
  | None => (false, x)
  | Some _ =>
      if SFleb rate d_zero then (false, x)
      else
        let '(position, x) := GetCurrentPosition query repeat_seek_ok x in
        if position <? 0 then (false, x)
        else
          let x := emit (gst_element_seek rate GST_SEEK_FLAG_FLUSH (position * GST_MSECOND)) x in
          if negb seek_ok then (false, x)
          else
            let x := set_playback_rate_ rate x in
            let x := set_mute_ (SFltb rate d_half || SFltb d_two rate) x in
            (true, emit (g_object_set "src" "mute" (GBool (mute_ x))) x)
  end.

(** ** CompletionMonitor: the bus observer *)

Inductive GstMessageType :=
| GST_MESSAGE_EOS | GST_MESSAGE_WARNING | GST_MESSAGE_ERROR | GST_MESSAGE_OTHER.

(** [HandleGstMessage]; warnings and errors are only printed.  The return
    value is always [GST_BUS_PASS]. *)
Definition HandleGstMessage (message : GstMessageType) (x : GstVideoPlayer) : GstVideoPlayer :=
  match message with
  | GST_MESSAGE_EOS => set_is_completed_ true x
  | _ => x
  end.

(** ** FrameSink *)

(** [new uint32_t[width * height]]: the product is an [int].  A fresh
    array has indeterminate contents: [indeterminate i] is the byte that
    the storage handed out happens to hold at offset [i], about which
    nothing is known.  Exhaustion of memory is not modelled. *)
Definition new_pixels (width height : Z) (indeterminate : nat -> byte) : outcome (list byte) :=
  let n := width * height in
  if (n <? StdString.INT_MIN) || (StdString.INT_MAX <? n) then Undefined
  else if n <? 0 then Throws "bad_array_new_length"
  else Returns (map indeterminate (seq 0 (Z.to_nat (4 * n)))).

(** The first part of [HandoffHandler], which runs before
    [mutex_buffer_] is taken; [width] and [height] are what the pad's
    caps report, [indeterminate] what a new pixel array holds. *)
Definition Handoff_resize (width height : Z) (indeterminate : nat -> byte)
    (x : GstVideoPlayer) : outcome GstVideoPlayer :=
  if negb (width =? width_ x) || negb (height =? height_ x) then
    let x := set_width_ width x in
    let x := set_height_ height x in
    px ← new_pixels width height indeterminate;
    Returns (set_pixels_ (Some px) x)
  else Returns x.

(** The second part of [HandoffHandler], under the exclusive lock. *)
Definition Handoff_store (buf : list byte) (x : GstVideoPlayer) : GstVideoPlayer :=
  let x := set_gst (set_buffer (Some buf)) x in
  emit OnNotifyFrameDecoded x.

Definition HandoffHandler (buf : list byte) (width height : Z) (indeterminate : nat -> byte)
    (x : GstVideoPlayer) : outcome GstVideoPlayer :=
  x ← Handoff_resize width height indeterminate x;
  Returns (Handoff_store buf x).

(** [GetFrameBuffer], under the shared lock.  [gst_buffer_extract] copies
    [min(pixel_bytes, size of the buffer)] bytes to the start of
    [pixels_]; the result is the array [pixels_] points to ([None] for a
    null pointer). *)
Definition GetFrameBuffer (x : GstVideoPlayer) : outcome (option (list byte) * GstVideoPlayer) :=
  match buffer (gst_ x) with
  | None => Returns (None, x)
  | Some buf =>
      let product := width_ x * height_ x * 4 in
      if (product <? StdString.INT_MIN) || (StdString.INT_MAX <? product) then Undefined
      else
        let pixel_bytes := product mod 2 ^ 32 in
        let copied := Z.to_nat (Z.min pixel_bytes (Z.of_nat (length buf))) in
        match pixels_ x with
        | None => if Nat.eqb copied 0 then Returns (None, x) else Undefined
        | Some px =>
            if (length px <? copied)%nat then Undefined
            else
              let px' := take copied buf ++ drop copied px in
              Returns (Some px', set_pixels_ (Some px') x)
        end
  end.

(** ** PreflightProbe *)

(** What the libav calls of the probe answer for one stream of the
    container: the results of the successive checks, the answers of
    [avcodec_send_packet] to the packets read one after the other ([true]
    for a result [>= 0]), and the coded size found in the codec context
    afterwards. *)
Record AVStream := {
  codec_is_video : bool;
  decoder_found : bool;
  codec_context_allocated : bool;
  parameters_copied : bool;
  codec_opened : bool;
  packet_allocated : bool;
  packets_accepted : list bool;
  coded_width : Z;
  coded_height : Z
}.

Record AVInput := {
  format_context_allocated : bool;
  input_opened : bool;
  stream_info_found : bool;
  streams : list AVStream
}.

(** The [do ... while (avcodec_send_packet(...) < 0)] loop: it ends at the
    first accepted packet, and not at all when none is accepted. *)
Fixpoint send_until_accepted (answers : list bool) : bool :=
  match answers with
  | [] => false
  | accepted :: rest => if accepted then true else send_until_accepted rest
  end.

(** The comparison of the coded size with [resolution_values_]. *)
Definition check_coded_size (s : AVStream) (x : GstVideoPlayer) : GstVideoPlayer :=
  if negb (Catalog.find_in Catalog.resolution_values_ (coded_width s))
     || negb (Catalog.find_in Catalog.resolution_values_ (coded_height s))
  then
    let x := set_is_inconsistent_ true x in
    if coded_height s >? coded_width s
    then set_aspect_ratio_ "16/9" x
    else set_aspect_ratio_ "9/16" x
  else x.

(** The [for] loop over the streams: the first video stream decides. *)
Fixpoint probe_streams (ss : list AVStream) (x : GstVideoPlayer) : outcome GstVideoPlayer :=
  match ss with
  | [] => Returns x
  | s :: rest =>
      if codec_is_video s then
        if negb (decoder_found s) then Returns x
        else if negb (codec_context_allocated s) then Returns x
        else if negb (parameters_copied s) then Returns x
        else if negb (codec_opened s) then Returns x
        else if negb (packet_allocated s) then Returns x
        else if send_until_accepted (packets_accepted s)
             then Returns (check_coded_size s x)
             else Hangs
      else probe_streams rest x
  end.

(** [GstVideoPlayer::CheckInconsistency]; [input] is what libav finds at
    the given path. *)
Definition CheckInconsistency (input : AVInput) (x : GstVideoPlayer) : outcome GstVideoPlayer :=
  if negb (format_context_allocated input) then Returns x
  else if negb (input_opened input) then Returns x
  else if negb (stream_info_found input) then Returns x
  else probe_streams (streams input) x.

(** ** PipelineBuilder *)

(** [GstVideoPlayer::SetStreamDataFromUrl] *)
Definition SetStreamDataFromUrl (uri : string) (x : GstVideoPlayer)
  : outcome (bool * GstVideoPlayer) :=
  parsed ← Url.parse_params uri;
  match parsed with
  | None => Returns (false, x)
  | Some params =>
      x ← match params !! "w" with
          | Some w =>
              v ← StdString.stoi w;
              r ← Catalog.NormalizeResolutionValue v;
              Returns (set_width_ r x)
          | None => Returns x
          end;
      x ← match params !! "h" with
          | Some h =>
              v ← StdString.stoi h;
              r ← Catalog.NormalizeResolutionValue v;
              Returns (set_height_ r x)
          | None => Returns x
          end;
      let x := match params !! "o" with
               | Some o =>
                   if String.eqb o "l"
                   then set_aspect_ratio_ "16/9" x
                   else set_aspect_ratio_ "9/16" x
               | None => x
               end in
      Returns (true, x)
  end.

(** The answers of the engine while a pipeline is built. *)
Record GstEnv := {
  gst_element_factory_find : string -> bool;
  gst_registry_get : bool;
  gst_pipeline_new : bool;
  gst_element_factory_make : string -> bool;
  gst_bin_new : bool;
  gst_pipeline_get_bus : bool
}.

(** [GstVideoPlayer::CheckPluginAvailability] *)
Definition CheckPluginAvailability (env : GstEnv) (element : string) : bool :=
  if gst_element_factory_find env element then true else false.

(** [GstVideoPlayer::IncreasePluginRank]: the rank is set on the factory
    that [gst_element_factory_find] gives for the element.  When there is
    none the function goes on with a null factory, which
    [gst_plugin_feature_set_rank] and [gst_registry_add_feature] refuse,
    so that no rank is raised.  Adding the feature to the registry again
    is not recorded. *)
Definition IncreasePluginRank (env : GstEnv) (element : string) (x : GstVideoPlayer)
  : GstVideoPlayer :=
  if negb (gst_registry_get env) then x
  else if gst_element_factory_find env element
       then emit (gst_plugin_feature_set_rank element) x
       else x.

Definition accelerated_elements : list string :=
  ["vah264dec"; "vah265dec"; "vapostproc"; "vadeinterlace"; "vampeg2dec"; "vavp8dec"; "vavp9dec"].

(** The first part of [CreatePipeline]: the choice of the converter and
    of the caps string. *)
Definition choose_caps (env : GstEnv) (x : GstVideoPlayer)
  : outcome (string * string * GstVideoPlayer) :=
  let converter := "videoconvert" in
  let capsStr := "video/x-raw,format=RGBA" in
  if CheckPluginAvailability env "vapostproc" then
    let converter := "vapostproc" in
    let capsStr := "video/x-raw(memory:DMABuf),format=RGBA" in
    let capsStr :=
      if is_inconsistent_ x
      then capsStr +:+ ", pixel-aspect-ratio=" +:+ aspect_ratio_ x
      else capsStr in
    '(from_url, x) ←
      (if is_stream_ x then SetStreamDataFromUrl (uri_ x) x else Returns (false, x));
    let capsStr :=
      if from_url : bool then
        "video/x-raw, format=RGBA"
          +:+ ", width=" +:+ StdString.to_string (width_ x)
          +:+ ", height=" +:+ StdString.to_string (height_ x)
          +:+ ", pixel-aspect-ratio=1/1"
      else capsStr in
    Returns (converter, capsStr, foldl (fun x e => IncreasePluginRank env e x) x accelerated_elements)
  else Returns (converter, capsStr, x).

(** [GstVideoPlayer::CreatePipeline].  The linking of the elements and
    the pads of the output bin are left to the engine; the properties set
    on the elements are recorded. *)
Definition CreatePipeline (env : GstEnv) (x : GstVideoPlayer) : outcome (bool * GstVideoPlayer) :=
  '(converter, capsStr, x) ← choose_caps env x;
  let src_factory := if is_camera_ x then "v4l2src" else "playbin3" in
  let x := set_gst (set_pipeline (gst_pipeline_new env)) x in
  if negb (pipeline (gst_ x)) then Returns (false, x) else
  let x := set_gst (set_video_src
             (if gst_element_factory_make env src_factory then Some src_factory else None)) x in
  if negb (bool_decide (is_Some (video_src (gst_ x)))) then Returns (false, x) else
  let x := set_gst (set_video_convert
             (if gst_element_factory_make env converter then Some converter else None)) x in
  if negb (bool_decide (is_Some (video_convert (gst_ x)))) then Returns (false, x) else
  let x := set_gst (set_caps_filter (gst_element_factory_make env "capsfilter")) x in
  if negb (caps_filter (gst_ x)) then Returns (false, x) else
  let x := set_gst (set_video_sink (gst_element_factory_make env "fakesink")) x in
  if negb (video_sink (gst_ x)) then Returns (false, x) else
  let playbin := String.eqb src_factory "playbin3" in
  let x := if playbin then set_gst (set_output (gst_bin_new env)) x else x in
  if playbin && negb (output (gst_ x)) then Returns (false, x) else
  let x := set_gst (set_bus (gst_pipeline_get_bus env)) x in
  if negb (bus (gst_ x)) then Returns (false, x) else
  let x := emit (g_object_set "videosink" "sync" (GBool true)) x in
  let x := emit (g_object_set "videosink" "qos" (GBool true)) x in
  let x := emit (g_object_set "videosink" "signal-handoffs" (GBool true)) x in
  let x := if negb (is_inconsistent_ x)
           then emit (g_object_set "videoconvert" "add-borders" (GBool true)) x
           else x in
  let x := emit (g_object_set "filter" "caps" (GString capsStr)) x in
  let x := if playbin
           then emit (g_object_set "src" "video-sink" (GString "output"))
                  (emit (g_object_set "src" "uri" (GString (uri_ x))) x)
           else emit (g_object_set "src" "device" (GString (uri_ x))) x in
  Returns (true, x).

(** The caps the pipeline was given: the last value set on the [caps]
    property of the caps filter. *)
Fixpoint caps_of (t : list event) : option string :=
  match t with
  | [] => None
  | e :: t' =>
      match caps_of t' with
      | Some c => Some c
      | None =>
          match e with
          | g_object_set "filter" "caps" (GString c) => Some c
          | _ => None
          end
      end
  end.

(** The caps string [CreatePipeline] builds from a width and a height
    taken from the URL of a stream. *)
Definition stream_caps (nw nh : Z) : string :=
  "video/x-raw, format=RGBA, width=" +:+ StdString.to_string nw
    +:+ ", height=" +:+ StdString.to_string nh +:+ ", pixel-aspect-ratio=1/1".

(** [GstVideoPlayer::DestroyPipeline]; it leaves [caps_filter] as it is. *)
Definition DestroyPipeline (x : GstVideoPlayer) : GstVideoPlayer :=
  let x := if video_sink (gst_ x)
           then emit (g_object_set "videosink" "signal-handoffs" (GBool false)) x
           else x in
  let x := if pipeline (gst_ x) then emit (gst_element_set_state GST_STATE_NULL) x else x in
  let x := set_gst (set_buffer None) x in
  let x := set_gst (set_bus false) x in
  let x := set_gst (set_pipeline false) x in
  let x := set_gst (set_video_src None) x in
  let x := set_gst (set_output false) x in
  let x := set_gst (set_video_sink false) x in
  set_gst (set_video_convert None) x.

(** [GstVideoPlayer::Preroll]; the wait for the state change has no
    effect on the members. *)
Definition Preroll (x : GstVideoPlayer) : GstVideoPlayer :=
  match video_src (gst_ x) with
  | None => x
  | Some _ => emit (gst_element_set_state GST_STATE_PAUSED) x
  end.

(** [GstVideoPlayer::GetVideoSize] on [width_] and [height_]:
    [negotiated] is [None] when the sink has no pad or no caps structure,
    and else holds the [width] and [height] fields the structure has. *)
Definition GetVideoSize (negotiated : option (option Z * option Z)) (x : GstVideoPlayer)
  : GstVideoPlayer :=
  if negb (pipeline (gst_ x)) || negb (video_sink (gst_ x)) then x
  else match negotiated with
       | None => x
       | Some (w, h) =>
           let x := match w with Some w => set_width_ w x | None => x end in
           match h with Some h => set_height_ h x | None => x end
       end.

(** ** Construction *)

(** Everything outside the player that the constructor consults, and
    the bytes that the storage of its pixel array happens to hold. *)
Record Environment := {
  gst_uri_is_valid : string -> bool;
  gst_filename_to_uri : string -> option string;
  av_input : string -> AVInput;
  gst_env : GstEnv;
  negotiated_caps : option (option Z * option Z);
  indeterminate_bytes : nat -> byte
}.

(** The members once the constructor has reset the pointers of [gst_]:
    the default member initialisers, the flags the header does not list
    and [caps_filter], which the constructor does not reset, taken as
    unset, and [width0], [height0] for the two members that have no
    initialiser. *)
Definition initial (width0 height0 : Z) : GstVideoPlayer := {|
  gst_ := {| pipeline := false; video_src := None; video_convert := None;
             caps_filter := false; video_sink := false; output := false;
             bus := false; buffer := None |};
  uri_ := "";
  aspect_ratio_ := "";
  pixels_ := None;
  width_ := width0;
  height_ := height0;
  volume_ := d_one;
  playback_rate_ := d_one;
  mute_ := false;
  is_stream_ := false;
  is_camera_ := false;
  is_inconsistent_ := false;
  auto_repeat_ := false;
  is_completed_ := false;
  trace := []
|}.

(** [GstVideoPlayer::GstVideoPlayer] *)
Definition construct (env : Environment) (uri : string) (width0 height0 : Z)
  : outcome GstVideoPlayer :=
  let x := initial width0 height0 in
  x ← (if negb (Regex.regex_match uri Classifier.camera_path_regex_) then
         let x := set_uri_
                    (Classifier.ParseUri (gst_uri_is_valid env) (gst_filename_to_uri env) uri) x in
         let x := set_is_stream_ (Classifier.IsStreamUri (uri_ x)) x in
         if negb (is_stream_ x) then CheckInconsistency (av_input env uri) x else Returns x
       else
         let x := set_uri_ uri x in
         let x := set_is_camera_ true x in
         let x := set_width_ 1920 x in
         Returns (set_height_ 1080 x));
  '(created, x) ← CreatePipeline (gst_env env) x;
  if negb created then Returns (DestroyPipeline x)
  else
    let x := Preroll x in
    let x := GetVideoSize (negotiated_caps env) x in
    px ← new_pixels (width_ x) (height_ x) (indeterminate_bytes env);
    let x := set_pixels_ (Some px) x in
    Returns (emit OnNotifyInitialized x).

(** The kind of source a player was built for, read off its flags. *)
Definition source_kind (x : GstVideoPlayer) : Classifier.SourceKind :=
  if is_camera_ x then Classifier.Camera
  else if is_stream_ x then Classifier.NetworkStream
  else Classifier.LocalFile.

(** [GstVideoPlayer::~GstVideoPlayer]: [Stop()], then
    [DestroyPipeline()]. *)
Definition destroy (stop_ok : bool) (x : GstVideoPlayer) : GstVideoPlayer :=
  DestroyPipeline (snd (Stop stop_ok x)).

(** For stating what the probe depends on: the first video stream of a
    list, whether every step on a stream before the packet loop
    succeeds, and whether the container is opened with its stream
    table. *)
Fixpoint first_video (ss : list AVStream) : option AVStream :=
  match ss with
  | [] => None
  | s :: rest => if codec_is_video s then Some s else first_video rest
  end.

Definition decoder_ready (s : AVStream) : bool :=
  decoder_found s && codec_context_allocated s && parameters_copied s
  && codec_opened s && packet_allocated s.

Definition container_ready (input : AVInput) : bool :=
  format_context_allocated input && input_opened input && stream_info_found input.

(** An environment with another answer of libav. *)
Definition with_av_input (f : string -> AVInput) (env : Environment) : Environment :=
  {| gst_uri_is_valid := gst_uri_is_valid env;
     gst_filename_to_uri := gst_filename_to_uri env;
     av_input := f;
     gst_env := gst_env env;
     negotiated_caps := negotiated_caps env;
     indeterminate_bytes := indeterminate_bytes env |}.

(** Whether the engine provides everything [CreatePipeline] asks for,
    given the two factories chosen. *)
Definition engine_provides (env : GstEnv) (src_factory converter : string) : bool :=
  gst_pipeline_new env
  && gst_element_factory_make env src_factory
  && gst_element_factory_make env converter
  && gst_element_factory_make env "capsfilter"
  && gst_element_factory_make env "fakesink"
  && (negb (String.eqb src_factory "playbin3") || gst_bin_new env)
  && gst_pipeline_get_bus env.

(** For stating what a successful [CreatePipeline] has asked of the
    engine once the elements exist: the properties set on the sink, the
    converter, the caps filter and the source, in this order. *)
Definition configuration_requests (capsStr : string) (x : GstVideoPlayer) : list event :=
  [g_object_set "videosink" "sync" (GBool true);
   g_object_set "videosink" "qos" (GBool true);
   g_object_set "videosink" "signal-handoffs" (GBool true)]
  ++ (if is_inconsistent_ x then []
      else [g_object_set "videoconvert" "add-borders" (GBool true)])
  ++ [g_object_set "filter" "caps" (GString capsStr)]
  ++ (if is_camera_ x
      then [g_object_set "src" "device" (GString (uri_ x))]
      else [g_object_set "src" "uri" (GString (uri_ x));
            g_object_set "src" "video-sink" (GString "output")]).

(** The caps string of the accelerated path when the URL gives no
    sizes. *)
Definition accelerated_caps (x : GstVideoPlayer) : string :=
  if is_inconsistent_ x
  then "video/x-raw(memory:DMABuf),format=RGBA" +:+ ", pixel-aspect-ratio=" +:+ aspect_ratio_ x
  else "video/x-raw(memory:DMABuf),format=RGBA".

(** The rank requests of the accelerated path: one for each of the
    accelerated elements that has a factory, if there is a registry. *)
Definition rank_requests (env : GstEnv) : list event :=
  if gst_registry_get env
  then map gst_plugin_feature_set_rank
         (List.filter (gst_element_factory_find env) accelerated_elements)
  else [].

End Player.
(** ** Sessions: sequences of calls on one player *)

Module Session.
Import Player.

(** A call made by the host or by the engine, with the engine's answers
    to the requests the call makes. *)
Inductive call :=
| CallHandleGstMessage (message : GstMessageType)
| CallGetCurrentPosition (query : option Z) (seek_ok : bool)
| CallGetDuration (query : option Z)
| CallSetSeek (position : Z) (seek_ok : bool)
| CallSetPlaybackRate (rate : double) (query : option Z) (repeat_seek_ok seek_ok : bool)
| CallSetAutoRepeat (auto_repeat : bool)
| CallSetVolume (volume : double)
| CallPlay (ok : bool)
| CallPause (ok : bool)
| CallStop (ok : bool).

Definition step (x : GstVideoPlayer) (c : call) : GstVideoPlayer :=
  match c with
  | CallHandleGstMessage m => HandleGstMessage m x
  | CallGetCurrentPosition q s => snd (GetCurrentPosition q s x)
  | CallGetDuration _ => x
  | CallSetSeek p s => snd (SetSeek p s x)
  | CallSetPlaybackRate r q s1 s2 => snd (SetPlaybackRate r q s1 s2 x)
  | CallSetAutoRepeat b => SetAutoRepeat b x
  | CallSetVolume v => snd (SetVolume v x)
  | CallPlay ok => snd (Play ok x)
  | CallPause ok => snd (Pause ok x)
  | CallStop ok => snd (Stop ok x)
  end.

Definition run (x : GstVideoPlayer) (cs : list call) : GstVideoPlayer :=
  fold_left step cs x.

Definition is_completion (e : event) : bool :=
  match e with OnNotifyCompleted => true | _ => false end.

Definition is_seek (e : event) : bool :=
  match e with gst_element_seek _ _ _ => true | _ => false end.

(** How often completion was reported, and how many seeks were issued. *)
Definition completions (t : list event) : nat := length (List.filter is_completion t).
Definition seeks (t : list event) : nat := length (List.filter is_seek t).

Definition is_eos (c : call) : bool :=
  match c with CallHandleGstMessage GST_MESSAGE_EOS => true | _ => false end.

(** The end-of-stream notifications of a session. *)
Definition eos_count (cs : list call) : nat := length (List.filter is_eos cs).

(** The end-of-stream notifications that find the completion flag clear
    when they arrive. *)
Fixpoint eos_on_clear_flag (x : GstVideoPlayer) (cs : list call) : nat :=
  match cs with
  | [] => O
  | c :: cs' =>
      ((if is_eos c && negb (is_completed_ x) then 1 else 0)
       + eos_on_clear_flag (step x c) cs')%nat
  end.

(** Deliveries and reads of frames. *)
Inductive frame_op :=
| Deliver (buf : list byte) (width height : Z) (indeterminate : nat -> byte)
| Read.

Definition frame_step (x : GstVideoPlayer) (o : frame_op) : outcome GstVideoPlayer :=
  match o with
  | Deliver buf w h indeterminate => HandoffHandler buf w h indeterminate x
  | Read => r ← GetFrameBuffer x; Returns (snd r)
  end.

Fixpoint frame_run (x : GstVideoPlayer) (os : list frame_op) : outcome GstVideoPlayer :=
  match os with
  | [] => Returns x
  | o :: os' => x' ← frame_step x o; frame_run x' os'
  end.

Definition is_read (o : frame_op) : bool :=
  match o with Read => true | Deliver _ _ _ _ => false end.


(** [pixels_] is an array of [width_ * height_] pixels, as the
    constructor allocates it. *)
Definition pixels_sized (x : GstVideoPlayer) : Prop :=
  exists px, pixels_ x = Some px
             /\ Z.of_nat (length px) = width_ x * height_ x * 4
             /\ width_ x * height_ x * 4 <= StdString.INT_MAX.


(** A read that the scheduler places between the two parts of a
    delivery: after [Handoff_resize], before [Handoff_store]. *)
Definition read_during_delivery (width height : Z) (indeterminate : nat -> byte)
    (x : GstVideoPlayer) : outcome (option (list byte)) :=
  x ← Handoff_resize width height indeterminate x;
  r ← GetFrameBuffer x;
  Returns (fst r).

Definition read_before_delivery (x : GstVideoPlayer) : outcome (option (list byte)) :=
  r ← GetFrameBuffer x; Returns (fst r).

Definition read_after_delivery (buf : list byte) (width height : Z)
    (indeterminate : nat -> byte) (x : GstVideoPlayer) : outcome (option (list byte)) :=
  x ← HandoffHandler buf width height indeterminate x;
  r ← GetFrameBuffer x;
  Returns (fst r).

(** Two facts about the recorded rate that the calls are meant to keep:
    mute is what the rate makes it, and the rate is not one that
    [SetPlaybackRate] refuses. *)
Definition mute_derived (x : GstVideoPlayer) : Prop :=
  mute_ x = SFltb (playback_rate_ x) d_half || SFltb d_two (playback_rate_ x).

Definition rate_accepted (x : GstVideoPlayer) : Prop :=
  SFleb (playback_rate_ x) d_zero = false.

Definition is_frame_decoded (e : event) : bool :=
  match e with OnNotifyFrameDecoded => true | _ => false end.

(** How often a decoded frame was announced, and how many deliveries a
    run of frame operations holds. *)
Definition frames_decoded (t : list event) : nat := length (List.filter is_frame_decoded t).
Definition deliveries (os : list frame_op) : nat :=
  length (List.filter (fun o => negb (is_read o)) os).

Definition is_rank (e : event) : bool :=
  match e with gst_plugin_feature_set_rank _ => true | _ => false end.

Definition is_initialized (e : event) : bool :=
  match e with OnNotifyInitialized => true | _ => false end.

(** The members the controller calls and the bus observer write. *)
Definition controls (x : GstVideoPlayer) : double * double * bool * bool * bool :=
  (volume_ x, playback_rate_ x, mute_ x, auto_repeat_ x, is_completed_ x).

(** The members that belong to the source and to the frame sink. *)
Definition source_and_frame (x : GstVideoPlayer) :=
  (gst_ x, uri_ x, aspect_ratio_ x, pixels_ x, width_ x, height_ x,
   is_stream_ x, is_camera_ x, is_inconsistent_ x).

End Session.

(** ** Sample environments and players *)

Module Samples.
Import Player.

(** Bytes left in storage by an earlier use. *)
Definition stale (i : nat) : byte := if Nat.even i then Byte.xde else Byte.xad.

(** An engine that takes for a URI whatever starts with a letter, goes on
    with letters, digits, [+], [-] or [.], and then has a colon. *)
Fixpoint scheme_then_colon (s : string) (seen : nat) : bool :=
  match s with
  | EmptyString => false
  | String c s' =>
      let n := Regex.code c in
      if Ascii.eqb c ":" then (2 <=? seen)%nat
      else if ((65 <=? n) && (n <=? 90)) || ((97 <=? n) && (n <=? 122)) then
        scheme_then_colon s' (S seen)
      else if (0 <? seen)%nat
              && (((48 <=? n) && (n <=? 57)) || (n =? 43) || (n =? 45) || (n =? 46)) then
        scheme_then_colon s' (S seen)
      else false
  end.

Definition video_stream (w h : Z) : AVStream := {|
  codec_is_video := true;
  decoder_found := true;
  codec_context_allocated := true;
  parameters_copied := true;
  codec_opened := true;
  packet_allocated := true;
  packets_accepted := [false; true];
  coded_width := w;
  coded_height := h
|}.

Definition audio_stream : AVStream := {|
  codec_is_video := false;
  decoder_found := true;
  codec_context_allocated := true;
  parameters_copied := true;
  codec_opened := true;
  packet_allocated := true;
  packets_accepted := [true];
  coded_width := 0;
  coded_height := 0
|}.

Definition container (ss : list AVStream) : AVInput := {|
  format_context_allocated := true;
  input_opened := true;
  stream_info_found := true;
  streams := ss
|}.

(** An engine with the accelerated elements, where every creation
    succeeds. *)
Definition accelerated : GstEnv := {|
  gst_element_factory_find := fun _ => true;
  gst_registry_get := true;
  gst_pipeline_new := true;
  gst_element_factory_make := fun _ => true;
  gst_bin_new := true;
  gst_pipeline_get_bus := true
|}.

(** A machine whose files hold an audio stream and a video stream of the
    coded size [w] x [h], and whose sink negotiates 2 x 1 pixels. *)
Definition machine (w h : Z) : Environment := {|
  gst_uri_is_valid := fun s => scheme_then_colon s O;
  gst_filename_to_uri := fun s => Some ("file://" +:+ s);
  av_input := fun _ => container [audio_stream; video_stream w h];
  gst_env := accelerated;
  negotiated_caps := Some (Some 2, Some 1);
  indeterminate_bytes := stale
|}.

Definition built (o : outcome GstVideoPlayer) : GstVideoPlayer :=
  match o with
  | Returns x => x
  | _ => initial 0 0
  end.

Definition local_file_player : GstVideoPlayer :=
  Eval vm_compute in built (construct (machine 1920 1080) "/home/user/clip.mp4" 0 0).

Definition stream_player : GstVideoPlayer :=
  Eval vm_compute in built (construct (machine 1920 1080) "rtsp://host/live?w=1000&h=3000&o=l" 0 0).

Definition camera_player : GstVideoPlayer :=
  Eval vm_compute in built (construct (machine 1920 1080) "/dev/video0" 0 0).

(** A stream address with a line feed after the host. *)
Definition broken_stream_uri : string :=
  "rtsp://host" +:+ String "010"%char "live".

(** The members of a stream player when [CreatePipeline] starts. *)
Definition stream_before_pipeline : GstVideoPlayer :=
  set_is_stream_ true (set_uri_ "rtsp://host/live?w=1000&h=3000&o=l" (initial 0 0)).

Definition d_quarter : double := S754_finite false (2 ^ 52) (-54).
Definition d_three : double := S754_finite false (3 * 2 ^ 51) (-51).
Definition d_minus_one : double := S754_finite true (2 ^ 52) (-52).

(** A 2 x 1 frame and a 2 x 2 frame of RGBA pixels. *)
Definition frame_2x1 : list byte :=
  [Byte.x11; Byte.x12; Byte.x13; Byte.x14; Byte.x15; Byte.x16; Byte.x17; Byte.x18].

Definition frame_2x2 : list byte :=
  [Byte.x21; Byte.x22; Byte.x23; Byte.x24; Byte.x25; Byte.x26; Byte.x27; Byte.x28;
   Byte.x29; Byte.x2a; Byte.x2b; Byte.x2c; Byte.x2d; Byte.x2e; Byte.x2f; Byte.x30].

(** The local-file player once it holds the 2 x 1 frame. *)
Definition playing_player : GstVideoPlayer :=
  Eval vm_compute in built (HandoffHandler frame_2x1 2 1 stale local_file_player).

(** A video stream none of whose packets the decoder accepts, and a
    machine whose files hold it. *)
Definition stuck_stream : AVStream := {|
  codec_is_video := true;
  decoder_found := true;
  codec_context_allocated := true;
  parameters_copied := true;
  codec_opened := true;
  packet_allocated := true;
  packets_accepted := [false; false; false];
  coded_width := 1920;
  coded_height := 1080
|}.

Definition stuck_machine : Environment :=
  with_av_input (fun _ => container [audio_stream; stuck_stream]) (machine 1920 1080).

(** A video stream whose codec has no decoder. *)
Definition undecodable_stream : AVStream := {|
  codec_is_video := true;
  decoder_found := false;
  codec_context_allocated := true;
  parameters_copied := true;
  codec_opened := true;
  packet_allocated := true;
  packets_accepted := [true];
  coded_width := 1000;
  coded_height := 2000
|}.

(** Stream players at the start of [CreatePipeline] whose URL has one
    parameter only, an orientation and nothing else, and a width that is
    no number. *)
Definition one_parameter_stream : GstVideoPlayer :=
  set_is_stream_ true (set_uri_ "rtsp://host/live?w=1000" (initial 640 480)).

Definition orientation_only_stream : GstVideoPlayer :=
  set_is_stream_ true (set_uri_ "rtsp://host/live?o=p&x=1" (initial 640 480)).

Definition unreadable_width_stream : GstVideoPlayer :=
  set_is_stream_ true (set_uri_ "rtsp://host/live?w=wide&h=1080" (initial 640 480)).

(** A stream player at the start of [CreatePipeline] whose URL asks for
    3840 x 2160 pixels. *)
Definition uhd_stream : GstVideoPlayer :=
  set_is_stream_ true (set_uri_ "rtsp://host/live?w=3840&h=2160&o=l" (initial 640 480)).

Definition plain_stream : GstVideoPlayer :=
  set_is_stream_ true (set_uri_ "rtsp://host/live" (initial 640 480)).

(** An engine without the accelerated elements. *)
Definition generic : GstEnv := {|
  gst_element_factory_find := fun _ => false;
  gst_registry_get := true;
  gst_pipeline_new := true;
  gst_element_factory_make := fun _ => true;
  gst_bin_new := true;
  gst_pipeline_get_bus := true
|}.

(** An engine that has the accelerated post-processing element and none
    of the accelerated decoders. *)
Definition postproc_only : GstEnv := {|
  gst_element_factory_find := fun e => String.eqb e "vapostproc";
  gst_registry_get := true;
  gst_pipeline_new := true;
  gst_element_factory_make := fun _ => true;
  gst_bin_new := true;
  gst_pipeline_get_bus := true
|}.

(** An accelerated engine that cannot create the fake sink. *)
Definition sinkless : GstEnv := {|
  gst_element_factory_find := fun _ => true;
  gst_registry_get := true;
  gst_pipeline_new := true;
  gst_element_factory_make := fun f => negb (String.eqb f "fakesink");
  gst_bin_new := true;
  gst_pipeline_get_bus := true
|}.

Definition sinkless_machine : Environment := {|
  gst_uri_is_valid := fun s => scheme_then_colon s O;
  gst_filename_to_uri := fun s => Some ("file://" +:+ s);
  av_input := fun _ => container [audio_stream; video_stream 1920 1080];
  gst_env := sinkless;
  negotiated_caps := Some (Some 2, Some 1);
  indeterminate_bytes := stale
|}.

(** What the constructor leaves on that machine for a local file. *)
Definition unbuilt_player : GstVideoPlayer :=
  Eval vm_compute in built (construct sinkless_machine "/home/user/clip.mp4" 0 0).

(** A machine whose sink negotiates nothing. *)
Definition capless_machine : Environment := {|
  gst_uri_is_valid := fun s => scheme_then_colon s O;
  gst_filename_to_uri := fun s => Some ("file://" +:+ s);
  av_input := fun _ => container [audio_stream; video_stream 1920 1080];
  gst_env := accelerated;
  negotiated_caps := None;
  indeterminate_bytes := stale
|}.

End Samples.

(** * Properties *)

(** ** ResolutionCatalog *)

Section CatalogFacts.
Import Catalog.

(** The binary search on an ascending vector: within the searched range
    it finds the point left of which all values are below [val] and from
    which on none is. *)
Lemma lower_bound_loop_partition (v : list Z) (val : Z) :
  (forall i j, (i <= j < length v)%nat -> nth i v 0 <= nth j v 0) ->
  forall (fuel first len : nat),
    (len <= fuel)%nat ->
    (first + len <= length v)%nat ->
    (forall i, (i < first)%nat -> nth i v 0 < val) ->
    (forall i, (first + len <= i < length v)%nat -> val <= nth i v 0) ->
    let r := lower_bound_loop fuel v first len val in
    (first <= r <= first + len)%nat
    /\ (forall i, (i < r)%nat -> nth i v 0 < val)
    /\ (forall i, (r <= i < length v)%nat -> val <= nth i v 0).
Proof.
  intros Hsorted. induction fuel as [| fuel IH]; intros first len Hfuel Hfit Hbelow Habove.
  - assert (len = 0)%nat by lia. subst len. simpl.
    split; [lia |]. split; [exact Hbelow |]. intros i Hi. apply Habove. lia.
  - destruct len as [| n].
    + simpl. split; [lia |]. split; [exact Hbelow |]. intros i Hi. apply Habove. lia.
    + cbn [lower_bound_loop].
      pose proof (Nat.lt_div2 (S n) ltac:(lia)) as Hhalf.
      set (half := Nat.div2 (S n)) in *.
      destruct (Z.ltb_spec (nth (first + half) v 0) val) as [Hlt | Hge].
      * destruct (IH (S (first + half)) (S n - half - 1)%nat) as (Hr & Hl & Hu);
          [lia | lia | | | ].
        -- intros i Hi. specialize (Hsorted i (first + half)%nat ltac:(lia)). lia.
        -- intros i Hi. apply Habove. lia.
        -- split; [lia |]. split; assumption.
      * destruct (IH first half) as (Hr & Hl & Hu); [lia | lia | exact Hbelow | | ].
        -- intros i Hi. specialize (Hsorted (first + half)%nat i ltac:(lia)). lia.
        -- split; [lia |]. split; assumption.
Qed.

(** [std::lower_bound] on an ascending vector returns the position of
    the first value that is not below [val], or the size of the vector. *)
Lemma lower_bound_first_not_less (v : list Z) (val : Z) :
  (forall i j, (i <= j < length v)%nat -> nth i v 0 <= nth j v 0) ->
  (lower_bound v val <= length v)%nat
  /\ (forall i, (i < lower_bound v val)%nat -> nth i v 0 < val)
  /\ (forall i, (lower_bound v val <= i < length v)%nat -> val <= nth i v 0).
Proof.
  intros Hsorted.
  destruct (lower_bound_loop_partition v val Hsorted (length v) 0 (length v))
    as (Hr & Hl & Hu); try lia.
  unfold lower_bound. split; [lia |]. split; assumption.
Qed.

(** The binary search over the four catalog values, case by case. *)
Lemma NormalizeResolutionValue_cases (v : Z) :
  NormalizeResolutionValue v =
    if v <=? 1080 then Returns 1080
    else if v <=? 1920 then Returns 1920
    else if v <=? 2160 then Returns 2160
    else if v <=? 3480 then Returns 3480
    else Undefined.
Proof.
  unfold NormalizeResolutionValue, lower_bound, resolution_values_; cbn.
  repeat case Z.ltb_spec; repeat case Z.leb_spec; intros; try lia; reflexivity.
Qed.

(** Beyond the last catalog value the iterator is [end()]. *)
Lemma NormalizeResolutionValue_beyond (v : Z) :
  3480 < v -> NormalizeResolutionValue v = Undefined.
Proof.
  intros Hv. rewrite NormalizeResolutionValue_cases.
  repeat case Z.leb_spec; intros; try lia; reflexivity.
Qed.

(** C3: for every value not above 3480, [NormalizeResolutionValue]
    returns the smallest catalog value that is not below it; and 1000,
    1920 and 2000 are mapped to 1080, 1920 and 2160. *)
Theorem normalize_smallest_not_less :
  (forall v : Z, v <= 3480 ->
     exists r, NormalizeResolutionValue v = Returns r
               /\ In r resolution_values_
               /\ v <= r
               /\ forall c, In c resolution_values_ -> v <= c -> r <= c)
  /\ NormalizeResolutionValue 1000 = Returns 1080
  /\ NormalizeResolutionValue 1920 = Returns 1920
  /\ NormalizeResolutionValue 2000 = Returns 2160.
Proof.
  split; [| repeat split; reflexivity].
  intros v Hv. rewrite NormalizeResolutionValue_cases.
  unfold resolution_values_.
  repeat case Z.leb_spec; intros; try lia;
    eexists; (split; [reflexivity |]); simpl;
    (split; [tauto |]); (split; [lia |]);
    intros c Hc; intuition lia.
Qed.

Lemma normalize_smallest_not_less_witness :
  exists r, NormalizeResolutionValue 3000 = Returns r
            /\ In r resolution_values_
            /\ 3000 <= r
            /\ forall c, In c resolution_values_ -> 3000 <= c -> r <= c.
Proof. apply (proj1 normalize_smallest_not_less 3000). lia. Defined.

End CatalogFacts.

(** ** PlaybackController *)

Section PlaybackFacts.
Import Player Session Classifier.

Lemma source_kind_LocalFile (x : GstVideoPlayer) :
  source_kind x = LocalFile <-> is_stream_ x = false /\ is_camera_ x = false.
Proof.
  unfold source_kind. destruct (is_camera_ x), (is_stream_ x); intuition congruence.
Qed.

Lemma source_kind_not_LocalFile (x : GstVideoPlayer) :
  source_kind x <> LocalFile <-> is_stream_ x || is_camera_ x = true.
Proof.
  unfold source_kind. destruct (is_camera_ x), (is_stream_ x); simpl; intuition congruence.
Qed.

(** C4: [SetPlaybackRate] returns [false] and leaves the player as it is
    (rate, mute and everything else) for a camera or a network stream,
    whatever the rate, and for a local file when [rate <= 0]; and when it
    returns [true] it has recorded the rate and set mute to
    [rate < 0.5 || rate > 2]. *)
Theorem SetPlaybackRate_refusals_and_mute :
  (forall x rate query repeat_seek_ok seek_ok,
     source_kind x = Camera \/ source_kind x = NetworkStream ->
     SetPlaybackRate rate query repeat_seek_ok seek_ok x = (false, x))
  /\ (forall x rate query repeat_seek_ok seek_ok,
        source_kind x = LocalFile ->
        SFleb rate d_zero = true ->
        SetPlaybackRate rate query repeat_seek_ok seek_ok x = (false, x))
  /\ (forall x rate query repeat_seek_ok seek_ok x',
        SetPlaybackRate rate query repeat_seek_ok seek_ok x = (true, x') ->
        playback_rate_ x' = rate
        /\ (mute_ x' = true <-> SFltb rate d_half = true \/ SFltb d_two rate = true)
        /\ exists t, trace x' = t ++ [g_object_set "src" "mute" (GBool (mute_ x'))]).
Proof.
  split; [| split].
  - intros x rate query r s Hk.
    assert (Hs : is_stream_ x || is_camera_ x = true).
    { apply source_kind_not_LocalFile. destruct Hk as [-> | ->]; discriminate. }
    unfold SetPlaybackRate. now rewrite Hs.
  - intros x rate query r s Hk Hle.
    apply source_kind_LocalFile in Hk as [Hs Hc].
    unfold SetPlaybackRate. rewrite Hs, Hc; simpl.
    destruct (video_src (gst_ x)); [now rewrite Hle | reflexivity].
  - intros x rate query r s x'. unfold SetPlaybackRate.
    destruct (is_stream_ x || is_camera_ x); [discriminate |].
    destruct (video_src (gst_ x)); [| discriminate].
    destruct (SFleb rate d_zero); [discriminate |].
    destruct (GetCurrentPosition query r x) as [position x1].
    destruct (position <? 0); [discriminate |].
    destruct s; simpl; [| discriminate].
    intros [= <-]; simpl. split; [reflexivity |]. split.
    + rewrite orb_true_iff. reflexivity.
    + eexists. reflexivity.
Qed.

Lemma SetPlaybackRate_refusals_and_mute_witness :
  SetPlaybackRate Samples.d_three None true true Samples.stream_player
    = (false, Samples.stream_player)
  /\ SetPlaybackRate Samples.d_minus_one (Some 0) true true Samples.local_file_player
     = (false, Samples.local_file_player)
  /\ mute_ (snd (SetPlaybackRate Samples.d_three (Some 5000000) true true
                   Samples.local_file_player)) = true.
Proof.
  destruct SetPlaybackRate_refusals_and_mute as (Hkind & Hrate & Hmute).
  split; [| split].
  - apply Hkind. right. reflexivity.
  - apply Hrate; reflexivity.
  - destruct (Hmute Samples.local_file_player Samples.d_three (Some 5000000) true true
                _ eq_refl) as (_ & Hm & _).
    apply Hm. right. reflexivity.
Defined.

(** C8: [GetDuration] is 0 for a camera or a network stream; for a local
    file whose duration query fails it is -1, a negative value other than
    0.  The function is total: it returns in every case. *)
Theorem GetDuration_sentinels :
  (forall x query,
     source_kind x = Camera \/ source_kind x = NetworkStream ->
     GetDuration query x = 0)
  /\ (forall x,
        source_kind x = LocalFile ->
        GetDuration None x = -1 /\ GetDuration None x < 0 /\ GetDuration None x <> 0)
  /\ (forall x duration_ns,
        source_kind x = LocalFile ->
        GetDuration (Some duration_ns) x = Z.quot duration_ns GST_MSECOND).
Proof.
  split; [| split].
  - intros x query Hk.
    assert (Hs : is_stream_ x || is_camera_ x = true).
    { apply source_kind_not_LocalFile. destruct Hk as [-> | ->]; discriminate. }
    unfold GetDuration. now rewrite Hs.
  - intros x Hk. apply source_kind_LocalFile in Hk as [Hs Hc].
    unfold GetDuration. rewrite Hs, Hc; simpl. lia.
  - intros x d Hk. apply source_kind_LocalFile in Hk as [Hs Hc].
    unfold GetDuration. now rewrite Hs, Hc.
Qed.

Lemma GetDuration_sentinels_witness :
  GetDuration (Some 7000000000) Samples.camera_player = 0
  /\ GetDuration None Samples.local_file_player = -1
  /\ GetDuration (Some 7000000000) Samples.local_file_player = 7000.
Proof.
  destruct GetDuration_sentinels as (Hkind & Hfail & Hok).
  split; [| split].
  - apply Hkind. left. reflexivity.
  - apply Hfail. reflexivity.
  - apply (Hok Samples.local_file_player 7000000000). reflexivity.
Defined.

End PlaybackFacts.

(** ** CompletionMonitor *)

Section CompletionFacts.
Import Player Session Classifier.

Lemma completions_snoc (t : list event) (e : event) :
  completions (t ++ [e]) = (completions t + (if is_completion e then 1 else 0))%nat.
Proof.
  unfold completions. rewrite List.filter_app, length_app; simpl.
  destruct (is_completion e); reflexivity.
Qed.

Lemma seeks_snoc (t : list event) (e : event) :
  seeks (t ++ [e]) = (seeks t + (if is_seek e then 1 else 0))%nat.
Proof.
  unfold seeks. rewrite List.filter_app, length_app; simpl.
  destruct (is_seek e); reflexivity.
Qed.

(** Counting the events a call has appended. *)
Ltac count_events :=
  rewrite ?completions_snoc, ?seeks_snoc; simpl; rewrite ?Nat.add_0_r.

(** Case analysis on the tests a call makes. *)
Ltac branches :=
  repeat (simpl;
          match goal with
          | |- context [if ?b then _ else _] => destruct b eqn:?
          | |- context [match ?o with Some _ => _ | None => _ end] => destruct o eqn:?
          end);
  simpl.

(** No call changes what kind of source the player has. *)
Lemma step_flags (x : GstVideoPlayer) (c : call) :
  is_stream_ (step x c) = is_stream_ x /\ is_camera_ (step x c) = is_camera_ x.
Proof.
  destruct c as [[] | | | | | | | | |]; simpl; try (split; reflexivity);
    unfold GetCurrentPosition, SetSeek, SetPlaybackRate, GetCurrentPosition,
      drain_completed, SetSeek, SetVolume;
    branches; split; reflexivity.
Qed.

Lemma GetCurrentPosition_remote (x : GstVideoPlayer) (query : option Z) (seek_ok : bool) :
  is_stream_ x || is_camera_ x = true ->
  GetCurrentPosition query seek_ok x = (0, x).
Proof. intros H. unfold GetCurrentPosition. now rewrite H. Qed.

(** On a camera or a stream a call reports no completion, issues no seek,
    and clears no completion flag. *)
Lemma step_remote (x : GstVideoPlayer) (c : call) :
  is_stream_ x || is_camera_ x = true ->
  completions (trace (step x c)) = completions (trace x)
  /\ seeks (trace (step x c)) = seeks (trace x)
  /\ is_completed_ (step x c) = is_completed_ x || is_eos c.
Proof.
  intros H.
  destruct c as [[] | | | | | | | | |]; simpl;
    unfold GetCurrentPosition, SetSeek, SetPlaybackRate, SetVolume;
    rewrite ?H; simpl;
    rewrite ?orb_true_r, ?orb_false_r;
    try (repeat split; reflexivity).
  - destruct (video_src (gst_ x)); simpl; count_events; repeat split; reflexivity.
  - count_events; repeat split; reflexivity.
  - count_events; repeat split; reflexivity.
  - count_events; repeat split; reflexivity.
Qed.

Lemma run_remote (cs : list call) : forall x : GstVideoPlayer,
  is_stream_ x || is_camera_ x = true ->
  is_stream_ (run x cs) || is_camera_ (run x cs) = true
  /\ completions (trace (run x cs)) = completions (trace x)
  /\ seeks (trace (run x cs)) = seeks (trace x)
  /\ is_completed_ (run x cs) = is_completed_ x || existsb is_eos cs.
Proof.
  induction cs as [| c cs IH]; intros x H; simpl.
  - rewrite orb_false_r. auto.
  - destruct (step_flags x c) as [Hs Hc].
    destruct (step_remote x c H) as (Hn & Hk & Hf).
    assert (H' : is_stream_ (step x c) || is_camera_ (step x c) = true)
      by now rewrite Hs, Hc.
    destruct (IH _ H') as (I1 & I2 & I3 & I4).
    unfold run in *; simpl.
    rewrite I2, I3, I4, Hn, Hk, Hf, orb_assoc. auto.
Qed.

(** C10: on a camera or a network stream [GetCurrentPosition] returns 0
    and leaves the player untouched, so whatever calls and end-of-stream
    messages a session is made of, no completion is reported, no seek is
    issued, and a completion flag once set stays set. *)
Theorem remote_position_never_drains (x : GstVideoPlayer)
    (Hkind : source_kind x = Camera \/ source_kind x = NetworkStream) :
  (forall query seek_ok, GetCurrentPosition query seek_ok x = (0, x))
  /\ forall cs : list call,
       completions (trace (run x cs)) = completions (trace x)
       /\ seeks (trace (run x cs)) = seeks (trace x)
       /\ is_completed_ (run x cs) = is_completed_ x || existsb is_eos cs
       /\ forall query seek_ok,
            GetCurrentPosition query seek_ok (run x cs) = (0, run x cs).
Proof.
  assert (H : is_stream_ x || is_camera_ x = true).
  { apply source_kind_not_LocalFile. destruct Hkind as [-> | ->]; discriminate. }
  split.
  - intros. now apply GetCurrentPosition_remote.
  - intros cs. destruct (run_remote cs x H) as (H1 & H2 & H3 & H4).
    repeat split; auto. intros. now apply GetCurrentPosition_remote.
Qed.

Lemma remote_position_never_drains_witness :
  let cs := [CallHandleGstMessage GST_MESSAGE_EOS;
             CallGetCurrentPosition (Some 5000000) true;
             CallSetAutoRepeat true;
             CallHandleGstMessage GST_MESSAGE_EOS;
             CallGetCurrentPosition (Some 9000000) true] in
  completions (trace (run Samples.stream_player cs)) = completions (trace Samples.stream_player)
  /\ is_completed_ (run Samples.stream_player cs) = true.
Proof.
  intros cs.
  destruct (remote_position_never_drains Samples.stream_player (or_intror eq_refl))
    as [_ H].
  destruct (H cs) as (H1 & _ & H3 & _).
  split; [exact H1 | exact H3].
Defined.

(** A drain moves a set flag into one reported completion. *)
Lemma drain_completed_conserves (x : GstVideoPlayer) (seek_ok : bool) :
  (completions (trace (drain_completed seek_ok x))
   + (if is_completed_ (drain_completed seek_ok x) then 1 else 0))%nat
  = (completions (trace x) + (if is_completed_ x then 1 else 0))%nat.
Proof.
  unfold drain_completed, SetSeek.
  destruct (is_completed_ x) eqn:E; simpl; [| now rewrite E].
  destruct (auto_repeat_ x); simpl; [destruct (is_stream_ x || is_camera_ x); simpl |];
    try destruct seek_ok; simpl; count_events; lia.
Qed.

Lemma GetCurrentPosition_conserves (x : GstVideoPlayer) (query : option Z) (seek_ok : bool) :
  let x' := snd (GetCurrentPosition query seek_ok x) in
  (completions (trace x') + (if is_completed_ x' then 1 else 0))%nat
  = (completions (trace x) + (if is_completed_ x then 1 else 0))%nat.
Proof.
  unfold GetCurrentPosition.
  destruct (is_stream_ x || is_camera_ x); simpl; [reflexivity |].
  destruct query; simpl; [apply drain_completed_conserves | reflexivity].
Qed.

(** One call: what is reported plus what is pending grows exactly when an
    end-of-stream message finds the flag clear. *)
Lemma step_conserves (x : GstVideoPlayer) (c : call) :
  (completions (trace (step x c)) + (if is_completed_ (step x c) then 1 else 0))%nat
  = (completions (trace x) + (if is_completed_ x then 1 else 0)
     + (if is_eos c && negb (is_completed_ x) then 1 else 0))%nat.
Proof.
  destruct c as [[] | | | | | | | | |]; simpl;
    try (destruct (is_completed_ x); simpl; lia).
  - pose proof (GetCurrentPosition_conserves x query seek_ok) as H; simpl in H. lia.
  - unfold SetSeek. branches; count_events; lia.
  - unfold SetPlaybackRate.
    destruct (is_stream_ x || is_camera_ x); simpl; [lia |].
    destruct (video_src (gst_ x)); simpl; [| lia].
    destruct (SFleb rate d_zero); simpl; [lia |].
    pose proof (GetCurrentPosition_conserves x query repeat_seek_ok) as H; simpl in H.
    destruct (GetCurrentPosition query repeat_seek_ok x) as [position x1]; simpl in *.
    destruct (position <? 0); simpl; [lia |].
    destruct seek_ok; simpl; count_events; lia.
  - unfold SetVolume. branches; count_events; lia.
  - count_events; destruct (is_completed_ x); lia.
  - count_events; destruct (is_completed_ x); lia.
  - count_events; destruct (is_completed_ x); lia.
Qed.

Lemma run_conserves (cs : list call) : forall x : GstVideoPlayer,
  (completions (trace (run x cs)) + (if is_completed_ (run x cs) then 1 else 0))%nat
  = (completions (trace x) + (if is_completed_ x then 1 else 0)
     + eos_on_clear_flag x cs)%nat.
Proof.
  induction cs as [| c cs IH]; intros x; simpl; [lia |].
  unfold run in *; simpl. rewrite IH, step_conserves. lia.
Qed.

(** C5 (amended): an end-of-stream message sets the completion flag and
    does nothing else; a successful position query on a local file that
    finds the flag set clears it and reports completion once, with one
    seek to position 0 when auto-repeat is on and none otherwise; one that
    finds the flag clear reports nothing; and over any session the
    completions reported, plus one if the flag is still set, are as many
    as the end-of-stream messages that arrived while the flag was clear. *)
Theorem completion_reported_once_per_flag_setting :
  (forall x, HandleGstMessage GST_MESSAGE_EOS x = set_is_completed_ true x)
  /\ (forall x position seek_ok,
        source_kind x = LocalFile ->
        is_completed_ x = true ->
        exists x',
          GetCurrentPosition (Some position) seek_ok x = (Z.quot position GST_MSECOND, x')
          /\ is_completed_ x' = false
          /\ trace x' = trace x ++ OnNotifyCompleted ::
               (if auto_repeat_ x
                then [gst_element_seek (playback_rate_ x) GST_SEEK_FLAG_FLUSH_KEY_UNIT 0]
                else []))
  /\ (forall x position seek_ok,
        source_kind x = LocalFile ->
        is_completed_ x = false ->
        GetCurrentPosition (Some position) seek_ok x = (Z.quot position GST_MSECOND, x))
  /\ (forall x cs,
        (completions (trace (run x cs)) + (if is_completed_ (run x cs) then 1 else 0))%nat
        = (completions (trace x) + (if is_completed_ x then 1 else 0)
           + eos_on_clear_flag x cs)%nat).
Proof.
  split; [reflexivity |]. split; [| split].
  - intros x position seek_ok Hk Hset.
    apply source_kind_LocalFile in Hk as [Hs Hc].
    unfold GetCurrentPosition, drain_completed, SetSeek. rewrite Hs, Hc, Hset; simpl.
    destruct (auto_repeat_ x); simpl.
    + rewrite Hs, Hc; simpl. eexists; split; [reflexivity |].
      destruct seek_ok; simpl; rewrite <- app_assoc; auto.
    + eexists; split; [reflexivity |]. auto.
  - intros x position seek_ok Hk Hclear.
    apply source_kind_LocalFile in Hk as [Hs Hc].
    unfold GetCurrentPosition, drain_completed. now rewrite Hs, Hc, Hclear.
  - intros x cs. apply run_conserves.
Qed.

Lemma completion_reported_once_per_flag_setting_witness :
  let x := HandleGstMessage GST_MESSAGE_EOS (SetAutoRepeat true Samples.local_file_player) in
  exists x',
    GetCurrentPosition (Some 5000000) true x = (5, x')
    /\ is_completed_ x' = false
    /\ trace x' = trace x ++ [OnNotifyCompleted;
                              gst_element_seek d_one GST_SEEK_FLAG_FLUSH_KEY_UNIT 0].
Proof.
  intros x.
  destruct completion_reported_once_per_flag_setting as (_ & Hset & _).
  exact (Hset x 5000000 true eq_refl eq_refl).
Defined.

(** C5 as stated fails: two end-of-stream messages that arrive before the
    next position query are reported by one completion, not two. *)
Lemma completion_not_once_per_notification :
  let cs := [CallHandleGstMessage GST_MESSAGE_EOS;
             CallHandleGstMessage GST_MESSAGE_EOS;
             CallGetCurrentPosition (Some 5000000) true;
             CallGetCurrentPosition (Some 6000000) true] in
  completions (trace Samples.local_file_player) = 0%nat
  /\ eos_count cs = 2%nat
  /\ completions (trace (run Samples.local_file_player cs)) = 1%nat
  /\ completions (trace (run Samples.local_file_player cs)) <> eos_count cs.
Proof. vm_compute. repeat split; congruence. Qed.

End CompletionFacts.

(** ** PreflightProbe *)

Section ProbeFacts.
Import Player Classifier.

(** What the comparison does with a coded size of which one dimension is
    not a catalog value. *)
Lemma check_coded_size_absent (s : AVStream) (x : GstVideoPlayer) :
  Catalog.find_in Catalog.resolution_values_ (coded_width s) = false
  \/ Catalog.find_in Catalog.resolution_values_ (coded_height s) = false ->
  is_inconsistent_ (check_coded_size s x) = true
  /\ aspect_ratio_ (check_coded_size s x)
     = (if coded_height s >? coded_width s then "16/9" else "9/16").
Proof.
  intros H. unfold check_coded_size.
  assert (E : negb (Catalog.find_in Catalog.resolution_values_ (coded_width s))
              || negb (Catalog.find_in Catalog.resolution_values_ (coded_height s)) = true).
  { destruct H as [-> | ->]; simpl; [reflexivity | apply orb_true_r]. }
  rewrite E. destruct (coded_height s >? coded_width s); split; reflexivity.
Qed.

(** The probe leaves a player alone when both coded dimensions are
    catalog values. *)
Lemma check_coded_size_present (s : AVStream) (x : GstVideoPlayer) :
  Catalog.find_in Catalog.resolution_values_ (coded_width s) = true ->
  Catalog.find_in Catalog.resolution_values_ (coded_height s) = true ->
  check_coded_size s x = x.
Proof. intros Hw Hh. unfold check_coded_size. now rewrite Hw, Hh. Qed.

(** C1, evaluated: for a file whose first video stream has the coded size
    1088 x 1920 (taller than wide, 1088 not a catalog value) the probe
    marks the source inconsistent and sets the aspect hint 16/9, and for
    1920 x 1088 it sets 9/16: the two hints are the other way round from
    what C1 states, and from what [SetStreamDataFromUrl] and
    [CorrectAspectRatio] call landscape and portrait. *)
Theorem CheckInconsistency_hint_swapped :
  (exists x,
     CheckInconsistency (Samples.container [Samples.audio_stream; Samples.video_stream 1088 1920])
       (initial 0 0) = Returns x
     /\ is_inconsistent_ x = true /\ aspect_ratio_ x = "16/9")
  /\ (exists x,
        CheckInconsistency (Samples.container [Samples.video_stream 1920 1088])
          (initial 0 0) = Returns x
        /\ is_inconsistent_ x = true /\ aspect_ratio_ x = "9/16").
Proof. split; eexists; (split; [reflexivity |]); split; reflexivity. Qed.

End ProbeFacts.

(** ** FrameSink *)

Section FrameFacts.
Import Player Session.

Lemma bind_Returns {A B : Type} (m : outcome A) (k : A -> outcome B) (b : B) :
  mbind k m = Returns b -> exists a, m = Returns a /\ k a = Returns b.
Proof. destruct m; simpl; try discriminate. eauto. Qed.













(** A player whose pipeline was built comes out of the constructor with
    [pixels_] of the size of its dimensions. *)
Lemma construct_pixels_sized (env : Environment) (uri : string) (width0 height0 : Z)
    (x : GstVideoPlayer) :
  construct env uri width0 height0 = Returns x ->
  pipeline (gst_ x) = true ->
  width_ x * height_ x * 4 <= StdString.INT_MAX ->
  pixels_sized x.
Proof.
  unfold construct. intros H Hpipe Hmax.
  apply bind_Returns in H as (x1 & _ & H).
  apply bind_Returns in H as ([created x2] & _ & H).
  destruct created; simpl in H.
  - apply bind_Returns in H as (px & Hpx & H). injection H as <-.
    simpl in Hmax. exists px. simpl. split; [reflexivity |]. split; [| exact Hmax].
    revert Hpx. unfold new_pixels.
    destruct (_ || _); [discriminate |].
    destruct (Z.ltb_spec (width_ (GetVideoSize (negotiated_caps env) (Preroll x2))
                          * height_ (GetVideoSize (negotiated_caps env) (Preroll x2))) 0);
      [discriminate |].
    intros [= <-]. rewrite length_map, length_seq. lia.
  - injection H as <-. revert Hpipe. unfold DestroyPipeline.
    destruct (video_sink (gst_ x2)); simpl; destruct (pipeline (gst_ x2)); discriminate.
Qed.



(** C9, evaluated: the player holds a 2 x 1 frame and a 2 x 2 frame is
    delivered.  A read scheduled after the delivery has updated
    [width_], [height_] and [pixels_] (done without the lock) and before
    it has stored the new frame (done under the lock) returns 16 bytes,
    of which 8 are the old frame and 8 belong to no frame (they are the
    indeterminate bytes of the new array, whatever these are): neither
    what a read before the delivery returns nor what a read after it
    returns. *)
Theorem read_during_delivery_torn :
  forall indeterminate : nat -> byte,
  let x := Samples.playing_player in
  let old := Samples.frame_2x1 in
  let new := Samples.frame_2x2 in
  read_before_delivery x = Returns (Some old)
  /\ read_after_delivery new 2 2 indeterminate x = Returns (Some new)
  /\ read_during_delivery 2 2 indeterminate x
     = Returns (Some (old ++ map indeterminate (seq 8 8)))
  /\ read_during_delivery 2 2 indeterminate x <> read_before_delivery x
  /\ read_during_delivery 2 2 indeterminate x
     <> read_after_delivery new 2 2 indeterminate x.
Proof. intros indeterminate. vm_compute. repeat split; congruence. Qed.

End FrameFacts.

(** ** SourceClassifier *)

Section ClassifierFacts.
Import Regex Classifier.

Lemma regex_match_Never (s : string) : regex_match s Never = false.
Proof. induction s as [| c s IH]; simpl; auto. Qed.

Lemma regex_match_Cat_Never (s : string) (r : regex) : regex_match s (Cat Never r) = false.
Proof. induction s as [| c s IH]; simpl; auto. Qed.

Lemma regex_match_Cat_Cat_Never (s : string) (r1 r2 : regex) :
  regex_match s (Cat (Cat Never r1) r2) = false.
Proof. induction s as [| c s IH]; simpl; auto. Qed.

Lemma regex_match_Alt (s : string) : forall r1 r2,
  regex_match s (Alt r1 r2) = regex_match s r1 || regex_match s r2.
Proof. induction s as [| c s IH]; intros r1 r2; simpl; auto. Qed.

Lemma regex_match_Cat_Eps (s : string) (r : regex) :
  regex_match s (Cat Eps r) = regex_match s r.
Proof.
  destruct s as [| c s]; simpl; [reflexivity |].
  now rewrite regex_match_Alt, regex_match_Cat_Never.
Qed.

(** A match of [r1] followed by a match of [r2] is a match of their
    concatenation. *)
Lemma regex_match_Cat (s1 : string) : forall s2 r1 r2,
  regex_match s1 r1 = true ->
  regex_match s2 r2 = true ->
  regex_match (s1 +:+ s2) (Cat r1 r2) = true.
Proof.
  induction s1 as [| c s1 IH]; intros s2 r1 r2 H1 H2; simpl in *.
  - destruct s2 as [| d s2]; simpl in *.
    + now rewrite H1, H2.
    + rewrite H1, regex_match_Alt, H2. apply orb_true_r.
  - destruct (nullable r1).
    + rewrite regex_match_Alt, (IH s2 _ _ H1 H2). reflexivity.
    + now apply IH.
Qed.

Lemma regex_match_lit (p : string) : forall s,
  same_ignoring_case s p = true -> regex_match s (lit p) = true.
Proof.
  induction p as [| c p IH]; intros [| a s] H; simpl in *; try discriminate; auto.
  apply andb_true_iff in H as [Hc Hs].
  rewrite Hc, regex_match_Cat_Eps. now apply IH.
Qed.

Lemma regex_match_any (s : string) :
  no_line_break s = true -> regex_match s (Star (Atom Dot)) = true.
Proof.
  induction s as [| c s IH]; simpl; [reflexivity |].
  intros H. apply andb_true_iff in H as [Hc Hs].
  rewrite Hc, regex_match_Cat_Eps. now apply IH.
Qed.

Lemma is_one_of_cons (s p : string) (ps : list string) :
  is_one_of (p :: ps) s = same_ignoring_case s p || is_one_of ps s.
Proof. reflexivity. Qed.

(** A character that is a full stop up to case is a full stop, and [.]
    accepts it. *)
Lemma full_stop_matches_Dot (a : ascii) :
  Ascii.eqb (tolower a) (tolower ".") = true -> atom_matches Dot a = true.
Proof. destruct a as [[] [] [] [] [] [] [] []]; vm_compute; congruence. Qed.

Lemma extension_matches (ext : string) :
  is_one_of stream_extensions ext = true ->
  regex_match ext (Alt (Cat (Atom Dot) (lit "m3u8")) (Cat (Atom Dot) (lit "flv"))) = true.
Proof.
  unfold stream_extensions. rewrite !is_one_of_cons, regex_match_Alt.
  destruct ext as [| a ext]; [discriminate |].
  intros H. simpl in H. rewrite orb_false_r in H.
  apply orb_true_iff in H as [H | H]; apply andb_true_iff in H as [Ha He];
    apply full_stop_matches_Dot in Ha; apply orb_true_iff; [left | right];
    cbn [regex_match deriv nullable]; rewrite Ha, regex_match_Cat_Eps;
    now apply regex_match_lit.
Qed.

Lemma stream_scheme_matches (scheme : string) :
  is_one_of stream_schemes scheme = true ->
  regex_match scheme
    (Alt (lit "rtp") (Alt (lit "rtmp") (Alt (lit "rtcp") (Alt (lit "rtsp") (lit "udp"))))) = true.
Proof.
  unfold stream_schemes. rewrite !is_one_of_cons, !regex_match_Alt.
  intros H. simpl is_one_of in H. rewrite orb_false_r in H.
  repeat (apply orb_true_iff in H as [H | H]);
    apply regex_match_lit in H; rewrite H; rewrite ?orb_true_r; reflexivity.
Qed.

Lemma http_scheme_matches (scheme : string) :
  is_one_of http_schemes scheme = true ->
  regex_match scheme (Alt (lit "http") (lit "https")) = true.
Proof.
  unfold http_schemes. rewrite !is_one_of_cons, !regex_match_Alt.
  intros H. simpl is_one_of in H. rewrite orb_false_r in H.
  repeat (apply orb_true_iff in H as [H | H]);
    apply regex_match_lit in H; rewrite H; rewrite ?orb_true_r; reflexivity.
Qed.

(** An identifier that starts like one of [candidates], none of which
    starts with a slash, is no camera path. *)
Lemma scheme_not_camera (scheme rest : string) (candidates : list string) :
  Forall (fun p => exists c p', p = String c p' /\ Ascii.eqb (tolower c) "/" = false)
         candidates ->
  is_one_of candidates scheme = true ->
  regex_match (scheme +:+ rest) camera_path_regex_ = false.
Proof.
  intros Hall H. unfold is_one_of in H. apply existsb_exists in H as (p & Hin & Hp).
  rewrite Forall_forall in Hall. apply list_elem_of_In in Hin.
  destruct (Hall p Hin) as (c & p' & -> & Hc).
  destruct scheme as [| a scheme]; [discriminate |]. simpl in Hp.
  apply andb_true_iff in Hp as [Ha _]. apply Ascii.eqb_eq in Ha.
  change (String a scheme +:+ rest) with (String a (scheme +:+ rest)).
  unfold camera_path_regex_. cbn -[tolower].
  rewrite Ha. change (tolower "/") with "/"%char. rewrite Hc.
  apply regex_match_Cat_Cat_Never.
Qed.

Lemma stream_not_camera (scheme rest : string) :
  is_one_of stream_schemes scheme = true \/ is_one_of http_schemes scheme = true ->
  regex_match (scheme +:+ rest) camera_path_regex_ = false.
Proof.
  intros [H | H]; eapply scheme_not_camera; try exact H;
    repeat constructor; eexists _, _; split; reflexivity.
Qed.

Lemma classify_stream (valid : string -> bool) (to_uri : string -> option string)
    (id : string) :
  regex_match id camera_path_regex_ = false ->
  valid id = true ->
  IsStreamUri id = true ->
  classify valid to_uri id = NetworkStream.
Proof.
  intros Hcam Hvalid Hstream. unfold classify, ParseUri.
  now rewrite Hcam, Hvalid, Hstream.
Qed.

(** C6 (amended): an identifier made of one of the schemes rtp, rtmp,
    rtcp, rtsp, udp (in any case), [://] and a rest without line breaks,
    or of http or https, [://], a middle part without line breaks and the
    extension [.m3u8] or [.flv] (in any case), is a stream URI, is no
    camera path, and is classified as a network stream whenever the
    engine accepts it as a URI. *)
Theorem stream_identifiers_classified :
  (forall scheme rest,
     is_one_of stream_schemes scheme = true ->
     no_line_break rest = true ->
     let id := scheme +:+ "://" +:+ rest in
     IsStreamUri id = true
     /\ regex_match id camera_path_regex_ = false
     /\ forall valid to_uri, valid id = true -> classify valid to_uri id = NetworkStream)
  /\ (forall scheme middle ext,
        is_one_of http_schemes scheme = true ->
        is_one_of stream_extensions ext = true ->
        no_line_break middle = true ->
        let id := scheme +:+ "://" +:+ middle +:+ ext in
        IsStreamUri id = true
        /\ regex_match id camera_path_regex_ = false
        /\ forall valid to_uri, valid id = true -> classify valid to_uri id = NetworkStream).
Proof.
  split.
  - intros scheme rest Hscheme Hrest id.
    assert (Hstream : IsStreamUri id = true).
    { unfold IsStreamUri, stream_type_regex_. apply orb_true_iff. left.
      apply regex_match_Cat; [now apply stream_scheme_matches |].
      apply regex_match_Cat; [reflexivity | now apply regex_match_any]. }
    assert (Hcam : regex_match id camera_path_regex_ = false)
      by (apply stream_not_camera; now left).
    repeat split; auto. intros valid to_uri Hvalid. now apply classify_stream.
  - intros scheme middle ext Hscheme Hext Hmiddle id.
    assert (Hstream : IsStreamUri id = true).
    { unfold IsStreamUri, stream_ext_regex_. apply orb_true_iff. right.
      apply regex_match_Cat; [now apply http_scheme_matches |].
      apply regex_match_Cat; [reflexivity |].
      apply regex_match_Cat; [now apply regex_match_any | now apply extension_matches]. }
    assert (Hcam : regex_match id camera_path_regex_ = false)
      by (apply stream_not_camera; now right).
    repeat split; auto. intros valid to_uri Hvalid. now apply classify_stream.
Qed.

Lemma stream_identifiers_classified_witness :
  IsStreamUri "RTSP://host:8554/live?w=1000&h=3000&o=l" = true
  /\ classify (fun s => Samples.scheme_then_colon s O) (fun _ => None)
       "https://host/path/index.M3U8" = NetworkStream.
Proof.
  destruct stream_identifiers_classified as [Hscheme Hext].
  split.
  - apply (Hscheme "RTSP" "host:8554/live?w=1000&h=3000&o=l"); reflexivity.
  - apply (Hext "https" "host/path/index" ".M3U8"); reflexivity.
Defined.

(** C6 as stated fails: an identifier with the scheme rtsp and a line
    feed after the host matches neither stream pattern, since [.] stops
    at a line break; it is no camera path either, and so is handled as a
    local file. *)
Lemma stream_scheme_with_line_break_not_stream :
  Samples.broken_stream_uri = "rtsp" +:+ "://" +:+ String "h" (String "o" (String "s"
                                (String "t" (String "010" "live"))))
  /\ is_one_of stream_schemes "rtsp" = true
  /\ regex_match Samples.broken_stream_uri camera_path_regex_ = false
  /\ IsStreamUri Samples.broken_stream_uri = false
  /\ classify (fun s => Samples.scheme_then_colon s O) (fun _ => None)
       Samples.broken_stream_uri = LocalFile.
Proof. repeat split; reflexivity. Qed.

End ClassifierFacts.

(** ** Strings and query parameters *)

Section StringFacts.
Import StdString.

Lemma app_String (a : ascii) (s r : string) : String a s +:+ r = String a (s +:+ r).
Proof. reflexivity. Qed.

Lemma app_empty (r : string) : "" +:+ r = r.
Proof. reflexivity. Qed.

Lemma app_assoc_string (a b c : string) : (a +:+ b) +:+ c = a +:+ b +:+ c.
Proof. induction a as [| x a IH]; [reflexivity |]. rewrite !app_String. now f_equal. Qed.

Lemma length_app_string (a b : string) :
  String.length (a +:+ b) = (String.length a + String.length b)%nat.
Proof. induction a as [| x a IH]; [reflexivity |]. rewrite app_String. simpl. now f_equal. Qed.

Lemma size_app (a b : string) : size (a +:+ b) = size a + size b.
Proof. unfold size. rewrite length_app_string. lia. Qed.

Lemma size_nonneg (a : string) : 0 <= size a.
Proof. unfold size. lia. Qed.

Lemma drop_app (a b : string) : drop (String.length a) (a +:+ b) = b.
Proof. induction a as [| x a IH]; [reflexivity |]. rewrite app_String. exact IH. Qed.

Lemma take_app (a b : string) : take (String.length a) (a +:+ b) = a.
Proof.
  induction a as [| x a IH]; [now destruct b |]. rewrite app_String. simpl. now f_equal.
Qed.

Lemma take_all (a : string) (n : nat) : (String.length a <= n)%nat -> take n a = a.
Proof.
  revert n. induction a as [| x a IH]; intros n H; [now destruct n |].
  destruct n as [| n]; simpl in *; [lia |]. f_equal. apply IH. lia.
Qed.

Lemma index_of_app_found (c : ascii) (a b : string) :
  index_of c a = None -> index_of c (a +:+ String c b) = Some (String.length a).
Proof.
  induction a as [| x a IH]; intros H.
  - rewrite app_empty. simpl. now rewrite Ascii.eqb_refl.
  - rewrite app_String. simpl in *. destruct (Ascii.eqb x c); [discriminate |].
    destruct (index_of c a); [discriminate |]. now rewrite IH.
Qed.

Lemma index_of_app_none (c : ascii) (a b : string) :
  index_of c a = None -> index_of c b = None -> index_of c (a +:+ b) = None.
Proof.
  induction a as [| x a IH]; intros Ha Hb; [exact Hb |].
  rewrite app_String. simpl in *. destruct (Ascii.eqb x c); [discriminate |].
  destruct (index_of c a); [discriminate |]. now rewrite IH.
Qed.

Lemma last_index_of_none (c : ascii) (s : string) :
  index_of c s = None -> last_index_of c s = None.
Proof.
  induction s as [| x s IH]; simpl; [reflexivity |].
  destruct (Ascii.eqb x c); [discriminate |].
  destruct (index_of c s); [discriminate |]. intros _. now rewrite IH.
Qed.

Lemma last_index_of_app (c : ascii) (a b : string) :
  index_of c b = None -> last_index_of c (a +:+ String c b) = Some (String.length a).
Proof.
  intros Hb. induction a as [| x a IH].
  - rewrite app_empty. simpl. now rewrite (last_index_of_none c b Hb), Ascii.eqb_refl.
  - rewrite app_String. simpl. now rewrite IH.
Qed.

(** [find] from the start of a part that is followed by the character
    sought and does not hold it. *)
Lemma find_next (c : ascii) (pre part rest : string) :
  index_of c part = None ->
  find (pre +:+ part +:+ String c rest) c (size pre) = size pre + size part.
Proof.
  intros H. unfold find.
  assert (Hlt : (size (pre +:+ part +:+ String c rest) <=? size pre) = false).
  { apply Z.leb_gt. rewrite !size_app. unfold size; simpl. lia. }
  rewrite Hlt. unfold size at 1. rewrite Nat2Z.id, drop_app, (index_of_app_found c part rest H).
  reflexivity.
Qed.

(** [find] from the start of a last part that does not hold the
    character sought. *)
Lemma find_none (c : ascii) (pre part : string) :
  index_of c part = None -> find (pre +:+ part) c (size pre) = npos.
Proof.
  intros H. unfold find. destruct (_ <=? _); [reflexivity |].
  unfold size. now rewrite Nat2Z.id, drop_app, H.
Qed.

Lemma find_last_of_app (c : ascii) (a b : string) :
  index_of c b = None -> find_last_of (a +:+ String c b) c = size a.
Proof. intros H. unfold find_last_of. now rewrite (last_index_of_app c a b H). Qed.

(** [substr] of a part, given a count that reaches its end. *)
Lemma substr_part (pre part rest : string) (count : Z) :
  Z.min count (size part + size rest) = size part ->
  substr (pre +:+ part +:+ rest) (size pre) count = Returns part.
Proof.
  intros H. unfold substr.
  assert (Hlt : (size (pre +:+ part +:+ rest) <? size pre) = false).
  { apply Z.ltb_ge. rewrite !size_app. pose proof (size_nonneg part).
    pose proof (size_nonneg rest). lia. }
  rewrite Hlt. f_equal.
  replace (size (pre +:+ part +:+ rest) - size pre) with (size part + size rest)
    by (rewrite !size_app; lia).
  rewrite H. unfold size. now rewrite !Nat2Z.id, drop_app, take_app.
Qed.

Lemma npos_value : npos = 18446744073709551615.
Proof. reflexivity. Qed.

Lemma wrap_small (z : Z) : 0 <= z <= npos -> wrap z = z.
Proof. intros H. unfold wrap. apply Z.mod_small. rewrite npos_value in H.
  change size_t_modulus with 18446744073709551616. lia. Qed.

Lemma wrap_npos_succ : wrap (npos + 1) = 0.
Proof. reflexivity. Qed.

End StringFacts.

Section UrlFacts.
Import StdString Url.

Lemma app_empty_r (s : string) : s +:+ "" = s.
Proof. induction s as [| x s IH]; [reflexivity |]. rewrite app_String. now f_equal. Qed.

Lemma lacks_None (c : ascii) (s : string) : lacks c s = true <-> index_of c s = None.
Proof. unfold lacks. destruct (index_of c s); intuition congruence. Qed.

(** A parameter [k=v] whose key has no [=] is split into [k] and [v]. *)
Lemma split_param_pair (k v : string) :
  lacks "=" k = true ->
  size (k +:+ "=" +:+ v) < npos ->
  split_param (k +:+ "=" +:+ v) = Returns (k, v).
Proof.
  intros Hk Hsize. apply lacks_None in Hk. unfold split_param.
  rewrite !size_app in Hsize. change (size "=") with 1 in Hsize.
  pose proof (size_nonneg k). pose proof (size_nonneg v).
  assert (Hfind : find (k +:+ "=" +:+ v) "=" 0 = size k).
  { change (k +:+ "=" +:+ v) with ("" +:+ k +:+ String "=" v).
    change 0 with (size "") at 1. rewrite (find_next "=" "" k v Hk). reflexivity. }
  rewrite Hfind.
  assert (Hkey : substr (k +:+ "=" +:+ v) 0 (size k) = Returns k).
  { change (k +:+ "=" +:+ v) with ("" +:+ k +:+ "=" +:+ v).
    change 0 with (size ""). apply substr_part. rewrite size_app. change (size "=") with 1. lia. }
  rewrite Hkey. simpl.
  rewrite wrap_small by lia.
  assert (Hvalue : substr (k +:+ "=" +:+ v) (size k + 1) npos = Returns v).
  { replace (k +:+ "=" +:+ v) with ((k +:+ "=") +:+ v +:+ "")
      by now rewrite app_empty_r, app_assoc_string.
    replace (size k + 1) with (size (k +:+ "=")) by now rewrite size_app.
    apply substr_part. change (size "") with 0. rewrite npos_value in *. lia. }
  now rewrite Hvalue.
Qed.

Lemma param_loop_unfold (fuel : nat) (uri : string) (start end_ : Z)
    (params : gmap string string) :
  param_loop (S fuel) uri start end_ params =
    if end_ =? npos then Returns params
    else '(start', end', params') ← param_step uri start params;
         param_loop fuel uri start' end' params'.
Proof. reflexivity. Qed.

Lemma param_loop_done (fuel : nat) (uri : string) (start : Z) (params : gmap string string) :
  param_loop fuel uri start npos params = Returns params.
Proof. destruct fuel; reflexivity. Qed.

Lemma segment_lacks (c : ascii) (kv : string * string) :
  index_of c "=" = None ->
  lacks c kv.1 = true -> lacks c kv.2 = true ->
  index_of c (segment kv) = None.
Proof.
  intros Hc H1 H2. apply lacks_None in H1, H2. unfold segment.
  apply index_of_app_none; [exact H1 |]. now apply index_of_app_none.
Qed.

Lemma plain_pair_parts (kv : string * string) :
  plain_pair kv = true ->
  lacks "=" kv.1 = true
  /\ index_of "&" (segment kv) = None
  /\ index_of "?" (segment kv) = None.
Proof.
  unfold plain_pair. rewrite !andb_true_iff. intros ((((H1 & H2) & H3) & H4) & H5).
  split; [exact H1 |]. split; apply segment_lacks; auto.
Qed.

Lemma query_string_cons (kv kv2 : string * string) (more : list (string * string)) :
  query_string (kv :: kv2 :: more) = segment kv +:+ "&" +:+ query_string (kv2 :: more).
Proof. reflexivity. Qed.

Lemma query_string_lacks_question (pairs : list (string * string)) :
  forallb plain_pair pairs = true -> index_of "?" (query_string pairs) = None.
Proof.
  induction pairs as [| kv [| kv2 more] IH]; intros H; [reflexivity | |].
  - simpl in H. rewrite andb_true_r in H. now apply plain_pair_parts in H.
  - rewrite query_string_cons. change (forallb plain_pair (kv :: kv2 :: more))
      with (plain_pair kv && forallb plain_pair (kv2 :: more)) in H.
    apply andb_true_iff in H as [H1 H2]. apply plain_pair_parts in H1 as (_ & _ & H1).
    apply index_of_app_none; [exact H1 |]. apply index_of_app_none; [reflexivity | auto].
Qed.

Lemma query_string_length (pairs : list (string * string)) :
  (length pairs <= S (String.length (query_string pairs)))%nat.
Proof.
  induction pairs as [| kv [| kv2 more] IH]; [simpl; lia | simpl; lia |].
  rewrite query_string_cons, !length_app_string.
  change (String.length "&") with 1%nat. simpl length in *. lia.
Qed.

(** The loop, entered with some [&] found, walks through all the
    parameters that follow [pre]. *)
Lemma param_loop_pairs (pairs : list (string * string)) :
  pairs <> [] ->
  forallb plain_pair pairs = true ->
  forall (fuel : nat) (pre : string) (end_ : Z) (params : gmap string string),
    (length pairs <= fuel)%nat ->
    end_ <> npos ->
    size (pre +:+ query_string pairs) < npos ->
    param_loop fuel (pre +:+ query_string pairs) (size pre) end_ params
    = Returns (foldl (fun m kv => insert_pair kv.1 kv.2 m) params pairs).
Proof.
  induction pairs as [| kv [| kv2 more] IH]; intros Hne Hplain fuel pre end_ params
    Hfuel Hend Hsize; [congruence | |].
  - (* the last parameter *)
    simpl in Hplain. rewrite andb_true_r in Hplain.
    apply plain_pair_parts in Hplain as (Hkey & Hamp & _).
    destruct fuel as [| fuel]; [simpl in Hfuel; lia |].
    rewrite param_loop_unfold. apply Z.eqb_neq in Hend. rewrite Hend.
    change (query_string [kv]) with (segment kv) in *.
    rewrite size_app in Hsize.
    pose proof (size_nonneg pre). pose proof (size_nonneg (segment kv)).
    unfold param_step. rewrite (find_none "&" pre (segment kv) Hamp).
    rewrite (wrap_small (npos - size pre)) by lia.
    replace (pre +:+ segment kv) with (pre +:+ segment kv +:+ "") at 1
      by now rewrite app_empty_r.
    rewrite substr_part by (change (size "") with 0; lia). simpl.
    assert (Hsplit : split_param (segment kv) = Returns (kv.1, kv.2)).
    { apply split_param_pair; [exact Hkey |].
      change (kv.1 +:+ "=" +:+ kv.2) with (segment kv). lia. }
    rewrite Hsplit. simpl.
    apply param_loop_done.
  - (* a parameter followed by [&] *)
    change (forallb plain_pair (kv :: kv2 :: more))
      with (plain_pair kv && forallb plain_pair (kv2 :: more)) in Hplain.
    apply andb_true_iff in Hplain as [Hkv Hmore].
    apply plain_pair_parts in Hkv as (Hkey & Hamp & _).
    destruct fuel as [| fuel]; [simpl in Hfuel; lia |].
    rewrite param_loop_unfold. apply Z.eqb_neq in Hend. rewrite Hend.
    rewrite query_string_cons in *.
    rewrite !size_app in Hsize. change (size "&") with 1 in Hsize.
    pose proof (size_nonneg pre). pose proof (size_nonneg (segment kv)).
    pose proof (size_nonneg (query_string (kv2 :: more))).
    unfold param_step.
    change (segment kv +:+ "&" +:+ query_string (kv2 :: more))
      with (segment kv +:+ String "&" (query_string (kv2 :: more))).
    rewrite (find_next "&" pre (segment kv) _ Hamp).
    replace (size pre + size (segment kv) - size pre) with (size (segment kv)) by lia.
    rewrite (wrap_small (size (segment kv))) by lia.
    rewrite substr_part
      by (match goal with |- Z.min _ (_ + size ?r) = _ => pose proof (size_nonneg r) end; lia).
    simpl.
    assert (Hsplit : split_param (segment kv) = Returns (kv.1, kv.2)).
    { apply split_param_pair; [exact Hkey |].
      change (kv.1 +:+ "=" +:+ kv.2) with (segment kv). lia. }
    rewrite Hsplit. simpl.
    rewrite wrap_small by lia.
    replace (size pre + size (segment kv) + 1)
      with (size (pre +:+ segment kv +:+ "&"))
      by (rewrite !size_app; change (size "&") with 1; lia).
    replace (pre +:+ segment kv +:+ String "&" (query_string (kv2 :: more)))
      with ((pre +:+ segment kv +:+ "&") +:+ query_string (kv2 :: more))
      by (rewrite !app_assoc_string; reflexivity).
    apply IH; [congruence | exact Hmore | simpl in *; lia | |].
    + lia.
    + rewrite !size_app. change (size "&") with 1. lia.
Qed.

(** A URL that ends in [?] and at least two plain parameters yields the
    table of these parameters, the first value winning for a repeated
    key. *)
Lemma parse_params_query (base : string) (pairs : list (string * string)) :
  (2 <= length pairs)%nat ->
  forallb plain_pair pairs = true ->
  size (base +:+ "?" +:+ query_string pairs) < npos ->
  parse_params (base +:+ "?" +:+ query_string pairs)
  = Returns (Some (foldl (fun m kv => insert_pair kv.1 kv.2 m) ∅ pairs)).
Proof.
  intros Hlen Hplain Hsize.
  destruct pairs as [| kv [| kv2 more]]; simpl in Hlen; try lia.
  pose proof (query_string_lacks_question _ Hplain) as Hq.
  pose proof (query_string_length (kv :: kv2 :: more)) as Hfuel.
  set (q := query_string (kv :: kv2 :: more)) in *.
  unfold parse_params.
  change (base +:+ "?" +:+ q) with (base +:+ String "?" q).
  rewrite (find_last_of_app "?" base q Hq).
  change (base +:+ String "?" q) with (base +:+ "?" +:+ q).
  rewrite !size_app in Hsize. change (size "?") with 1 in Hsize.
  pose proof (size_nonneg base). pose proof (size_nonneg q).
  assert (Hnot : (size base =? npos) = false) by (apply Z.eqb_neq; lia).
  rewrite Hnot, wrap_small by lia.
  replace (size base + 1) with (size (base +:+ "?"))
    by (rewrite size_app; reflexivity).
  replace (base +:+ "?" +:+ q) with ((base +:+ "?") +:+ q) by apply app_assoc_string.
  subst q.
  rewrite param_loop_pairs; [reflexivity | discriminate | exact Hplain | | |].
  - rewrite length_app_string. lia.
  - rewrite query_string_cons.
    change (segment kv +:+ "&" +:+ query_string (kv2 :: more))
      with (segment kv +:+ String "&" (query_string (kv2 :: more))).
    change (forallb plain_pair (kv :: kv2 :: more))
      with (plain_pair kv && forallb plain_pair (kv2 :: more)) in Hplain.
    apply andb_true_iff in Hplain as [Hkv _].
    apply plain_pair_parts in Hkv as (_ & Hamp & _).
    rewrite (find_next "&" (base +:+ "?") (segment kv) _ Hamp).
    rewrite query_string_cons, !size_app in Hsize. change (size "&") with 1 in Hsize.
    rewrite size_app. change (size "?") with 1.
    pose proof (size_nonneg (segment kv)).
    pose proof (size_nonneg (query_string (kv2 :: more))). lia.
  - rewrite !size_app. change (size "?") with 1. lia.
Qed.

(** A URL with a single parameter and no [&] yields an empty table: the
    loop is not entered. *)
Lemma parse_params_single (base : string) (kv : string * string) :
  plain_pair kv = true ->
  size (base +:+ "?" +:+ segment kv) < npos ->
  parse_params (base +:+ "?" +:+ segment kv) = Returns (Some ∅).
Proof.
  intros Hplain Hsize. apply plain_pair_parts in Hplain as (_ & Hamp & Hq).
  unfold parse_params.
  change (base +:+ "?" +:+ segment kv) with (base +:+ String "?" (segment kv)).
  rewrite (find_last_of_app "?" base _ Hq).
  change (base +:+ String "?" (segment kv)) with (base +:+ "?" +:+ segment kv).
  rewrite !size_app in Hsize. change (size "?") with 1 in Hsize.
  pose proof (size_nonneg base). pose proof (size_nonneg (segment kv)).
  assert (Hnot : (size base =? npos) = false) by (apply Z.eqb_neq; lia).
  rewrite Hnot, wrap_small by lia.
  replace (size base + 1) with (size (base +:+ "?"))
    by (rewrite size_app; reflexivity).
  replace (base +:+ "?" +:+ segment kv) with ((base +:+ "?") +:+ segment kv)
    by apply app_assoc_string.
  rewrite (find_none "&" (base +:+ "?") (segment kv) Hamp).
  now rewrite param_loop_done.
Qed.

Lemma foldl_insert_pair_lookup (pairs : list (string * string)) :
  forall (m : gmap string string) (k : string),
    foldl (fun m kv => insert_pair kv.1 kv.2 m) m pairs !! k
    = match m !! k with
      | Some v => Some v
      | None => first_value k pairs
      end.
Proof.
  induction pairs as [| [k' v] pairs IH]; intros m k; simpl.
  - now destruct (m !! k).
  - rewrite IH. unfold insert_pair.
    destruct (String.eqb_spec k' k) as [-> | Hne].
    + destruct (m !! k) eqn:E; [now rewrite E |]. now rewrite lookup_insert_eq.
    + destruct (m !! k'); [reflexivity |]. now rewrite lookup_insert_ne.
Qed.

Lemma parse_params_lookup (base : string) (pairs : list (string * string)) (k : string) :
  (2 <= length pairs)%nat ->
  forallb plain_pair pairs = true ->
  size (base +:+ "?" +:+ query_string pairs) < npos ->
  exists params,
    parse_params (base +:+ "?" +:+ query_string pairs) = Returns (Some params)
    /\ forall k, params !! k = first_value k pairs.
Proof.
  intros Hlen Hplain Hsize. eexists. split; [now apply parse_params_query |].
  intros k'. rewrite foldl_insert_pair_lookup. now rewrite lookup_empty.
Qed.

(** *** The scan of an arbitrary URL returns

    For any string a [std::string] can hold, the loop ends before its
    fuel does, and no [substr] of it is out of range. *)

Lemma index_of_bound (c : ascii) (s : string) (k : nat) :
  index_of c s = Some k -> (k < String.length s)%nat.
Proof.
  revert k. induction s as [| x s IH]; intros k; simpl; [discriminate |].
  destruct (Ascii.eqb x c); [intros [= <-]; lia |].
  destruct (index_of c s) as [j |]; [| discriminate].
  intros [= <-]. specialize (IH j eq_refl). lia.
Qed.

Lemma length_drop_string (n : nat) (s : string) :
  String.length (drop n s) = (String.length s - n)%nat.
Proof.
  revert s. induction n as [| n IH]; intros s; [simpl; lia |].
  destruct s as [| x s]; simpl; [reflexivity | apply IH].
Qed.

Lemma find_bounds (s : string) (c : ascii) (pos : Z) :
  0 <= pos -> find s c pos = npos \/ pos <= find s c pos < size s.
Proof.
  intros Hpos. unfold find. destruct (Z.leb_spec (size s) pos) as [| Hlt]; [now left |].
  destruct (index_of c (drop (Z.to_nat pos) s)) as [k |] eqn:E; [| now left].
  right. apply index_of_bound in E. rewrite length_drop_string in E.
  unfold size in *. lia.
Qed.

Lemma substr_returns (s : string) (pos count : Z) :
  pos <= size s -> exists r, substr s pos count = Returns r.
Proof.
  intros H. unfold substr. destruct (Z.ltb_spec (size s) pos); [lia | eauto].
Qed.

Lemma split_param_returns (p : string) :
  size p < npos -> exists kv, split_param p = Returns kv.
Proof.
  intros Hp. unfold split_param. pose proof (size_nonneg p).
  destruct (substr_returns p 0 (find p "=" 0)) as (key & ->); [lia |]. simpl.
  destruct (find_bounds p "=" 0) as [-> | Hb]; [lia | |].
  - rewrite wrap_npos_succ. destruct (substr_returns p 0 npos) as (v & ->); [lia |]. eauto.
  - rewrite wrap_small by (rewrite npos_value in *; lia).
    destruct (substr_returns p (find p "=" 0 + 1) npos) as (v & ->); [lia |]. eauto.
Qed.

Lemma length_take_string (n : nat) (s : string) :
  (String.length (take n s) <= String.length s)%nat.
Proof.
  revert s. induction n as [| n IH]; intros s; [simpl; lia |].
  destruct s as [| x s]; simpl; [lia |]. specialize (IH s). lia.
Qed.

Lemma substr_size (s r : string) (pos count : Z) :
  0 <= pos -> substr s pos count = Returns r -> size r <= size s.
Proof.
  intros Hpos. unfold substr. destruct (_ <? _); [discriminate |].
  intros [= <-].
  pose proof (length_take_string (Z.to_nat (Z.min count (size s - pos)))
                (drop (Z.to_nat pos) s)) as Ht.
  rewrite length_drop_string in Ht. unfold size in *. lia.
Qed.

Lemma param_loop_fuel (fuel : nat) : forall (uri : string) (start end_ : Z)
    (params : gmap string string),
  size uri < npos ->
  0 <= start <= size uri ->
  (Z.to_nat (size uri - start) < fuel)%nat ->
  exists r, param_loop fuel uri start end_ params = Returns r.
Proof.
  induction fuel as [| fuel IH]; intros uri start end_ params Hsize Hstart Hfuel; [lia |].
  rewrite param_loop_unfold. destruct (end_ =? npos); [eauto |].
  unfold param_step.
  destruct (substr_returns uri start (wrap (find uri "&" start - start))) as (p & Hp); [lia |].
  rewrite Hp. simpl.
  destruct (split_param_returns p) as ([k v] & ->).
  { apply substr_size in Hp; lia. }
  simpl.
  destruct (find_bounds uri "&" start) as [-> | Hb]; [lia | |].
  - rewrite param_loop_done. eauto.
  - rewrite wrap_small by (rewrite npos_value in *; lia).
    apply IH; [exact Hsize | lia | lia].
Qed.

(** [parse_params] returns for every URL. *)
Lemma parse_params_returns (uri : string) :
  size uri < npos -> exists r, parse_params uri = Returns r.
Proof.
  intros Hsize. unfold parse_params.
  destruct (find_last_of uri "?" =? npos) eqn:E; [eauto |].
  assert (Hq : 0 <= find_last_of uri "?" < size uri).
  { unfold find_last_of in *. destruct (last_index_of "?" uri) as [k |] eqn:Ek.
    - assert (k < String.length uri)%nat; [| unfold size; lia].
      clear E Hsize. revert k Ek. induction uri as [| x s IHs]; intros k; simpl; [discriminate |].
      destruct (last_index_of "?" s) as [j |].
      + intros [= <-]. specialize (IHs j eq_refl). lia.
      + destruct (Ascii.eqb x "?"); [intros [= <-]; lia | discriminate].
    - now rewrite Z.eqb_refl in E. }
  rewrite wrap_small by (rewrite npos_value in *; lia).
  destruct (param_loop_fuel (S (String.length uri)) uri (find_last_of uri "?" + 1)
              (find uri "&" (find_last_of uri "?" + 1)) ∅) as (r & ->);
    [exact Hsize | lia | unfold size in *; lia |].
  simpl. eauto.
Qed.

End UrlFacts.

(** ** PipelineBuilder *)

Section PipelineFacts.
Import StdString Url Catalog Player Classifier.

Lemma caps_of_snoc (t : list event) (e : event) :
  caps_of (t ++ [e]) = match caps_of [e] with
                       | Some c => Some c
                       | None => caps_of t
                       end.
Proof.
  remember (caps_of [e]) as last_set eqn:E.
  induction t as [| a t IH].
  { change ([] ++ [e]) with [e]. rewrite <- E. now destruct last_set. }
  change ((a :: t) ++ [e]) with (a :: (t ++ [e])).
  cbn [caps_of]. rewrite IH. now destruct last_set.
Qed.

(** [SetStreamDataFromUrl] when the table holds a width and a height
    that [stoi] reads and the catalog covers. *)
Lemma SetStreamDataFromUrl_sizes (uri : string) (x : GstVideoPlayer)
    (params : gmap string string) (W H : string) (vw vh nw nh : Z) :
  parse_params uri = Returns (Some params) ->
  params !! "w" = Some W ->
  params !! "h" = Some H ->
  stoi W = Returns vw ->
  stoi H = Returns vh ->
  NormalizeResolutionValue vw = Returns nw ->
  NormalizeResolutionValue vh = Returns nh ->
  exists x',
    SetStreamDataFromUrl uri x = Returns (true, x')
    /\ width_ x' = nw /\ height_ x' = nh
    /\ trace x' = trace x /\ gst_ x' = gst_ x
    /\ is_camera_ x' = is_camera_ x /\ is_inconsistent_ x' = is_inconsistent_ x
    /\ uri_ x' = uri_ x.
Proof.
  intros Hparse Hw Hh HW HH Hnw Hnh. unfold SetStreamDataFromUrl.
  rewrite Hparse; simpl. rewrite Hw, Hh, HW, HH; simpl. rewrite Hnw, Hnh; simpl.
  destruct (params !! "o") as [o |]; [destruct (String.eqb o "l") |];
    (eexists; split; [reflexivity |]); repeat split.
Qed.

Lemma normalize_in_range (v : Z) :
  v <= 3480 -> exists n, NormalizeResolutionValue v = Returns n.
Proof.
  intros Hv. rewrite NormalizeResolutionValue_cases.
  repeat case Z.leb_spec; intros; try lia; eauto.
Qed.

(** What the ranks leave alone. *)
Lemma rank_fold (env : GstEnv) (x : GstVideoPlayer) :
  foldl (fun x e => IncreasePluginRank env e x) x accelerated_elements
  = set_trace (trace x ++ rank_requests env) x.
Proof.
  unfold rank_requests. generalize accelerated_elements as elements.
  intros elements. revert x.
  induction elements as [| e elements IH]; intros x.
  - simpl. destruct (gst_registry_get env); rewrite app_nil_r; now destruct x.
  - change (foldl (fun x e => IncreasePluginRank env e x) x (e :: elements))
      with (foldl (fun x e => IncreasePluginRank env e x) (IncreasePluginRank env e x)
              elements).
    rewrite IH. unfold IncreasePluginRank. simpl.
    destruct (gst_registry_get env); [| reflexivity].
    destruct (gst_element_factory_find env e); [| reflexivity].
    simpl. now rewrite <- app_assoc.
Qed.

Lemma choose_caps_stream (env : GstEnv) (x : GstVideoPlayer)
    (params : gmap string string) (W H : string) (vw vh nw nh : Z) :
  is_stream_ x = true ->
  CheckPluginAvailability env "vapostproc" = true ->
  parse_params (uri_ x) = Returns (Some params) ->
  params !! "w" = Some W ->
  params !! "h" = Some H ->
  stoi W = Returns vw ->
  stoi H = Returns vh ->
  NormalizeResolutionValue vw = Returns nw ->
  NormalizeResolutionValue vh = Returns nh ->
  exists x1,
    choose_caps env x = Returns ("vapostproc", stream_caps nw nh, x1)
    /\ width_ x1 = nw /\ height_ x1 = nh
    /\ is_camera_ x1 = is_camera_ x
    /\ trace x1 = trace x ++ rank_requests env.
Proof.
  intros Hstream Hva Hparse Hw Hh HW HH Hnw Hnh.
  destruct (SetStreamDataFromUrl_sizes (uri_ x) x params W H vw vh nw nh
              Hparse Hw Hh HW HH Hnw Hnh)
    as (x' & Hset & Hwidth & Hheight & Htrace & _ & Hcamera & _).
  unfold choose_caps. rewrite Hva, Hstream, Hset.
  cbv beta iota delta [mbind outcome_bind]. rewrite rank_fold.
  eexists. split; [unfold stream_caps; rewrite Hwidth, Hheight; reflexivity |].
  simpl. rewrite Htrace. auto.
Qed.

(** [CreatePipeline] returns, and when it returns [true] the caps filter
    has been given the caps string chosen at its start. *)
Lemma CreatePipeline_caps (env : GstEnv) (x x1 : GstVideoPlayer) (converter caps : string) :
  choose_caps env x = Returns (converter, caps, x1) ->
  exists created x',
    CreatePipeline env x = Returns (created, x')
    /\ width_ x' = width_ x1 /\ height_ x' = height_ x1
    /\ (created = true -> caps_of (trace x') = Some caps).
Proof.
  intros Hcaps. unfold CreatePipeline. rewrite Hcaps. simpl.
  repeat match goal with
         | |- context [if ?b then _ else _] => destruct b; simpl
         end;
    eexists _, _; (split; [reflexivity |]); simpl;
    (split; [reflexivity |]); (split; [reflexivity |]);
    intros Hcreated; try discriminate;
    rewrite ?caps_of_snoc; reflexivity.
Qed.

(** The second part of [CreatePipeline]: it succeeds exactly when the
    engine provides every element, and then the elements are set and
    configured; a failure sends nothing. *)
Lemma CreatePipeline_result (env : GstEnv) (x x1 : GstVideoPlayer) (converter caps : string) :
  choose_caps env x = Returns (converter, caps, x1) ->
  let src_factory := if is_camera_ x1 then "v4l2src" else "playbin3" in
  let created := engine_provides env src_factory converter in
  exists x',
    CreatePipeline env x = Returns (created, x')
    /\ trace x' = trace x1 ++ (if created then configuration_requests caps x1 else [])
    /\ (created = true ->
        gst_ x' = {| pipeline := true;
                     video_src := Some src_factory;
                     video_convert := Some converter;
                     caps_filter := true;
                     video_sink := true;
                     output := if is_camera_ x1 then output (gst_ x1) else true;
                     bus := true;
                     buffer := buffer (gst_ x1) |})
    /\ set_trace (trace x1) (set_gst_ (gst_ x1) x') = x1.
Proof.
  intros Hcaps. unfold CreatePipeline, engine_provides, configuration_requests.
  rewrite Hcaps. simpl.
  destruct (is_camera_ x1) eqn:Hcam; simpl;
    destruct (gst_pipeline_new env); simpl;
    try (eexists; split; [reflexivity |]; simpl; rewrite ?app_nil_r;
         repeat split; try discriminate; now destruct x1);
    match goal with
    | |- context [gst_element_factory_make _ ?f] =>
        destruct (gst_element_factory_make env f) eqn:?
    end; simpl;
    try (eexists; split; [reflexivity |]; simpl; rewrite ?app_nil_r;
         repeat split; try discriminate; now destruct x1);
    destruct (gst_element_factory_make env converter); simpl;
    try (eexists; split; [reflexivity |]; simpl; rewrite ?app_nil_r;
         repeat split; try discriminate; now destruct x1);
    destruct (gst_element_factory_make env "capsfilter"); simpl;
    try (eexists; split; [reflexivity |]; simpl; rewrite ?app_nil_r;
         repeat split; try discriminate; now destruct x1);
    destruct (gst_element_factory_make env "fakesink"); simpl;
    try (eexists; split; [reflexivity |]; simpl; rewrite ?app_nil_r;
         repeat split; try discriminate; now destruct x1);
    try (destruct (gst_bin_new env); simpl;
         try (eexists; split; [reflexivity |]; simpl; rewrite ?app_nil_r;
              repeat split; try discriminate; now destruct x1));
    destruct (gst_pipeline_get_bus env); simpl;
    try (eexists; split; [reflexivity |]; simpl; rewrite ?app_nil_r;
         repeat split; try discriminate; now destruct x1);
    eexists; (split; [reflexivity |]); simpl; rewrite ?Hcam;
    destruct (is_inconsistent_ x1); simpl; rewrite <- ?app_assoc; simpl;
    repeat split; try reflexivity; now destruct x1.
Qed.

Lemma caps_of_app (t1 t2 : list event) :
  caps_of (t1 ++ t2) = match caps_of t2 with
                       | Some c => Some c
                       | None => caps_of t1
                       end.
Proof.
  induction t1 as [| e t1 IH]; [simpl; now destruct (caps_of t2) |].
  change ((e :: t1) ++ t2) with (e :: (t1 ++ t2)). cbn [caps_of]. rewrite IH.
  now destruct (caps_of t2).
Qed.

Lemma caps_of_configuration (capsStr : string) (x : GstVideoPlayer) :
  caps_of (configuration_requests capsStr x) = Some capsStr.
Proof.
  unfold configuration_requests. destruct (is_inconsistent_ x), (is_camera_ x); reflexivity.
Qed.

Lemma caps_of_rank_requests (env : GstEnv) : caps_of (rank_requests env) = None.
Proof.
  unfold rank_requests. destruct (gst_registry_get env); [| reflexivity].
  induction (List.filter _ _) as [| e elements IH]; [reflexivity |].
  simpl. now rewrite IH.
Qed.

(** A list of pairs that has a value for [w] and one for [h] has two
    pairs at least. *)
Lemma first_values_two (pairs : list (string * string)) (W H : string) :
  first_value "w" pairs = Some W -> first_value "h" pairs = Some H ->
  (2 <= length pairs)%nat.
Proof.
  destruct pairs as [| [k v] [| p rest]]; simpl; try discriminate; [| lia].
  destruct (String.eqb_spec k "w") as [-> |]; [| discriminate].
  discriminate.
Qed.

(** C2: for a network stream whose URL ends in a query string of plain
    parameters that carries a width and a height which [stoi] reads as
    values within the catalog, and with the accelerated post-processing
    element available, [CreatePipeline] returns, sets [width_] and
    [height_] to the catalog values of the two requests, and succeeds
    exactly when the engine provides the pipeline, [playbin3],
    [vapostproc], the caps filter, the fake sink, the output bin and the
    bus.  When it succeeds it has given the caps filter
    [video/x-raw, format=RGBA, width=.., height=.., pixel-aspect-ratio=1/1]
    with these values, in place of the accelerated default, whatever the
    probe flag is; when it fails it has set no caps.  For
    [?w=1000&h=3000&o=l] the width is 1080 and the height 3480. *)
Theorem stream_caps_from_query :
  (forall env x base pairs W H vw vh,
     source_kind x = NetworkStream ->
     CheckPluginAvailability env "vapostproc" = true ->
     uri_ x = base +:+ "?" +:+ query_string pairs ->
     size (uri_ x) < npos ->
     forallb plain_pair pairs = true ->
     first_value "w" pairs = Some W ->
     first_value "h" pairs = Some H ->
     stoi W = Returns vw ->
     stoi H = Returns vh ->
     vw <= 3480 ->
     vh <= 3480 ->
     let created := engine_provides env "playbin3" "vapostproc" in
     exists nw nh x',
       NormalizeResolutionValue vw = Returns nw
       /\ NormalizeResolutionValue vh = Returns nh
       /\ CreatePipeline env x = Returns (created, x')
       /\ width_ x' = nw /\ height_ x' = nh
       /\ (created = true -> caps_of (trace x') = Some (stream_caps nw nh))
       /\ (created = false -> caps_of (trace x') = caps_of (trace x))
       /\ stream_caps nw nh <> "video/x-raw(memory:DMABuf),format=RGBA")
  /\ (forall env x base,
        source_kind x = NetworkStream ->
        CheckPluginAvailability env "vapostproc" = true ->
        uri_ x = base +:+ "?w=1000&h=3000&o=l" ->
        size (uri_ x) < npos ->
        let created := engine_provides env "playbin3" "vapostproc" in
        exists x',
          CreatePipeline env x = Returns (created, x')
          /\ width_ x' = 1080 /\ height_ x' = 3480
          /\ (created = true ->
              caps_of (trace x')
              = Some "video/x-raw, format=RGBA, width=1080, height=3480, pixel-aspect-ratio=1/1")
          /\ (created = false -> caps_of (trace x') = caps_of (trace x))).
Proof.
  assert (General : forall env x base pairs W H vw vh,
     source_kind x = NetworkStream ->
     CheckPluginAvailability env "vapostproc" = true ->
     uri_ x = base +:+ "?" +:+ query_string pairs ->
     size (uri_ x) < npos ->
     forallb plain_pair pairs = true ->
     first_value "w" pairs = Some W ->
     first_value "h" pairs = Some H ->
     stoi W = Returns vw ->
     stoi H = Returns vh ->
     vw <= 3480 ->
     vh <= 3480 ->
     let created := engine_provides env "playbin3" "vapostproc" in
     exists nw nh x',
       NormalizeResolutionValue vw = Returns nw
       /\ NormalizeResolutionValue vh = Returns nh
       /\ CreatePipeline env x = Returns (created, x')
       /\ width_ x' = nw /\ height_ x' = nh
       /\ (created = true -> caps_of (trace x') = Some (stream_caps nw nh))
       /\ (created = false -> caps_of (trace x') = caps_of (trace x))
       /\ stream_caps nw nh <> "video/x-raw(memory:DMABuf),format=RGBA").
  { intros env x base pairs W H vw vh Hkind Hva Huri Hsize Hplain Hw Hh HW HH Hvw Hvh created.
    assert (Hflags : is_stream_ x = true /\ is_camera_ x = false).
    { unfold source_kind in Hkind. destruct (is_camera_ x), (is_stream_ x); split; congruence. }
    destruct Hflags as [Hstream Hcamera].
    pose proof (first_values_two pairs W H Hw Hh) as Hlen.
    destruct (normalize_in_range vw Hvw) as (nw & Hnw).
    destruct (normalize_in_range vh Hvh) as (nh & Hnh).
    rewrite Huri in Hsize.
    destruct (parse_params_lookup base pairs "w" Hlen Hplain Hsize) as (params & Hparse & Hget).
    rewrite <- Huri in Hparse.
    destruct (choose_caps_stream env x params W H vw vh nw nh Hstream Hva Hparse)
      as (x1 & Hchoose & Hwidth & Hheight & Hcamera1 & Htrace1); try assumption;
      try (rewrite Hget; assumption).
    destruct (CreatePipeline_result env x x1 _ _ Hchoose)
      as (x' & Hrun & Htrace & _ & Hrest).
    rewrite Hcamera1, Hcamera in Hrun, Htrace. fold created in Hrun, Htrace.
    exists nw, nh, x'.
    split; [exact Hnw |]. split; [exact Hnh |]. split; [exact Hrun |].
    split; [apply (f_equal width_) in Hrest; simpl in Hrest; congruence |].
    split; [apply (f_equal height_) in Hrest; simpl in Hrest; congruence |].
    split; [| split].
    - intros Hcreated. rewrite Htrace, Hcreated, caps_of_app.
      now rewrite caps_of_configuration.
    - intros Hcreated. rewrite Htrace, Hcreated, app_nil_r, Htrace1, caps_of_app.
      now rewrite caps_of_rank_requests.
    - unfold stream_caps. discriminate. }
  split; [exact General |].
  intros env x base Hkind Hva Huri Hsize created.
  destruct (General env x base [("w", "1000"); ("h", "3000"); ("o", "l")] "1000" "3000" 1000 3000
              Hkind Hva Huri Hsize eq_refl eq_refl eq_refl eq_refl eq_refl
              ltac:(lia) ltac:(lia))
    as (nw & nh & x' & Hnw & Hnh & Hrun & Hw' & Hh' & Hcaps & Hnone & _).
  injection Hnw as <-. injection Hnh as <-.
  exists x'. repeat split; assumption.
Qed.

Lemma stream_caps_from_query_witness :
  exists x',
    CreatePipeline Samples.accelerated Samples.stream_before_pipeline = Returns (true, x')
    /\ width_ x' = 1080 /\ height_ x' = 3480
    /\ caps_of (trace x')
       = Some "video/x-raw, format=RGBA, width=1080, height=3480, pixel-aspect-ratio=1/1".
Proof.
  destruct (proj2 stream_caps_from_query Samples.accelerated Samples.stream_before_pipeline
              "rtsp://host/live" eq_refl eq_refl eq_refl eq_refl)
    as (x' & Hrun & Hw & Hh & Hcaps & _).
  exists x'. split; [exact Hrun |]. split; [exact Hw |]. split; [exact Hh |].
  apply Hcaps. reflexivity.
Defined.

(** C2 as stated fails: a stream that asks for 3840 x 2160, with the
    accelerated element available, carries a width that no catalog value
    reaches, so that the normalization dereferences the end of the
    catalog and what [CreatePipeline] does is not defined; and a width
    that is no number makes it throw what [stoi] throws.  In neither case
    are caps with a normalized width set. *)
Lemma stream_caps_not_for_every_query :
  source_kind Samples.uhd_stream = NetworkStream
  /\ CheckPluginAvailability Samples.accelerated "vapostproc" = true
  /\ (forall n, In n resolution_values_ -> n < 3840)
  /\ CreatePipeline Samples.accelerated Samples.uhd_stream = Undefined
  /\ source_kind Samples.unreadable_width_stream = NetworkStream
  /\ CreatePipeline Samples.accelerated Samples.unreadable_width_stream
     = Throws "invalid_argument".
Proof.
  split; [reflexivity |]. split; [reflexivity |]. split.
  - unfold resolution_values_. simpl. intros n Hn.
    repeat (destruct Hn as [<- | Hn]; [lia |]). destruct Hn.
  - repeat split; vm_compute; reflexivity.
Qed.

End PipelineFacts.

(** ** Construction *)

Section ConstructionFacts.
Import Player Classifier.

Ltac split_tests :=
  repeat match goal with
         | |- context [if ?b then _ else _] => destruct b; simpl
         | |- context [match ?o with Some _ => _ | None => _ end] => destruct o; simpl
         | |- context [let '(_, _) := ?p in _] => destruct p; simpl
         end.

Lemma probe_streams_kind (ss : list AVStream) (x x' : GstVideoPlayer) :
  probe_streams ss x = Returns x' -> source_kind x' = source_kind x.
Proof.
  induction ss as [| s ss IH]; simpl; [now intros [= ->] |].
  destruct (codec_is_video s); [| exact IH].
  unfold check_coded_size. split_tests; intros [= <-]; reflexivity.
Qed.

Lemma CheckInconsistency_kind (input : AVInput) (x x' : GstVideoPlayer) :
  CheckInconsistency input x = Returns x' -> source_kind x' = source_kind x.
Proof.
  unfold CheckInconsistency. split_tests; try (now intros [= ->]).
  apply probe_streams_kind.
Qed.

Lemma SetStreamDataFromUrl_kind (uri : string) (x x' : GstVideoPlayer) (r : bool) :
  SetStreamDataFromUrl uri x = Returns (r, x') -> source_kind x' = source_kind x.
Proof.
  unfold SetStreamDataFromUrl. intros H.
  apply bind_Returns in H as ([params |] & _ & H); [| now inversion H].
  apply bind_Returns in H as (x1 & H1 & H).
  apply bind_Returns in H as (x2 & H2 & H).
  assert (E1 : source_kind x1 = source_kind x).
  { destruct (params !! "w"); [| now inversion H1].
    apply bind_Returns in H1 as (v & _ & H1).
    apply bind_Returns in H1 as (n & _ & H1). now inversion H1. }
  assert (E2 : source_kind x2 = source_kind x1).
  { destruct (params !! "h"); [| now inversion H2].
    apply bind_Returns in H2 as (v & _ & H2).
    apply bind_Returns in H2 as (n & _ & H2). now inversion H2. }
  inversion H; subst. rewrite <- E1, <- E2.
  destruct (params !! "o") as [o |]; [destruct (String.eqb o "l") |]; reflexivity.
Qed.

Lemma IncreasePluginRank_kind (env : GstEnv) (e : string) (x : GstVideoPlayer) :
  source_kind (IncreasePluginRank env e x) = source_kind x.
Proof.
  unfold IncreasePluginRank.
  now destruct (gst_registry_get env), (gst_element_factory_find env e).
Qed.

Lemma choose_caps_kind (env : GstEnv) (x x' : GstVideoPlayer) (converter caps : string) :
  choose_caps env x = Returns (converter, caps, x') -> source_kind x' = source_kind x.
Proof.
  unfold choose_caps.
  destruct (CheckPluginAvailability env "vapostproc"); [| now intros [= _ _ ->]].
  intros H. apply bind_Returns in H as ([r x1] & H1 & H).
  cbv beta iota zeta in H. injection H as _ _ <-. rewrite !IncreasePluginRank_kind.
  destruct (is_stream_ x); [now apply SetStreamDataFromUrl_kind in H1 | now inversion H1].
Qed.

Lemma CreatePipeline_kind (env : GstEnv) (x x' : GstVideoPlayer) (created : bool) :
  CreatePipeline env x = Returns (created, x') -> source_kind x' = source_kind x.
Proof.
  unfold CreatePipeline. intros H.
  apply bind_Returns in H as ([[converter caps] x1] & H1 & H).
  apply choose_caps_kind in H1. rewrite <- H1. revert H.
  split_tests; intros [= _ <-]; reflexivity.
Qed.

Lemma Preroll_kind (x : GstVideoPlayer) : source_kind (Preroll x) = source_kind x.
Proof. unfold Preroll. now destruct (video_src (gst_ x)). Qed.

Lemma GetVideoSize_kind (negotiated : option (option Z * option Z)) (x : GstVideoPlayer) :
  source_kind (GetVideoSize negotiated x) = source_kind x.
Proof.
  unfold GetVideoSize. destruct (negb (pipeline (gst_ x)) || negb (video_sink (gst_ x)));
    [reflexivity |].
  destruct negotiated as [[[w |] [h |]] |]; reflexivity.
Qed.

Lemma DestroyPipeline_kind (x : GstVideoPlayer) :
  source_kind (DestroyPipeline x) = source_kind x.
Proof.
  unfold DestroyPipeline.
  destruct (video_sink (gst_ x)); simpl; destruct (pipeline (gst_ x)); reflexivity.
Qed.

(** The flags of a constructed player say what the classifier says of
    its identifier. *)
Lemma construct_source_kind (env : Environment) (uri : string) (width0 height0 : Z)
    (x : GstVideoPlayer) :
  construct env uri width0 height0 = Returns x ->
  source_kind x = classify (gst_uri_is_valid env) (gst_filename_to_uri env) uri.
Proof.
  unfold construct, classify. intros H.
  apply bind_Returns in H as (x1 & H1 & H).
  assert (E1 : source_kind x1
               = if negb (Regex.regex_match uri camera_path_regex_)
                 then if IsStreamUri (ParseUri (gst_uri_is_valid env)
                                        (gst_filename_to_uri env) uri)
                      then NetworkStream else LocalFile
                 else Camera).
  { destruct (negb (Regex.regex_match uri camera_path_regex_)); [| now inversion H1].
    revert H1. simpl.
    destruct (IsStreamUri _) eqn:E; simpl; [now intros [= <-] |].
    intros H1. apply CheckInconsistency_kind in H1. rewrite H1.
    reflexivity. }
  rewrite <- E1.
  apply bind_Returns in H as ([created x2] & H2 & H).
  apply CreatePipeline_kind in H2. rewrite <- H2.
  destruct created; simpl in H.
  - apply bind_Returns in H as (px & _ & H). injection H as <-.
    change (source_kind (emit OnNotifyInitialized
              (set_pixels_ (Some px) (GetVideoSize (negotiated_caps env) (Preroll x2)))))
      with (source_kind (GetVideoSize (negotiated_caps env) (Preroll x2))).
    now rewrite GetVideoSize_kind, Preroll_kind.
  - injection H as <-. apply DestroyPipeline_kind.
Qed.

(** The mute rule at sample rates: 0.25 and 3 mute, 0.5, 1 and 2 do
    not, and neither does a NaN, which no comparison holds for. *)
Example mute_thresholds :
  map (fun rate => SFltb rate d_half || SFltb d_two rate)
      [Samples.d_quarter; d_half; d_one; d_two; Samples.d_three; S754_nan]
  = [true; false; false; false; true; false].
Proof. reflexivity. Qed.

End ConstructionFacts.

(** * Further properties of the code *)

(** ** The matcher against the language of a pattern *)

Section RegexSemantics.
Import Regex Classifier.

Lemma app_eq_empty (s1 s2 : string) : s1 +:+ s2 = "" -> s1 = "" /\ s2 = "".
Proof. destruct s1; [simpl; auto | discriminate]. Qed.

Lemma app_eq_String (s1 s2 s : string) (c : ascii) :
  s1 +:+ s2 = String c s ->
  (s1 = "" /\ s2 = String c s) \/ (exists s1', s1 = String c s1' /\ s = s1' +:+ s2).
Proof.
  destruct s1 as [| a s1]; [left; auto |].
  rewrite app_String. intros [= -> <-]. right. eauto.
Qed.

Lemma nullable_lang (r : regex) : nullable r = true <-> lang r "".
Proof.
  split.
  - induction r; simpl; intros H; try discriminate.
    + constructor.
    + apply andb_true_iff in H as [H1 H2].
      change "" with ("" +:+ ""). constructor; auto.
    + apply orb_true_iff in H as [H | H]; [apply lang_Alt_l | apply lang_Alt_r]; auto.
    + constructor.
  - intros H. remember "" as s eqn:E. induction H; simpl; try discriminate; auto.
    + apply app_eq_empty in E as [-> ->]. rewrite IHlang1, IHlang2; auto.
    + rewrite IHlang; auto.
    + rewrite IHlang; auto. apply orb_true_r.
Qed.

Lemma deriv_sound (c : ascii) (r : regex) : forall s, lang (deriv c r) s -> lang r (String c s).
Proof.
  induction r; simpl; intros s H.
  - inversion H.
  - inversion H.
  - destruct (atom_matches a c) eqn:E; inversion H; subst. now constructor.
  - destruct (nullable r1) eqn:E.
    + inversion H as [| | | ? ? ? H' | ? ? ? H' | |]; subst.
      * inversion H'; subst. rewrite <- app_String. constructor; auto.
      * change (String c s) with ("" +:+ String c s). constructor; auto.
        now apply nullable_lang.
    + inversion H; subst. rewrite <- app_String. constructor; auto.
  - inversion H; subst; [apply lang_Alt_l | apply lang_Alt_r]; auto.
  - inversion H; subst. rewrite <- app_String. constructor; auto.
Qed.

Lemma deriv_complete (c : ascii) (r : regex) (t : string) :
  lang r t -> forall s, t = String c s -> lang (deriv c r) s.
Proof.
  induction 1 as [| a d Ha | r1 r2 s1 s2 H1 IH1 H2 IH2 | r1 r2 s0 H1 IH1 | r1 r2 s0 H2 IH2
                  | r1 | r1 s1 s2 H1 IH1 H2 IH2]; intros s E; simpl.
  - discriminate.
  - injection E as -> <-. rewrite Ha. constructor.
  - apply app_eq_String in E as [[-> ->] | (s1' & -> & ->)].
    + apply nullable_lang in H1. rewrite H1. apply lang_Alt_r. now apply IH2.
    + destruct (nullable r1); [apply lang_Alt_l |]; constructor; auto.
  - apply lang_Alt_l. auto.
  - apply lang_Alt_r. auto.
  - discriminate.
  - apply app_eq_String in E as [[-> ->] | (s1' & -> & ->)].
    + now apply IH2.
    + constructor; auto.
Qed.

(** [regex_match] accepts exactly the language of the pattern. *)
Lemma regex_match_lang (s : string) : forall r, regex_match s r = true <-> lang r s.
Proof.
  induction s as [| c s IH]; intros r; simpl.
  - apply nullable_lang.
  - rewrite IH. split; [apply deriv_sound | intros H; now apply (deriv_complete c r _ H)].
Qed.

Lemma lang_lit (p : string) : forall s, lang (lit p) s <-> same_ignoring_case s p = true.
Proof.
  intros s. split; [| intros H; apply regex_match_lang; now apply regex_match_lit].
  revert s. induction p as [| c p IH]; intros s H; simpl in H.
  - now inversion H.
  - inversion H as [| | ? ? s1 s2 H1 H2 | | | |]; subst.
    inversion H1; subst. rewrite app_String. simpl.
    match goal with Hm : atom_matches _ _ = true |- _ => simpl in Hm; rewrite Hm end.
    now apply IH.
Qed.

Lemma no_line_break_app (s1 s2 : string) :
  no_line_break (s1 +:+ s2) = no_line_break s1 && no_line_break s2.
Proof.
  induction s1 as [| c s1 IH]; [reflexivity |].
  rewrite app_String. simpl. rewrite IH. now rewrite andb_assoc.
Qed.

Lemma lang_any (s : string) : lang (Star (Atom Dot)) s <-> no_line_break s = true.
Proof.
  split; [| intros H; apply regex_match_lang; now apply regex_match_any].
  intros H. remember (Star (Atom Dot)) as r eqn:E.
  induction H; try discriminate; [reflexivity |].
  injection E as ->. rewrite no_line_break_app, IHlang2 by reflexivity.
  inversion H; subst. simpl in *.
  match goal with Hm : _ = true |- _ => now rewrite Hm end.
Qed.

Lemma lang_one_of (candidates : list string) (r : regex) (s : string) :
  (forall t, lang r t <-> is_one_of candidates t = true) ->
  forall p, lang (Alt (lit p) r) s <-> is_one_of (p :: candidates) s = true.
Proof.
  intros Hr p. rewrite is_one_of_cons, orb_true_iff, <- Hr, <- lang_lit.
  split; [intros H; inversion H; subst; auto | intros [H | H]; [apply lang_Alt_l | apply lang_Alt_r]; auto].
Qed.

Lemma lang_last_of (p : string) (s : string) :
  lang (lit p) s <-> is_one_of [p] s = true.
Proof. rewrite lang_lit. unfold is_one_of; simpl. now rewrite orb_false_r. Qed.

End RegexSemantics.

(** ** What the classifier recognises, exactly *)

Section ClassifierExact.
Import Regex Classifier.

Lemma colon_only (a : ascii) : Ascii.eqb (tolower a) (tolower ":") = true -> a = ":"%char.
Proof. destruct a as [[] [] [] [] [] [] [] []]; vm_compute; congruence. Qed.

Lemma slash_only (a : ascii) : Ascii.eqb (tolower a) (tolower "/") = true -> a = "/"%char.
Proof. destruct a as [[] [] [] [] [] [] [] []]; vm_compute; congruence. Qed.

Lemma separator_only (s : string) : same_ignoring_case s "://" = true -> s = "://".
Proof.
  destruct s as [| a [| b [| c [| d s]]]]; simpl; try discriminate.
  all: rewrite ?andb_false_r, ?andb_true_r; try discriminate.
  rewrite !andb_true_iff. intros (Ha & Hb & Hc).
  apply colon_only in Ha. apply slash_only in Hb, Hc. now subst.
Qed.

Lemma range_is_digit (d : ascii) : atom_matches (Range "0" "9") d = is_digit d.
Proof. destruct d as [[] [] [] [] [] [] [] []]; reflexivity. Qed.

Lemma lang_stream_schemes (s : string) :
  lang (Alt (lit "rtp") (Alt (lit "rtmp") (Alt (lit "rtcp") (Alt (lit "rtsp") (lit "udp"))))) s
  <-> is_one_of stream_schemes s = true.
Proof.
  unfold stream_schemes.
  apply lang_one_of. intros t1. apply lang_one_of. intros t2. apply lang_one_of.
  intros t3. apply lang_one_of. intros t4. apply lang_last_of.
Qed.

Lemma lang_http_schemes (s : string) :
  lang (Alt (lit "http") (lit "https")) s <-> is_one_of http_schemes s = true.
Proof. unfold http_schemes. apply lang_one_of. intros t. apply lang_last_of. Qed.

Lemma lang_dot_then (p e : string) :
  lang (Cat (Atom Dot) (lit p)) e
  <-> exists c ext, e = String c ext /\ not_line_break c = true
                    /\ same_ignoring_case ext p = true.
Proof.
  split.
  - intros H. inversion H as [| | ? ? s1 s2 H1 H2 | | | |]; subst.
    inversion H1; subst. rewrite app_String. apply lang_lit in H2. eauto.
  - intros (c & ext & -> & Hc & He). change (String c ext) with (String c "" +:+ ext).
    constructor; [now constructor | now apply lang_lit].
Qed.

Lemma lang_extension (e : string) :
  lang (Alt (Cat (Atom Dot) (lit "m3u8")) (Cat (Atom Dot) (lit "flv"))) e
  <-> exists c ext, e = String c ext /\ not_line_break c = true
                    /\ is_one_of bare_extensions ext = true.
Proof.
  unfold bare_extensions, is_one_of. simpl existsb. split.
  - intros H. inversion H as [| | | ? ? ? Hd | ? ? ? Hd | |]; subst;
      [apply (proj1 (lang_dot_then "m3u8" _)) in Hd
      | apply (proj1 (lang_dot_then "flv" _)) in Hd];
      destruct Hd as (c & ext & -> & Hc & He);
      exists c, ext; rewrite He, ?orb_true_r; auto.
  - intros (c & ext & -> & Hc & He). rewrite orb_false_r in He.
    apply orb_true_iff in He as [He | He]; [apply lang_Alt_l | apply lang_Alt_r];
      apply lang_dot_then; eauto.
Qed.

Lemma stream_type_regex_exact (s : string) :
  regex_match s stream_type_regex_ = true <-> scheme_shape s.
Proof.
  rewrite regex_match_lang. unfold stream_type_regex_, scheme_shape. split.
  - intros H. inversion H as [| | ? ? scheme s2 H1 H2 | | | |]; subst.
    inversion H2 as [| | ? ? sep rest H3 H4 | | | |]; subst.
    apply lang_stream_schemes in H1. apply (proj1 (lang_lit "://" _)), separator_only in H3. subst sep.
    apply lang_any in H4. eauto.
  - intros (scheme & rest & -> & Hs & Hr).
    constructor; [now apply lang_stream_schemes |].
    constructor; [now apply lang_lit | now apply lang_any].
Qed.

Lemma stream_ext_regex_exact (s : string) :
  regex_match s stream_ext_regex_ = true <-> extension_shape s.
Proof.
  rewrite regex_match_lang. unfold stream_ext_regex_, extension_shape. split.
  - intros H. inversion H as [| | ? ? scheme s2 H1 H2 | | | |]; subst.
    inversion H2 as [| | ? ? sep s3 H3 H4 | | | |]; subst.
    inversion H4 as [| | ? ? middle e H5 H6 | | | |]; subst.
    apply lang_http_schemes in H1. apply (proj1 (lang_lit "://" _)), separator_only in H3. subst sep.
    apply lang_any in H5. apply lang_extension in H6 as (c & ext & -> & Hc & He).
    exists scheme, middle, c, ext. auto.
  - intros (scheme & middle & c & ext & -> & Hs & Hm & Hc & He).
    constructor; [now apply lang_http_schemes |].
    constructor; [now apply lang_lit |].
    constructor; [now apply lang_any | apply lang_extension; eauto].
Qed.

Lemma camera_path_regex_exact (s : string) :
  regex_match s camera_path_regex_ = true <-> camera_shape s.
Proof.
  rewrite regex_match_lang. unfold camera_path_regex_, camera_shape. split.
  - intros H. inversion H as [| | ? ? path s2 H1 H2 | | | |]; subst.
    inversion H2; subst. apply (proj1 (lang_lit "/dev/video" _)) in H1.
    match goal with Hm : atom_matches _ _ = true |- _ => rewrite range_is_digit in Hm end.
    eauto.
  - intros (path & d & -> & Hp & Hd).
    constructor; [now apply lang_lit |]. constructor. now rewrite range_is_digit.
Qed.

(** X1: [IsStreamUri] holds exactly for the identifiers that consist of
    one of the schemes rtp, rtmp, rtcp, rtsp, udp (in any case), [://]
    and a rest without line break, or of http or https, [://], a middle
    part without line break, one further character that is no line
    break (the unescaped dot of the pattern), and [m3u8] or [flv] in any
    case; and an identifier is classified as a network stream exactly
    when it is no camera path and [ParseUri] turns it into one of
    these. *)
Theorem IsStreamUri_exact :
  (forall s, IsStreamUri s = true <-> scheme_shape s \/ extension_shape s)
  /\ (forall valid to_uri s,
        classify valid to_uri s = NetworkStream
        <-> ~ camera_shape s
            /\ (scheme_shape (ParseUri valid to_uri s)
                \/ extension_shape (ParseUri valid to_uri s))).
Proof.
  assert (Hstream : forall s, IsStreamUri s = true <-> scheme_shape s \/ extension_shape s).
  { intros s. unfold IsStreamUri.
    rewrite orb_true_iff, stream_type_regex_exact, stream_ext_regex_exact. reflexivity. }
  split; [exact Hstream |].
  intros valid to_uri s. rewrite <- Hstream, <- camera_path_regex_exact. unfold classify.
  destruct (regex_match s camera_path_regex_); simpl.
  - split; [discriminate | intros [H _]; now destruct H].
  - destruct (IsStreamUri (ParseUri valid to_uri s)); split; try discriminate; auto.
    intros [_ H]. discriminate.
Qed.

(** X2: an identifier is classified as a camera exactly when it is
    [/dev/video], in any case, followed by one decimal digit, whatever
    the engine thinks of it as a URI; and a player that comes out of the
    constructor has the camera flag exactly for these identifiers. *)
Theorem camera_classification_exact :
  (forall valid to_uri s, classify valid to_uri s = Camera <-> camera_shape s)
  /\ (forall env uri width0 height0 x,
        Player.construct env uri width0 height0 = Returns x ->
        (Player.is_camera_ x = true <-> camera_shape uri)).
Proof.
  assert (Hcam : forall valid to_uri s, classify valid to_uri s = Camera <-> camera_shape s).
  { intros valid to_uri s. rewrite <- camera_path_regex_exact. unfold classify.
    destruct (regex_match s camera_path_regex_); simpl; [tauto |].
    destruct (IsStreamUri _); split; discriminate. }
  split; [exact Hcam |].
  intros env uri width0 height0 x Hx. apply construct_source_kind in Hx.
  rewrite <- (Hcam (Player.gst_uri_is_valid env) (Player.gst_filename_to_uri env)), <- Hx.
  unfold Player.source_kind.
  destruct (Player.is_camera_ x); [tauto |].
  destruct (Player.is_stream_ x); split; discriminate.
Qed.

Lemma camera_classification_exact_witness :
  Player.is_camera_ Samples.camera_player = true <-> camera_shape "/dev/video0".
Proof.
  apply (proj2 camera_classification_exact (Samples.machine 1920 1080) "/dev/video0" 0 0).
  reflexivity.
Defined.

End ClassifierExact.

(** ** More on the resolution catalog *)

Section CatalogMore.
Import Catalog.

(** X3: [NormalizeResolutionValue] never throws; its result is not
    defined exactly for requests above 3480; it is monotone; a value it
    returns is mapped to itself; and the values the probe finds in the
    catalog are exactly those it maps to themselves. *)
Theorem normalize_defined_monotone_idempotent :
  (forall v, NormalizeResolutionValue v = Undefined <-> 3480 < v)
  /\ (forall v what, NormalizeResolutionValue v <> Throws what)
  /\ (forall v, NormalizeResolutionValue v <> Hangs)
  /\ (forall v1 v2 r1 r2,
        v1 <= v2 ->
        NormalizeResolutionValue v1 = Returns r1 ->
        NormalizeResolutionValue v2 = Returns r2 ->
        r1 <= r2)
  /\ (forall v r,
        NormalizeResolutionValue v = Returns r -> NormalizeResolutionValue r = Returns r)
  /\ (forall v, find_in resolution_values_ v = true <-> NormalizeResolutionValue v = Returns v).
Proof.
  split; [| split; [| split; [| split; [| split]]]].
  - intros v. split; [| apply NormalizeResolutionValue_beyond].
    rewrite NormalizeResolutionValue_cases.
    repeat case Z.leb_spec; intros; try lia; discriminate.
  - intros v what. rewrite NormalizeResolutionValue_cases.
    repeat case Z.leb_spec; intros; discriminate.
  - intros v. rewrite NormalizeResolutionValue_cases.
    repeat case Z.leb_spec; intros; discriminate.
  - intros v1 v2 r1 r2 Hle. rewrite !NormalizeResolutionValue_cases.
    repeat case Z.leb_spec; intros; try lia; try discriminate;
      repeat match goal with H : Returns _ = Returns _ |- _ => injection H as <- end; lia.
  - intros v r. rewrite !NormalizeResolutionValue_cases.
    repeat case Z.leb_spec; intros; try lia; try discriminate;
      repeat match goal with H : Returns _ = Returns _ |- _ => injection H as <- end;
      try lia; reflexivity.
  - intros v. rewrite NormalizeResolutionValue_cases. unfold resolution_values_, find_in.
    split.
    + repeat case Z.eqb_spec; repeat case Z.leb_spec; intros; subst; try lia;
        try discriminate; reflexivity.
    + repeat case Z.eqb_spec; repeat case Z.leb_spec; intros; subst; try lia;
        try discriminate; try reflexivity;
        match goal with H : Returns _ = Returns _ |- _ => injection H; lia end.
Qed.

Lemma normalize_defined_monotone_idempotent_witness :
  NormalizeResolutionValue 3481 = Undefined
  /\ NormalizeResolutionValue 2160 = Returns 2160
  /\ find_in resolution_values_ 1088 = false.
Proof.
  destruct normalize_defined_monotone_idempotent as (Hundef & _ & _ & _ & Hidem & Hfix).
  split; [apply Hundef; lia |]. split; [apply (Hidem 2000); reflexivity |].
  destruct (find_in resolution_values_ 1088) eqn:E; [| reflexivity].
  apply Hfix in E. discriminate.
Defined.

(** X4: on any ascending vector the binary search of
    [std::lower_bound] stops at the first element that is not below the
    value sought: the element there, if there is one, is not below the
    value and no element before it reaches the value; and if there is
    none, every element is below the value. *)
Theorem lower_bound_on_ascending (v : list Z) (val : Z)
    (Hsorted : forall i j, (i <= j < length v)%nat -> nth i v 0 <= nth j v 0) :
  match nth_error v (lower_bound v val) with
  | Some r =>
      val <= r
      /\ (forall j, (j < lower_bound v val)%nat -> nth j v 0 < val)
      /\ (forall c, In c v -> val <= c -> r <= c)
  | None => forall c, In c v -> c < val
  end.
Proof.
  destruct (lower_bound_loop_partition v val Hsorted (length v) 0 (length v))
    as (Hr & Hl & Hu); try lia.
  fold (lower_bound v val) in Hr, Hl, Hu.
  destruct (nth_error v (lower_bound v val)) as [r |] eqn:E.
  - assert (Hlt : (lower_bound v val < length v)%nat)
      by (apply nth_error_Some; congruence).
    assert (Hnth : nth (lower_bound v val) v 0 = r) by now apply nth_error_nth.
    split; [rewrite <- Hnth; apply Hu; lia |]. split; [exact Hl |].
    intros c Hc Hval. apply (In_nth _ _ 0) in Hc as (j & Hj & <-).
    destruct (Nat.lt_ge_cases j (lower_bound v val)) as [Hjl | Hjg].
    + specialize (Hl j Hjl). lia.
    + rewrite <- Hnth. apply Hsorted. lia.
  - apply nth_error_None in E. intros c Hc.
    apply (In_nth _ _ 0) in Hc as (j & Hj & <-). apply Hl. lia.
Qed.

Lemma lower_bound_on_ascending_witness :
  match nth_error resolution_values_ (lower_bound resolution_values_ 2000) with
  | Some r =>
      2000 <= r
      /\ (forall j, (j < lower_bound resolution_values_ 2000)%nat
                    -> nth j resolution_values_ 0 < 2000)
      /\ (forall c, In c resolution_values_ -> 2000 <= c -> r <= c)
  | None => forall c, In c resolution_values_ -> c < 2000
  end.
Proof.
  apply lower_bound_on_ascending.
  intros i j Hij. unfold resolution_values_ in *. simpl in Hij.
  destruct i as [| [| [| [| i]]]], j as [| [| [| [| j]]]]; simpl; lia.
Defined.

End CatalogMore.

(** ** More on the preflight probe *)

Section ProbeMore.
Import Player Classifier.

Lemma probe_streams_first_video (ss : list AVStream) (x : GstVideoPlayer) :
  probe_streams ss x =
    match first_video ss with
    | None => Returns x
    | Some s =>
        if decoder_ready s then
          if send_until_accepted (packets_accepted s)
          then Returns (check_coded_size s x)
          else Hangs
        else Returns x
    end.
Proof.
  induction ss as [| s ss IH]; simpl; [reflexivity |].
  destruct (codec_is_video s); [| exact IH]. unfold decoder_ready.
  destruct (decoder_found s), (codec_context_allocated s), (parameters_copied s),
    (codec_opened s), (packet_allocated s); reflexivity.
Qed.

Lemma CheckInconsistency_cases (input : AVInput) (x : GstVideoPlayer) :
  CheckInconsistency input x =
    if container_ready input then
      match first_video (streams input) with
      | None => Returns x
      | Some s =>
          if decoder_ready s then
            if send_until_accepted (packets_accepted s)
            then Returns (check_coded_size s x)
            else Hangs
          else Returns x
      end
    else Returns x.
Proof.
  unfold CheckInconsistency, container_ready. rewrite probe_streams_first_video.
  destruct (format_context_allocated input), (input_opened input),
    (stream_info_found input); reflexivity.
Qed.



(** X6: the probe never throws; when a step before the packet loop fails
    (the container does not open, the first video stream has no decoder
    or its decoder cannot be set up), or when both coded dimensions are
    catalog values, it returns the player untouched; and whenever it
    returns, it has changed nothing, or it has set the inconsistency flag
    and one of the two hints 16/9 and 9/16 and nothing else. *)
Theorem probe_only_sets_hint :
  (forall input x,
     container_ready input = false
     \/ (exists s, first_video (streams input) = Some s /\ decoder_ready s = false)
     \/ (exists s, first_video (streams input) = Some s
                   /\ send_until_accepted (packets_accepted s) = true
                   /\ Catalog.find_in Catalog.resolution_values_ (coded_width s) = true
                   /\ Catalog.find_in Catalog.resolution_values_ (coded_height s) = true) ->
     CheckInconsistency input x = Returns x)
  /\ (forall input x,
        CheckInconsistency input x = Hangs
        \/ exists x',
             CheckInconsistency input x = Returns x'
             /\ (x' = x
                 \/ x' = set_aspect_ratio_ "16/9" (set_is_inconsistent_ true x)
                 \/ x' = set_aspect_ratio_ "9/16" (set_is_inconsistent_ true x))).
Proof.
  split.
  - intros input x H. rewrite CheckInconsistency_cases.
    destruct H as [-> | [(s & -> & Hs) | (s & -> & Hp & Hw & Hh)]]; [reflexivity | |].
    + rewrite Hs. now destruct (container_ready input).
    + rewrite Hp, (check_coded_size_present s x Hw Hh).
      now destruct (container_ready input), (decoder_ready s).
  - intros input x. rewrite CheckInconsistency_cases.
    destruct (container_ready input); [| right; eauto].
    destruct (first_video (streams input)) as [s |]; [| right; eauto].
    destruct (decoder_ready s); [| right; eauto].
    destruct (send_until_accepted (packets_accepted s)); [| now left].
    right. eexists. split; [reflexivity |]. unfold check_coded_size.
    destruct (_ || _); [| now left].
    destruct (coded_height s >? coded_width s); auto.
Qed.

Lemma probe_only_sets_hint_witness :
  CheckInconsistency (Samples.container [Samples.undecodable_stream]) (initial 0 0)
  = Returns (initial 0 0).
Proof.
  apply (proj1 probe_only_sets_hint). right. left.
  exists Samples.undecodable_stream. split; reflexivity.
Defined.

(** X7: when the identifier is a local file whose container opens, whose
    first video stream gets a decoder, and none of whose packets the
    decoder accepts, the packet loop of the probe does not end and the
    constructor does not return. *)
Theorem probe_hang_blocks_constructor (env : Environment) (uri : string)
    (width0 height0 : Z) (s : AVStream) :
  classify (gst_uri_is_valid env) (gst_filename_to_uri env) uri = LocalFile ->
  container_ready (av_input env uri) = true ->
  first_video (streams (av_input env uri)) = Some s ->
  decoder_ready s = true ->
  send_until_accepted (packets_accepted s) = false ->
  construct env uri width0 height0 = Hangs.
Proof.
  intros Hkind Hc Hv Hd Hp. unfold classify in Hkind. unfold construct.
  destruct (negb (Regex.regex_match uri camera_path_regex_)); [| discriminate].
  cbn [set_uri_ set_is_stream_ is_stream_ uri_].
  destruct (IsStreamUri _); [discriminate |]. cbn [negb].
  now rewrite CheckInconsistency_cases, Hc, Hv, Hd, Hp.
Qed.

Lemma probe_hang_blocks_constructor_witness :
  construct Samples.stuck_machine "/home/user/clip.mp4" 0 0 = Hangs.
Proof.
  apply (probe_hang_blocks_constructor Samples.stuck_machine "/home/user/clip.mp4" 0 0
           Samples.stuck_stream); reflexivity.
Defined.

(** X8: the probe runs for local files only: for an identifier that is
    classified as a camera or as a network stream, what the constructor
    does is the same whatever libav would find. *)
Theorem remote_sources_skip_probe (env : Environment) (f : string -> AVInput)
    (uri : string) (width0 height0 : Z) :
  classify (gst_uri_is_valid env) (gst_filename_to_uri env) uri <> LocalFile ->
  construct (with_av_input f env) uri width0 height0 = construct env uri width0 height0.
Proof.
  intros Hkind. unfold classify in Hkind. unfold construct, with_av_input.
  cbn [gst_uri_is_valid gst_filename_to_uri av_input gst_env negotiated_caps].
  destruct (negb (Regex.regex_match uri camera_path_regex_)); [| reflexivity].
  cbn [set_uri_ set_is_stream_ is_stream_ uri_].
  destruct (IsStreamUri _); [reflexivity | congruence].
Qed.

Lemma remote_sources_skip_probe_witness :
  construct Samples.stuck_machine "rtsp://host/live?w=1000&h=3000&o=l" 0 0
  = construct (Samples.machine 1920 1080) "rtsp://host/live?w=1000&h=3000&o=l" 0 0.
Proof.
  apply (remote_sources_skip_probe (Samples.machine 1920 1080)). discriminate.
Defined.

End ProbeMore.

(** ** More on the pipeline builder *)

Section PipelineMore.
Import StdString Url Catalog Player Classifier Session.

Lemma last_index_of_some (c : ascii) (s : string) :
  last_index_of c s = None -> index_of c s = None.
Proof.
  induction s as [| x s IH]; simpl; [reflexivity |].
  destruct (last_index_of c s); [discriminate |].
  destruct (Ascii.eqb x c); [discriminate |]. intros _. now rewrite IH.
Qed.

Lemma last_index_of_bound (c : ascii) (s : string) (k : nat) :
  last_index_of c s = Some k -> (k < String.length s)%nat.
Proof.
  revert k. induction s as [| x s IH]; intros k; simpl; [discriminate |].
  destruct (last_index_of c s) as [j |].
  - intros [= <-]. specialize (IH j eq_refl). lia.
  - destruct (Ascii.eqb x c); [intros [= <-]; lia | discriminate].
Qed.

(** The first part of [CreatePipeline] on the accelerated path, by what
    [SetStreamDataFromUrl] says. *)
Lemma choose_caps_accelerated (env : GstEnv) (x : GstVideoPlayer) :
  CheckPluginAvailability env "vapostproc" = true ->
  choose_caps env x =
    '(from_url, x1) ←
      (if is_stream_ x then SetStreamDataFromUrl (uri_ x) x else Returns (false, x));
    Returns ("vapostproc",
             if from_url : bool
             then stream_caps (width_ x1) (height_ x1)
             else accelerated_caps x,
             set_trace (trace x1 ++ rank_requests env) x1).
Proof.
  intros Hva. unfold choose_caps. rewrite Hva.
  destruct (if is_stream_ x then _ else _) as [[r x1] | | |];
    cbv beta iota delta [mbind outcome_bind]; try reflexivity.
  rewrite rank_fold. unfold stream_caps, accelerated_caps.
  destruct r, (is_inconsistent_ x); reflexivity.
Qed.

(** [SetStreamDataFromUrl] changes [width_], [height_] and
    [aspect_ratio_] and nothing else. *)
Lemma SetStreamDataFromUrl_changes (uri : string) (x x' : GstVideoPlayer) (r : bool) :
  SetStreamDataFromUrl uri x = Returns (r, x') ->
  x' = set_aspect_ratio_ (aspect_ratio_ x') (set_height_ (height_ x')
         (set_width_ (width_ x') x)).
Proof.
  unfold SetStreamDataFromUrl. intros H.
  apply bind_Returns in H as ([params |] & _ & H); [| injection H as _ <-; now destruct x].
  apply bind_Returns in H as (x1 & H1 & H).
  apply bind_Returns in H as (x2 & H2 & H).
  assert (E1 : x1 = set_width_ (width_ x1) x).
  { destruct (params !! "w"); [| injection H1 as <-; now destruct x].
    apply bind_Returns in H1 as (v & _ & H1).
    apply bind_Returns in H1 as (n & _ & H1). now injection H1 as <-. }
  assert (E2 : x2 = set_height_ (height_ x2) x1).
  { destruct (params !! "h"); [| injection H2 as <-; now destruct x1].
    apply bind_Returns in H2 as (v & _ & H2).
    apply bind_Returns in H2 as (n & _ & H2). now injection H2 as <-. }
  injection H as _ <-. rewrite E2, E1.
  destruct (params !! "o") as [o |]; [destruct (String.eqb o "l") |]; reflexivity.
Qed.

Lemma SetStreamDataFromUrl_no_query (uri : string) (x : GstVideoPlayer) :
  lacks "?" uri = true -> SetStreamDataFromUrl uri x = Returns (false, x).
Proof.
  intros H. apply lacks_None, last_index_of_none in H.
  unfold SetStreamDataFromUrl, parse_params, find_last_of. now rewrite H.
Qed.

(** X9: the scan of the URL always comes to an end and never reads
    outside the string, whatever the URL is; a URL without a question
    mark makes [SetStreamDataFromUrl] return [false] with the player
    untouched; with a question mark it returns [true] whenever it
    returns, however few parameters were found. *)
Theorem url_scan_always_returns (uri : string) (x : GstVideoPlayer)
    (Hsize : size uri < npos) :
  (exists table, parse_params uri = Returns table)
  /\ (lacks "?" uri = true -> SetStreamDataFromUrl uri x = Returns (false, x))
  /\ (lacks "?" uri = false ->
      forall r x', SetStreamDataFromUrl uri x = Returns (r, x') -> r = true).
Proof.
  split; [now apply parse_params_returns |]. split.
  - intros H. apply lacks_None, last_index_of_none in H.
    unfold SetStreamDataFromUrl, parse_params, find_last_of. now rewrite H.
  - intros H r x' Hrun. unfold SetStreamDataFromUrl in Hrun.
    apply bind_Returns in Hrun as ([params |] & Hparse & Hrun).
    + apply bind_Returns in Hrun as (x1 & _ & Hrun).
      apply bind_Returns in Hrun as (x2 & _ & Hrun). now injection Hrun as <- _.
    + exfalso. unfold parse_params, find_last_of in Hparse.
      destruct (last_index_of "?" uri) as [k |] eqn:E.
      * apply last_index_of_bound in E.
        assert (Hne : (Z.of_nat k =? npos) = false)
          by (apply Z.eqb_neq; unfold size in Hsize; lia).
        rewrite Hne in Hparse. apply bind_Returns in Hparse as (t & _ & Hparse).
        discriminate.
      * apply last_index_of_some in E. unfold lacks in H. now rewrite E in H.
Qed.

Lemma url_scan_always_returns_witness :
  SetStreamDataFromUrl "rtsp://host/live" Samples.plain_stream
  = Returns (false, Samples.plain_stream).
Proof.
  apply (url_scan_always_returns "rtsp://host/live" Samples.plain_stream); reflexivity.
Defined.

(** X10: a stream URL with a single parameter and no [&] has that
    parameter dropped: [SetStreamDataFromUrl] returns [true] and leaves
    the player as it is, and on the accelerated path the caps are then
    built from whatever [width_] and [height_] held before. *)
Theorem single_parameter_dropped (env : GstEnv) (x : GstVideoPlayer)
    (base : string) (kv : string * string) :
  source_kind x = NetworkStream ->
  CheckPluginAvailability env "vapostproc" = true ->
  uri_ x = base +:+ "?" +:+ segment kv ->
  plain_pair kv = true ->
  size (uri_ x) < npos ->
  SetStreamDataFromUrl (uri_ x) x = Returns (true, x)
  /\ exists x',
       CreatePipeline env x = Returns (engine_provides env "playbin3" "vapostproc", x')
       /\ width_ x' = width_ x /\ height_ x' = height_ x
       /\ (engine_provides env "playbin3" "vapostproc" = true ->
           caps_of (trace x') = Some (stream_caps (width_ x) (height_ x))).
Proof.
  intros Hkind Hva Huri Hplain Hsize.
  assert (Hflags : is_camera_ x = false /\ is_stream_ x = true).
  { unfold source_kind in Hkind. destruct (is_camera_ x), (is_stream_ x); auto; discriminate. }
  destruct Hflags as [Hcam Hstream].
  assert (Hset : SetStreamDataFromUrl (uri_ x) x = Returns (true, x)).
  { unfold SetStreamDataFromUrl. rewrite Huri in *.
    rewrite (parse_params_single base kv Hplain Hsize). simpl.
    rewrite !lookup_empty. reflexivity. }
  split; [exact Hset |].
  pose proof (choose_caps_accelerated env x Hva) as Hchoose.
  rewrite Hstream, Hset in Hchoose. simpl in Hchoose.
  destruct (CreatePipeline_result env x _ _ _ Hchoose) as (x' & Hrun & Htrace & _ & Hrest).
  simpl in Hrun, Htrace. rewrite Hcam in Hrun, Htrace.
  exists x'. split; [exact Hrun |].
  assert (Hw : width_ x' = width_ x /\ height_ x' = height_ x).
  { apply (f_equal width_) in Hrest as Hw. apply (f_equal height_) in Hrest as Hh.
    simpl in Hw, Hh. auto. }
  destruct Hw as [Hw Hh]. repeat split; try assumption.
  intros Hok. rewrite Htrace, Hok, caps_of_app, caps_of_configuration. reflexivity.
Qed.

Lemma single_parameter_dropped_witness :
  SetStreamDataFromUrl (uri_ Samples.one_parameter_stream) Samples.one_parameter_stream
  = Returns (true, Samples.one_parameter_stream).
Proof.
  apply (single_parameter_dropped Samples.accelerated Samples.one_parameter_stream
           "rtsp://host/live" ("w", "1000")); reflexivity.
Defined.

(** X11: with at least two plain parameters in the URL, a member whose
    parameter is missing keeps its value, [aspect_ratio_] becomes 16/9
    for the orientation [l] (lower case, nothing else) and 9/16 for any
    other orientation, and when neither width nor height is given the
    call returns [true]. *)
Theorem missing_parameters_keep_members (x : GstVideoPlayer) (base : string)
    (pairs : list (string * string)) (uri : string) :
  uri = base +:+ "?" +:+ query_string pairs ->
  size uri < npos ->
  (2 <= length pairs)%nat ->
  forallb plain_pair pairs = true ->
  (forall r x',
     SetStreamDataFromUrl uri x = Returns (r, x') ->
     (first_value "w" pairs = None -> width_ x' = width_ x)
     /\ (first_value "h" pairs = None -> height_ x' = height_ x)
     /\ aspect_ratio_ x' = match first_value "o" pairs with
                           | Some o => if String.eqb o "l" then "16/9" else "9/16"
                           | None => aspect_ratio_ x
                           end)
  /\ (first_value "w" pairs = None ->
      first_value "h" pairs = None ->
      exists x', SetStreamDataFromUrl uri x = Returns (true, x')).
Proof.
  intros -> Hsize Hlen Hplain.
  destruct (parse_params_lookup base pairs "w" Hlen Hplain Hsize) as (params & Hparse & Hget).
  split.
  - intros r x' Hrun. unfold SetStreamDataFromUrl in Hrun. rewrite Hparse in Hrun.
    simpl in Hrun. rewrite !Hget in Hrun.
    apply bind_Returns in Hrun as (x1 & H1 & Hrun).
    apply bind_Returns in Hrun as (x2 & H2 & Hrun).
    injection Hrun as _ <-.
    assert (E1 : (first_value "w" pairs = None -> width_ x1 = width_ x)
                 /\ height_ x1 = height_ x /\ aspect_ratio_ x1 = aspect_ratio_ x).
    { destruct (first_value "w" pairs); [| injection H1 as <-; auto].
      apply bind_Returns in H1 as (v & _ & H1).
      apply bind_Returns in H1 as (n & _ & H1). injection H1 as <-.
      repeat split. discriminate. }
    assert (E2 : width_ x2 = width_ x1
                 /\ (first_value "h" pairs = None -> height_ x2 = height_ x1)
                 /\ aspect_ratio_ x2 = aspect_ratio_ x1).
    { destruct (first_value "h" pairs); [| injection H2 as <-; auto].
      apply bind_Returns in H2 as (v & _ & H2).
      apply bind_Returns in H2 as (n & _ & H2). injection H2 as <-.
      repeat split. discriminate. }
    destruct E1 as (Ew1 & Eh1 & Ea1), E2 as (Ew2 & Eh2 & Ea2).
    destruct (first_value "o" pairs) as [o |]; [destruct (String.eqb o "l") |]; simpl;
      (split; [intros Hn; rewrite Ew2; auto |]);
      (split; [intros Hn; rewrite Eh2, Eh1; auto |]); congruence.
  - intros Hw Hh. unfold SetStreamDataFromUrl. rewrite Hparse. simpl.
    rewrite !Hget, Hw, Hh. simpl. eauto.
Qed.

Lemma missing_parameters_keep_members_witness :
  exists x',
    SetStreamDataFromUrl "rtsp://host/live?o=p&x=1" Samples.orientation_only_stream
    = Returns (true, x').
Proof.
  apply (proj2 (missing_parameters_keep_members Samples.orientation_only_stream
                  "rtsp://host/live" [("o", "p"); ("x", "1")] "rtsp://host/live?o=p&x=1"
                  eq_refl eq_refl ltac:(simpl; lia) eq_refl));
    reflexivity.
Defined.

(** X12: on the accelerated path a width parameter that [stoi] cannot
    read makes [CreatePipeline] throw what [stoi] throws, and one that
    reads as more than 3480 leaves its behaviour undefined; a value that
    starts with a character which is no white space, no sign and no
    digit is one that [stoi] cannot read. *)
Theorem unreadable_size_escapes (env : GstEnv) (x : GstVideoPlayer)
    (base : string) (pairs : list (string * string)) (W : string) :
  source_kind x = NetworkStream ->
  CheckPluginAvailability env "vapostproc" = true ->
  uri_ x = base +:+ "?" +:+ query_string pairs ->
  size (uri_ x) < npos ->
  (2 <= length pairs)%nat ->
  forallb plain_pair pairs = true ->
  first_value "w" pairs = Some W ->
  (forall what, stoi W = Throws what -> CreatePipeline env x = Throws what)
  /\ (forall v, stoi W = Returns v -> 3480 < v -> CreatePipeline env x = Undefined)
  /\ (forall c rest,
        W = String c rest ->
        isspace c = false -> c <> "-"%char -> c <> "+"%char -> digit_value c = None ->
        stoi W = Throws "invalid_argument").
Proof.
  intros Hkind Hva Huri Hsize Hlen Hplain Hw.
  assert (Hstream : is_stream_ x = true).
  { unfold source_kind in Hkind. destruct (is_camera_ x), (is_stream_ x); auto; discriminate. }
  rewrite Huri in Hsize.
  destruct (parse_params_lookup base pairs "w" Hlen Hplain Hsize) as (params & Hparse & Hget).
  rewrite <- Huri in Hparse.
  assert (Hrun : forall o : outcome Z,
            (forall v, o <> Returns v) ->
            (v ← stoi W; Catalog.NormalizeResolutionValue v) = o ->
            CreatePipeline env x = match o with
                                   | Throws what => Throws what
                                   | Undefined => Undefined
                                   | _ => Hangs
                                   end).
  { intros o Hno Ho. unfold CreatePipeline. rewrite (choose_caps_accelerated env x Hva).
    rewrite Hstream. unfold SetStreamDataFromUrl. rewrite Hparse. simpl.
    rewrite !Hget, Hw. simpl.
    destruct (stoi W) as [v | | |]; simpl in *;
      [destruct (NormalizeResolutionValue v) as [n | | |] eqn:En; simpl in *;
       subst o; try reflexivity; now destruct (Hno n)
      | subst o; reflexivity.. ]. }
  split; [| split].
  - intros what HW. apply (Hrun (Throws what)); [discriminate | now rewrite HW].
  - intros v HW Hv. apply (Hrun Undefined); [discriminate |].
    rewrite HW. simpl. now apply NormalizeResolutionValue_beyond.
  - intros c rest -> Hspace Hminus Hplus Hdigit. unfold stoi. simpl. rewrite Hspace.
    destruct (Ascii.eqb_spec c "-"); [contradiction |].
    destruct (Ascii.eqb_spec c "+"); [contradiction |].
    assert (E : (let '(negative, s2) :=
                   match String c rest with
                   | String "-"%char r => (true, r)
                   | String "+"%char r => (false, r)
                   | _ => (false, String c rest)
                   end in
                 let '(count, magnitude) := read_digits s2 0 0 in
                 match count with
                 | O => Throws "invalid_argument"
                 | S _ => if (INT_MIN <=? (if negative then - magnitude else magnitude))
                             && ((if negative then - magnitude else magnitude) <=? INT_MAX)
                          then Returns (if negative then - magnitude else magnitude)
                          else Throws "out_of_range"
                 end) = Throws "invalid_argument").
    { destruct c as [[] [] [] [] [] [] [] []]; try contradiction;
        simpl in *; try discriminate; reflexivity. }
    exact E.
Qed.

Lemma unreadable_size_escapes_witness :
  CreatePipeline Samples.accelerated Samples.unreadable_width_stream
  = Throws "invalid_argument".
Proof.
  destruct (unreadable_size_escapes Samples.accelerated Samples.unreadable_width_stream
              "rtsp://host/live" [("w", "wide"); ("h", "1080")] "wide"
              eq_refl eq_refl eq_refl eq_refl ltac:(simpl; lia) eq_refl eq_refl)
    as (Hthrow & _ & _).
  apply Hthrow. reflexivity.
Defined.

(** X13: without the accelerated post-processing element
    [CreatePipeline] never looks at the URL of a stream nor at the hint
    of the probe and raises no rank: it uses [videoconvert], it succeeds
    exactly when the engine provides every element, it then sets the caps
    [video/x-raw,format=RGBA] among its configuration requests, and when
    it fails it sends nothing; [width_], [height_] and [aspect_ratio_]
    stay as they were. *)
Theorem generic_path_ignores_url (env : GstEnv) (x : GstVideoPlayer)
    (Hva : CheckPluginAvailability env "vapostproc" = false) :
  let created :=
    engine_provides env (if is_camera_ x then "v4l2src" else "playbin3") "videoconvert" in
  exists x',
    CreatePipeline env x = Returns (created, x')
    /\ trace x' = trace x ++ (if created
                              then configuration_requests "video/x-raw,format=RGBA" x
                              else [])
    /\ (created = true -> caps_of (trace x') = Some "video/x-raw,format=RGBA")
    /\ width_ x' = width_ x /\ height_ x' = height_ x
    /\ aspect_ratio_ x' = aspect_ratio_ x.
Proof.
  assert (Hchoose : choose_caps env x = Returns ("videoconvert", "video/x-raw,format=RGBA", x))
    by (unfold choose_caps; now rewrite Hva).
  destruct (CreatePipeline_result env x _ _ _ Hchoose) as (x' & Hrun & Htrace & _ & Hrest).
  simpl. exists x'. split; [exact Hrun |]. split; [exact Htrace |].
  split.
  - intros Hok. simpl in Htrace. rewrite Htrace, Hok, caps_of_app, caps_of_configuration.
    reflexivity.
  - apply (f_equal width_) in Hrest as Hw. apply (f_equal height_) in Hrest as Hh.
    apply (f_equal aspect_ratio_) in Hrest as Ha. simpl in Hw, Hh, Ha. auto.
Qed.

Lemma generic_path_ignores_url_witness :
  exists x',
    CreatePipeline Samples.generic Samples.unreadable_width_stream = Returns (true, x')
    /\ trace x' = trace Samples.unreadable_width_stream
                  ++ configuration_requests "video/x-raw,format=RGBA"
                       Samples.unreadable_width_stream
    /\ (true = true -> caps_of (trace x') = Some "video/x-raw,format=RGBA")
    /\ width_ x' = 640 /\ height_ x' = 480
    /\ aspect_ratio_ x' = "".
Proof.
  exact (generic_path_ignores_url Samples.generic Samples.unreadable_width_stream eq_refl).
Defined.

(** X14: on the accelerated path, for a source that is no stream or
    whose URL has no question mark, [CreatePipeline] first raises the
    rank of each of the seven accelerated elements for which the engine
    finds a factory (of none when there is no registry), and these stay
    raised if it then fails; it succeeds exactly when the engine provides the pipeline, the
    source ([v4l2src] for a camera, [playbin3] otherwise), [vapostproc],
    the caps filter, the fake sink, the output bin (unless the source is
    a camera) and the bus; on success every element is set and the caps
    are the accelerated ones, with the hint of the probe when the source
    was found inconsistent; on failure no element is configured. *)
Theorem accelerated_path_all_or_nothing (env : GstEnv) (x : GstVideoPlayer)
    (Hva : CheckPluginAvailability env "vapostproc" = true)
    (Hplain : is_stream_ x = false \/ lacks "?" (uri_ x) = true) :
  let src_factory := if is_camera_ x then "v4l2src" else "playbin3" in
  let created := engine_provides env src_factory "vapostproc" in
  exists x',
    CreatePipeline env x = Returns (created, x')
    /\ trace x' = trace x ++ rank_requests env
                  ++ (if created then configuration_requests (accelerated_caps x) x else [])
    /\ (created = true ->
        caps_of (trace x') = Some (accelerated_caps x)
        /\ gst_ x' = {| pipeline := true;
                        video_src := Some src_factory;
                        video_convert := Some "vapostproc";
                        caps_filter := true;
                        video_sink := true;
                        output := if is_camera_ x then output (gst_ x) else true;
                        bus := true;
                        buffer := buffer (gst_ x) |})
    /\ width_ x' = width_ x /\ height_ x' = height_ x
    /\ (forall e, In (gst_plugin_feature_set_rank e) (rank_requests env)
                  <-> gst_registry_get env = true
                      /\ In e accelerated_elements
                      /\ gst_element_factory_find env e = true).
Proof.
  assert (Hranks : forall e, In (gst_plugin_feature_set_rank e) (rank_requests env)
                             <-> gst_registry_get env = true
                                 /\ In e accelerated_elements
                                 /\ gst_element_factory_find env e = true).
  { intros e. unfold rank_requests. destruct (gst_registry_get env).
    - rewrite in_map_iff. split.
      + intros (e' & [= ->] & He). apply filter_In in He. tauto.
      + intros (_ & He). exists e. split; [reflexivity |]. apply filter_In. exact He.
    - split; [intros [] | intros [? _]; discriminate]. }
  pose proof (choose_caps_accelerated env x Hva) as Hchoose.
  assert (Hurl : (if is_stream_ x then SetStreamDataFromUrl (uri_ x) x else Returns (false, x))
                 = Returns (false, x)).
  { destruct (is_stream_ x); [| reflexivity].
    destruct Hplain as [| Hq]; [discriminate |].
    now apply SetStreamDataFromUrl_no_query. }
  rewrite Hurl in Hchoose. simpl in Hchoose.
  destruct (CreatePipeline_result env x _ _ _ Hchoose) as (x' & Hrun & Htrace & Hgst & Hrest).
  simpl in Hrun, Htrace, Hgst. simpl. exists x'. split; [exact Hrun |].
  split; [rewrite Htrace, <- app_assoc; reflexivity |]. split.
  - intros Hok. split; [| now apply Hgst].
    rewrite Htrace, Hok, caps_of_app.
    change (configuration_requests (accelerated_caps x)
              (set_trace (trace x ++ rank_requests env) x))
      with (configuration_requests (accelerated_caps x) x).
    now rewrite caps_of_configuration.
  - apply (f_equal width_) in Hrest as Hw. apply (f_equal height_) in Hrest as Hh.
    simpl in Hw, Hh. auto.
Qed.

Lemma accelerated_path_all_or_nothing_witness :
  (exists x',
     CreatePipeline Samples.sinkless (initial 640 480) = Returns (false, x')
     /\ trace x' = rank_requests Samples.sinkless)
  /\ (exists x',
        CreatePipeline Samples.postproc_only (initial 640 480) = Returns (true, x')
        /\ List.filter is_rank (trace x') = [gst_plugin_feature_set_rank "vapostproc"]).
Proof.
  split.
  - destruct (accelerated_path_all_or_nothing Samples.sinkless (initial 640 480) eq_refl
                (or_introl eq_refl)) as (x' & Hrun & Htrace & _).
    exists x'. split; [exact Hrun | exact Htrace].
  - destruct (accelerated_path_all_or_nothing Samples.postproc_only (initial 640 480) eq_refl
                (or_introl eq_refl)) as (x' & Hrun & Htrace & _).
    exists x'. split; [exact Hrun |]. rewrite Htrace. reflexivity.
Defined.

End PipelineMore.

(** ** More on construction and teardown *)

Section ConstructionMore.
Import StdString Url Catalog Player Classifier Session.

Lemma CheckInconsistency_keeps (input : AVInput) (x x' : GstVideoPlayer) :
  CheckInconsistency input x = Returns x' ->
  x' = set_aspect_ratio_ (aspect_ratio_ x') (set_is_inconsistent_ (is_inconsistent_ x') x).
Proof.
  rewrite CheckInconsistency_cases.
  destruct (container_ready input); [| intros [= <-]; now destruct x].
  destruct (first_video (streams input)) as [s |]; [| intros [= <-]; now destruct x].
  destruct (decoder_ready s); [| intros [= <-]; now destruct x].
  destruct (send_until_accepted (packets_accepted s)); [| discriminate].
  unfold check_coded_size.
  destruct (_ || _); [| intros [= <-]; now destruct x].
  destruct (coded_height s >? coded_width s); intros [= <-]; reflexivity.
Qed.

Lemma rank_requests_are_ranks (env : GstEnv) : forallb is_rank (rank_requests env) = true.
Proof.
  unfold rank_requests. destruct (gst_registry_get env); [| reflexivity].
  induction (List.filter _ _) as [| e elements IH]; [reflexivity | exact IH].
Qed.

(** The first part of [CreatePipeline] changes the sizes and the hint
    from the URL, and appends rank requests, if anything. *)
Lemma choose_caps_keeps (env : GstEnv) (x x1 : GstVideoPlayer) (converter caps : string) :
  choose_caps env x = Returns (converter, caps, x1) ->
  exists ranks,
    forallb is_rank ranks = true
    /\ x1 = set_trace (trace x ++ ranks)
              (set_aspect_ratio_ (aspect_ratio_ x1)
                 (set_height_ (height_ x1) (set_width_ (width_ x1) x))).
Proof.
  destruct (CheckPluginAvailability env "vapostproc") eqn:Hva.
  - rewrite (choose_caps_accelerated env x Hva). intros H.
    apply bind_Returns in H as ([r x0] & H0 & H). injection H as _ _ <-.
    exists (rank_requests env). split; [apply rank_requests_are_ranks |].
    destruct (is_stream_ x).
    + apply SetStreamDataFromUrl_changes in H0.
      assert (Et : trace x0 = trace x) by (rewrite H0; reflexivity).
      rewrite Et. transitivity (set_trace (trace x ++ rank_requests env) x0); [reflexivity |].
      rewrite H0 at 1. now destruct x0.
    + injection H0 as _ <-. now destruct x.
  - unfold choose_caps. rewrite Hva. intros [= _ _ <-]. exists [].
    split; [reflexivity |]. rewrite app_nil_r. now destruct x.
Qed.

Lemma existsb_initialized_ranks (ranks : list event) :
  forallb is_rank ranks = true -> existsb is_initialized ranks = false.
Proof.
  induction ranks as [| e ranks IH]; [reflexivity |]. simpl.
  intros H. apply andb_true_iff in H as [He H]. rewrite (IH H).
  now destruct e.
Qed.

Lemma existsb_initialized_configuration (caps : string) (x : GstVideoPlayer) :
  existsb is_initialized (configuration_requests caps x) = false.
Proof.
  unfold configuration_requests. now destruct (is_inconsistent_ x), (is_camera_ x).
Qed.

Lemma DestroyPipeline_result (x : GstVideoPlayer) :
  gst_ (DestroyPipeline x)
  = {| pipeline := false; video_src := None; video_convert := None;
       caps_filter := caps_filter (gst_ x); video_sink := false; output := false;
       bus := false; buffer := None |}
  /\ trace (DestroyPipeline x)
     = trace x
       ++ (if video_sink (gst_ x)
           then [g_object_set "videosink" "signal-handoffs" (GBool false)] else [])
       ++ (if pipeline (gst_ x) then [gst_element_set_state GST_STATE_NULL] else [])
  /\ set_trace (trace x) (set_gst_ (gst_ x) (DestroyPipeline x)) = x.
Proof.
  unfold DestroyPipeline.
  destruct (video_sink (gst_ x)) eqn:Hs; simpl; destruct (pipeline (gst_ x)) eqn:Hp; simpl;
    rewrite ?app_nil_r, <- ?app_assoc; repeat split; now destruct x.
Qed.

(** How a constructor call that returns went: through a probe that kept
    the trace empty, the two parts of [CreatePipeline], and then either
    the teardown or the preroll and the allocation. *)
Lemma construct_stages (env : Environment) (uri : string) (width0 height0 : Z)
    (x : GstVideoPlayer) :
  construct env uri width0 height0 = Returns x ->
  exists x1 x2 converter caps ranks,
    trace x1 = [] /\ pixels_ x1 = None /\ buffer (gst_ x1) = None
    /\ forallb is_rank ranks = true
    /\ let created :=
         engine_provides (gst_env env) (if is_camera_ x1 then "v4l2src" else "playbin3")
           converter in
       trace x2 = ranks ++ (if created then configuration_requests caps x2 else [])
       /\ pixels_ x2 = None
       /\ (created = true -> pipeline (gst_ x2) = true /\ video_sink (gst_ x2) = true
                             /\ is_Some (video_src (gst_ x2)) /\ buffer (gst_ x2) = None)
       /\ if created
          then exists px,
                 new_pixels (width_ (GetVideoSize (negotiated_caps env) (Preroll x2)))
                   (height_ (GetVideoSize (negotiated_caps env) (Preroll x2)))
                   (indeterminate_bytes env)
                 = Returns px
                 /\ x = emit OnNotifyInitialized
                          (set_pixels_ (Some px)
                             (GetVideoSize (negotiated_caps env) (Preroll x2)))
          else x = DestroyPipeline x2.
Proof.
  unfold construct. intros H.
  apply bind_Returns in H as (x1 & H1 & H).
  assert (E1 : trace x1 = [] /\ pixels_ x1 = None /\ buffer (gst_ x1) = None).
  { destruct (negb (Regex.regex_match uri camera_path_regex_)); [| now injection H1 as <-].
    revert H1. cbn [set_uri_ set_is_stream_ is_stream_ uri_].
    destruct (negb _); [| now intros [= <-]].
    intros H1. apply CheckInconsistency_keeps in H1. rewrite H1. auto. }
  destruct E1 as (Et1 & Ep1 & Eb1).
  apply bind_Returns in H as ([created x2] & H2 & H).
  pose proof H2 as Hrun. unfold CreatePipeline in H2.
  apply bind_Returns in H2 as ([[converter caps] x1'] & Hchoose & _).
  destruct (choose_caps_keeps _ _ _ _ _ Hchoose) as (ranks & Hranks & Hx1').
  destruct (CreatePipeline_result _ _ _ _ _ Hchoose) as (x2' & Hrun' & Htrace & Hgst & Hrest).
  rewrite Hrun in Hrun'. injection Hrun' as -> <-.
  assert (Ecam : is_camera_ x1' = is_camera_ x1) by (rewrite Hx1'; reflexivity).
  assert (Etr : trace x1' = ranks) by (rewrite Hx1'; simpl; now rewrite Et1).
  assert (Epx : pixels_ x2 = None).
  { apply (f_equal pixels_) in Hrest. simpl in Hrest. rewrite Hrest, Hx1'. exact Ep1. }
  assert (Ecfg : forall c, configuration_requests c x1' = configuration_requests c x2).
  { intros c. rewrite <- Hrest. reflexivity. }
  exists x1, x2, converter, caps, ranks. rewrite <- Ecam.
  split; [exact Et1 |]. split; [exact Ep1 |]. split; [exact Eb1 |]. split; [exact Hranks |].
  cbv zeta. split; [rewrite Htrace, Etr, Ecfg; reflexivity |]. split; [exact Epx |].
  split.
  - intros Hok. rewrite (Hgst Hok). simpl. repeat split; eauto.
    rewrite Hx1'. exact Eb1.
  - destruct (engine_provides _ _ _); simpl in H.
    + apply bind_Returns in H as (px & Hpx & H). injection H as <-. eauto.
    + now injection H as <-.
Qed.

Lemma Preroll_result (x : GstVideoPlayer) :
  gst_ (Preroll x) = gst_ x /\ pixels_ (Preroll x) = pixels_ x
  /\ trace (Preroll x)
     = trace x ++ match video_src (gst_ x) with
                  | Some _ => [gst_element_set_state GST_STATE_PAUSED]
                  | None => []
                  end.
Proof.
  unfold Preroll. destruct (video_src (gst_ x)); simpl; rewrite ?app_nil_r; auto.
Qed.

Lemma GetVideoSize_result (negotiated : option (option Z * option Z)) (x : GstVideoPlayer) :
  gst_ (GetVideoSize negotiated x) = gst_ x
  /\ trace (GetVideoSize negotiated x) = trace x
  /\ (negotiated = None -> GetVideoSize negotiated x = x).
Proof.
  unfold GetVideoSize. destruct (_ || _); [auto |].
  destruct negotiated as [[[w |] [h |]] |]; simpl; repeat split; discriminate.
Qed.

(** X15: a constructor call that returns ends in one of two states.
    Either the pipeline stands: then the source and the sink are set, the
    pixel array is allocated, no frame is held, and initialization was
    announced exactly once, as the last request.  Or no pipeline stands:
    then initialization was never announced, every element pointer that
    [DestroyPipeline] resets is null, no pixel array was allocated, and
    [GetFrameBuffer], [SetVolume] and [SetPlaybackRate] give null or
    false and change nothing. *)
Theorem construction_all_or_nothing (env : Environment) (uri : string) (width0 height0 : Z)
    (x : GstVideoPlayer) (Hbuilt : construct env uri width0 height0 = Returns x) :
  (pipeline (gst_ x) = true
   /\ (exists t, trace x = t ++ [OnNotifyInitialized] /\ existsb is_initialized t = false)
   /\ is_Some (video_src (gst_ x)) /\ video_sink (gst_ x) = true
   /\ is_Some (pixels_ x) /\ buffer (gst_ x) = None)
  \/ (pipeline (gst_ x) = false
      /\ existsb is_initialized (trace x) = false
      /\ video_src (gst_ x) = None /\ video_convert (gst_ x) = None
      /\ video_sink (gst_ x) = false /\ output (gst_ x) = false /\ bus (gst_ x) = false
      /\ buffer (gst_ x) = None /\ pixels_ x = None
      /\ GetFrameBuffer x = Returns (None, x)
      /\ (forall volume, SetVolume volume x = (false, x))
      /\ (forall rate query repeat_seek_ok seek_ok,
            SetPlaybackRate rate query repeat_seek_ok seek_ok x = (false, x))).
Proof.
  destruct (construct_stages _ _ _ _ _ Hbuilt)
    as (x1 & x2 & converter & caps & ranks & _ & _ & _ & Hranks & Hrest).
  cbv zeta in Hrest. destruct Hrest as (Htrace & Hpx & Hgst & Hx).
  apply existsb_initialized_ranks in Hranks.
  destruct (engine_provides _ _ _).
  - left. destruct Hx as (px & _ & ->). destruct (Hgst eq_refl) as (Hp & Hs & Hsrc & Hb).
    destruct (Preroll_result x2) as (Eg & _ & Et).
    destruct (GetVideoSize_result (negotiated_caps env) (Preroll x2)) as (Eg' & Et' & _).
    cbn [emit set_trace set_pixels_ gst_ trace pixels_].
    rewrite Eg', Eg, Et', Et, Htrace. repeat split; auto.
    eexists. split; [reflexivity |].
    rewrite !existsb_app, Hranks, existsb_initialized_configuration.
    now destruct (video_src (gst_ x2)).
  - right. subst x. destruct (DestroyPipeline_result x2) as (Eg & Et & Erest).
    assert (Epx : pixels_ (DestroyPipeline x2) = None).
    { apply (f_equal pixels_) in Erest.
      change (pixels_ (DestroyPipeline x2) = pixels_ x2) in Erest. now rewrite Erest. }
    rewrite Et, Htrace, app_nil_r.
    unfold GetFrameBuffer, SetVolume, SetPlaybackRate. rewrite Eg. cbn -[existsb].
    repeat split; auto.
    + rewrite !existsb_app, Hranks. now destruct (video_sink (gst_ x2)), (pipeline (gst_ x2)).
    + intros. now destruct (_ || _).
Qed.

Lemma construction_all_or_nothing_witness :
  construct Samples.sinkless_machine "/home/user/clip.mp4" 0 0 = Returns Samples.unbuilt_player
  /\ pipeline (gst_ Samples.unbuilt_player) = false
  /\ GetFrameBuffer Samples.unbuilt_player = Returns (None, Samples.unbuilt_player).
Proof.
  assert (Hbuilt : construct Samples.sinkless_machine "/home/user/clip.mp4" 0 0
                   = Returns Samples.unbuilt_player) by (vm_compute; reflexivity).
  split; [exact Hbuilt |].
  destruct (construction_all_or_nothing _ _ _ _ _ Hbuilt)
    as [(Hp & _) | (Hp & _ & _ & _ & _ & _ & _ & _ & _ & Hread & _)].
  - discriminate Hp.
  - split; [exact Hp | exact Hread].
Defined.

(** X16: for an identifier of the camera shape, on a machine whose engine
    provides the elements of a camera pipeline and whose sink has
    negotiated nothing, the constructor returns a camera player: the
    identifier is kept as it is, the source is [v4l2src] with the
    identifier as its device and no output bin, the size is the default
    1920 x 1080, and the pixel array has 1920 * 1080 * 4 bytes. *)
Theorem camera_defaults (env : Environment) (uri : string) (width0 height0 : Z)
    (Hcamera : camera_shape uri)
    (Hengine : engine_provides (gst_env env) "v4l2src"
                 (if CheckPluginAvailability (gst_env env) "vapostproc"
                  then "vapostproc" else "videoconvert") = true)
    (Hcaps : negotiated_caps env = None) :
  exists x,
    construct env uri width0 height0 = Returns x
    /\ is_camera_ x = true /\ is_stream_ x = false /\ uri_ x = uri
    /\ video_src (gst_ x) = Some "v4l2src" /\ output (gst_ x) = false
    /\ In (g_object_set "src" "device" (GString uri)) (trace x)
    /\ width_ x = 1920 /\ height_ x = 1080
    /\ exists px, pixels_ x = Some px /\ Z.of_nat (length px) = 1920 * 1080 * 4.
Proof.
  apply camera_path_regex_exact in Hcamera.
  set (x0 := set_height_ 1080 (set_width_ 1920 (set_is_camera_ true
               (set_uri_ uri (initial width0 height0))))).
  assert (Hchoose : exists caps x1,
            choose_caps (gst_env env) x0
            = Returns (if CheckPluginAvailability (gst_env env) "vapostproc"
                       then "vapostproc" else "videoconvert", caps, x1)
            /\ exists ranks, x1 = set_trace ranks x0).
  { destruct (CheckPluginAvailability _ _) eqn:Hva.
    - rewrite (choose_caps_accelerated _ _ Hva). simpl. eauto.
    - unfold choose_caps. rewrite Hva. do 2 eexists. split; [reflexivity |].
      exists []. reflexivity. }
  destruct Hchoose as (caps & x1 & Hchoose & ranks & Hx1).
  destruct (CreatePipeline_result _ _ _ _ _ Hchoose) as (x2 & Hrun & Htrace & Hgst & Hrest).
  assert (Ecam : is_camera_ x1 = true) by now rewrite Hx1.
  rewrite Ecam, Hengine in Hrun, Htrace, Hgst. specialize (Hgst eq_refl).
  assert (Ex2 : x2 = set_trace (trace x2) (set_gst_ (gst_ x2) x0)).
  { transitivity (set_trace (trace x2) (set_gst_ (gst_ x2) x1)).
    - rewrite <- Hrest. now destruct x2.
    - now rewrite Hx1. }
  destruct (Preroll_result x2) as (Eg & Ep & Et).
  destruct (GetVideoSize_result (negotiated_caps env) (Preroll x2)) as (_ & _ & Esize).
  specialize (Esize Hcaps).
  assert (Ew : width_ (Preroll x2) = 1920 /\ height_ (Preroll x2) = 1080
               /\ is_camera_ (Preroll x2) = true /\ is_stream_ (Preroll x2) = false
               /\ uri_ (Preroll x2) = uri).
  { unfold Preroll. rewrite Ex2. now destruct (video_src _). }
  destruct Ew as (Ew & Eh & Ec & Es & Eu).
  eexists. split.
  - unfold construct. rewrite Hcamera. cbn [negb]. fold x0.
    cbv beta iota delta [mbind outcome_bind]. rewrite Hrun. cbn [negb].
    rewrite Esize, Ew, Eh. unfold new_pixels.
    replace ((1920 * 1080 <? INT_MIN) || (INT_MAX <? 1920 * 1080)) with false by reflexivity.
    replace (1920 * 1080 <? 0) with false by reflexivity.
    reflexivity.
  - cbn [emit set_trace set_pixels_ gst_ trace pixels_ is_camera_ is_stream_ uri_ width_
         height_].
    rewrite Eg, Et, Htrace, Hgst. cbn [video_src output].
    split; [exact Ec |]. split; [exact Es |]. split; [exact Eu |].
    split; [reflexivity |]. split; [rewrite Hx1; reflexivity |].
    split; [| split; [exact Ew |]; split; [exact Eh |]].
    + rewrite !in_app_iff. left. left. right. unfold configuration_requests.
      rewrite Ecam. rewrite !in_app_iff. do 3 right. left.
      f_equal. f_equal. rewrite Hx1. reflexivity.
    + eexists. split; [reflexivity |]. rewrite length_map, length_seq. lia.
Qed.

Lemma camera_defaults_witness :
  exists x,
    construct Samples.capless_machine "/dev/video0" 0 0 = Returns x
    /\ width_ x = 1920 /\ height_ x = 1080.
Proof.
  assert (Hcamera : camera_shape "/dev/video0").
  { exists "/dev/video", "0"%char. repeat split. }
  destruct (camera_defaults Samples.capless_machine "/dev/video0" 0 0 Hcamera eq_refl eq_refl)
    as (x & Hrun & _ & _ & _ & _ & _ & _ & Hw & Hh & _).
  exists x. auto.
Defined.

(** X17: after [DestroyPipeline] no frame is held and every pointer but
    that of the caps filter is null, so that a read gives null, the
    volume is refused and a second teardown, a preroll and a size query
    change nothing; the pixel array is not released by it.  The teardown asks the engine at
    most to stop the handoff signal, if a sink existed, and then to set
    the pipeline to the null state, if a pipeline existed; the destructor
    asks for the ready state before both. *)
Theorem teardown_clears_and_is_idempotent (x : GstVideoPlayer) :
  let y := DestroyPipeline x in
  gst_ y = {| pipeline := false; video_src := None; video_convert := None;
              caps_filter := caps_filter (gst_ x); video_sink := false; output := false;
              bus := false; buffer := None |}
  /\ GetFrameBuffer y = Returns (None, y)
  /\ DestroyPipeline y = y
  /\ Preroll y = y
  /\ (forall negotiated, GetVideoSize negotiated y = y)
  /\ (forall volume, SetVolume volume y = (false, y))
  /\ pixels_ y = pixels_ x
  /\ (forall stop_ok,
        trace (destroy stop_ok x)
        = trace x ++ [gst_element_set_state GST_STATE_READY]
          ++ (if video_sink (gst_ x)
              then [g_object_set "videosink" "signal-handoffs" (GBool false)] else [])
          ++ (if pipeline (gst_ x) then [gst_element_set_state GST_STATE_NULL] else [])).
Proof.
  intros y. destruct (DestroyPipeline_result x) as (Eg & Et & Erest). fold y in Eg, Et, Erest.
  clearbody y.
  assert (Eagain : DestroyPipeline y = y).
  { clear Et Erest. destruct y as [[] ]. simpl in Eg. injection Eg as -> -> -> _ -> -> -> ->.
    reflexivity. }
  assert (Edestroy : forall stop_ok,
            trace (destroy stop_ok x)
            = trace x ++ [gst_element_set_state GST_STATE_READY]
              ++ (if video_sink (gst_ x)
                  then [g_object_set "videosink" "signal-handoffs" (GBool false)] else [])
              ++ (if pipeline (gst_ x) then [gst_element_set_state GST_STATE_NULL] else [])).
  { intros stop_ok. unfold destroy.
    destruct (DestroyPipeline_result (snd (Stop stop_ok x))) as (_ & Et' & _).
    rewrite Et'. simpl. now rewrite <- app_assoc. }
  assert (Epx : pixels_ y = pixels_ x) by (apply (f_equal pixels_) in Erest; exact Erest).
  split; [exact Eg |].
  unfold GetFrameBuffer, Preroll, GetVideoSize, SetVolume. rewrite Eg.
  cbn [buffer video_src pipeline video_sink negb orb].
  split; [reflexivity |]. split; [exact Eagain |]. split; [reflexivity |].
  split; [reflexivity |]. split; [reflexivity |]. split; [exact Epx | exact Edestroy].
Qed.

(** X24: when the constructor returns with a pipeline and the sink has
    negotiated a width and a height, these are the size of the player,
    whatever the address, its parameters and the camera defaults said;
    their product is a non-negative [int] and the pixel array holds four
    bytes per pixel, which are the indeterminate bytes of its storage.
    If four times the product is no [int], every read of a held frame is
    undefined. *)
Theorem negotiated_size_wins (env : Environment) (uri : string) (width0 height0 w h : Z)
    (x : GstVideoPlayer)
    (Hbuilt : construct env uri width0 height0 = Returns x)
    (Hup : pipeline (gst_ x) = true)
    (Hcaps : negotiated_caps env = Some (Some w, Some h)) :
  width_ x = w /\ height_ x = h
  /\ 0 <= w * h <= StdString.INT_MAX
  /\ (exists px, pixels_ x = Some px
                  /\ Z.of_nat (length px) = 4 * (w * h)
                  /\ forall i b, px !! i = Some b -> b = indeterminate_bytes env i)
  /\ (StdString.INT_MAX < w * h * 4 ->
      forall buf, GetFrameBuffer (Handoff_store buf x) = Undefined).
Proof.
  destruct (construct_stages _ _ _ _ _ Hbuilt)
    as (x1 & x2 & converter & caps & ranks & _ & _ & _ & _ & Hrest).
  cbv zeta in Hrest. destruct Hrest as (_ & _ & Hgst & Hx).
  destruct (engine_provides _ _ _).
  - destruct Hx as (px & Hpx & ->). destruct (Hgst eq_refl) as (Hp & Hs & _ & _).
    destruct (Preroll_result x2) as (Eg & _ & _).
    assert (Esize : GetVideoSize (negotiated_caps env) (Preroll x2)
                    = set_height_ h (set_width_ w (Preroll x2))).
    { unfold GetVideoSize. now rewrite Eg, Hp, Hs, Hcaps. }
    rewrite Esize in Hpx |- *. cbn [width_ height_ set_height_ set_width_] in Hpx.
    unfold new_pixels in Hpx.
    destruct (_ || _) eqn:Hrange; [discriminate |].
    destruct (Z.ltb_spec (w * h) 0); [discriminate |]. injection Hpx as <-.
    apply orb_false_iff in Hrange as [_ Hmax]. apply Z.ltb_ge in Hmax.
    split; [reflexivity |]. split; [reflexivity |]. split; [lia |].
    split.
    { eexists. split; [reflexivity |]. split; [rewrite length_map, length_seq; lia |].
      intros i b Hi. apply list_lookup_fmap_Some in Hi as (j & -> & Hj).
      apply lookup_seq in Hj as [-> _]. reflexivity. }
    intros Hbig buf. unfold GetFrameBuffer.
    cbn [Handoff_store emit set_gst set_gst_ set_buffer set_trace set_pixels_ set_height_
         set_width_ gst_ buffer width_ height_].
    replace (StdString.INT_MAX <? w * h * 4) with true by (symmetry; apply Z.ltb_lt; lia).
    now rewrite orb_true_r.
  - subst x. destruct (DestroyPipeline_result x2) as (Eg & _ & _).
    rewrite Eg in Hup. discriminate Hup.
Qed.

Lemma negotiated_size_wins_witness :
  width_ Samples.stream_player = 2 /\ height_ Samples.stream_player = 1.
Proof.
  assert (Hbuilt : construct (Samples.machine 1920 1080) "rtsp://host/live?w=1000&h=3000&o=l"
                     0 0
                   = Returns Samples.stream_player) by (vm_compute; reflexivity).
  destruct (negotiated_size_wins _ _ _ _ 2 1 _ Hbuilt eq_refl eq_refl) as (Hw & Hh & _).
  split; [exact Hw | exact Hh].
Defined.

Lemma Preroll_controls (x : GstVideoPlayer) : controls (Preroll x) = controls x.
Proof. unfold Preroll. now destruct (video_src (gst_ x)). Qed.

Lemma GetVideoSize_controls (negotiated : option (option Z * option Z)) (x : GstVideoPlayer) :
  controls (GetVideoSize negotiated x) = controls x.
Proof.
  unfold GetVideoSize. destruct (_ || _); [reflexivity |].
  now destruct negotiated as [[[w |] [h |]] |].
Qed.

(** The constructor leaves the controls at their initial values. *)
Lemma construct_controls (env : Environment) (uri : string) (width0 height0 : Z)
    (x : GstVideoPlayer) :
  construct env uri width0 height0 = Returns x ->
  controls x = (d_one, d_one, false, false, false).
Proof.
  unfold construct. intros H.
  apply bind_Returns in H as (x1 & H1 & H).
  assert (E1 : controls x1 = (d_one, d_one, false, false, false)).
  { destruct (negb (Regex.regex_match uri camera_path_regex_)); [| now injection H1 as <-].
    revert H1. cbn [set_uri_ set_is_stream_ is_stream_ uri_].
    destruct (negb _); [| now intros [= <-]].
    intros H1. apply CheckInconsistency_keeps in H1. rewrite H1. reflexivity. }
  apply bind_Returns in H as ([created x2] & H2 & H).
  pose proof H2 as Hrun. unfold CreatePipeline in H2.
  apply bind_Returns in H2 as ([[converter caps] x1'] & Hchoose & _).
  destruct (choose_caps_keeps _ _ _ _ _ Hchoose) as (ranks & _ & Hx1').
  destruct (CreatePipeline_result _ _ _ _ _ Hchoose) as (x2' & Hrun' & _ & _ & Hrest).
  rewrite Hrun in Hrun'. injection Hrun' as _ <-.
  assert (E2 : controls x2 = controls x1).
  { transitivity (controls x1'); [rewrite <- Hrest | rewrite Hx1']; reflexivity. }
  rewrite <- E1, <- E2. destruct created; simpl in H.
  - apply bind_Returns in H as (px & _ & H). injection H as <-.
    transitivity (controls (GetVideoSize (negotiated_caps env) (Preroll x2))); [reflexivity |].
    now rewrite GetVideoSize_controls, Preroll_controls.
  - injection H as <-. destruct (DestroyPipeline_result x2) as (_ & _ & Erest).
    rewrite <- Erest at 2. reflexivity.
Qed.

End ConstructionMore.

(** ** More on the playback controller *)

Section PlaybackMore.
Import Player Session Classifier.

Lemma to_int64_small (z : Z) : INT64_MIN <= z <= INT64_MAX -> to_int64 z = z.
Proof.
  unfold INT64_MIN, INT64_MAX, to_int64. intros Hz.
  rewrite Z.mod_small by lia. lia.
Qed.

Lemma drain_completed_rate (seek_ok : bool) (x : GstVideoPlayer) :
  playback_rate_ (drain_completed seek_ok x) = playback_rate_ x
  /\ mute_ (drain_completed seek_ok x) = mute_ x
  /\ volume_ (drain_completed seek_ok x) = volume_ x.
Proof.
  unfold drain_completed, SetSeek.
  destruct (is_completed_ x); [| auto]. simpl.
  destruct (auto_repeat_ x); [| auto].
  destruct (is_stream_ x || is_camera_ x); [auto |]. now destruct seek_ok.
Qed.

Lemma GetCurrentPosition_rate (query : option Z) (seek_ok : bool) (x : GstVideoPlayer) :
  playback_rate_ (snd (GetCurrentPosition query seek_ok x)) = playback_rate_ x
  /\ mute_ (snd (GetCurrentPosition query seek_ok x)) = mute_ x.
Proof.
  unfold GetCurrentPosition. destruct (is_stream_ x || is_camera_ x); [auto |].
  destruct query; [| auto]. simpl. destruct (drain_completed_rate seek_ok x) as (? & ? & _). auto.
Qed.

(** What [SetPlaybackRate] does to the rate and to mute: nothing, or it
    records a rate that passed the test and the mute that goes with it. *)
Lemma SetPlaybackRate_rate (rate : double) (query : option Z) (repeat_seek_ok seek_ok : bool)
    (x : GstVideoPlayer) :
  let x' := snd (SetPlaybackRate rate query repeat_seek_ok seek_ok x) in
  (playback_rate_ x' = playback_rate_ x /\ mute_ x' = mute_ x)
  \/ (SFleb rate d_zero = false /\ playback_rate_ x' = rate
      /\ mute_ x' = SFltb rate d_half || SFltb d_two rate).
Proof.
  unfold SetPlaybackRate.
  destruct (is_stream_ x || is_camera_ x); [now left |].
  destruct (video_src (gst_ x)); [| now left].
  destruct (SFleb rate d_zero) eqn:Hrate; [now left |].
  pose proof (GetCurrentPosition_rate query repeat_seek_ok x) as Hpos.
  destruct (GetCurrentPosition query repeat_seek_ok x) as [position x1]. simpl in Hpos.
  destruct (position <? 0); [now left |].
  destruct seek_ok; simpl; [right; auto | now left].
Qed.

Lemma step_rate (x : GstVideoPlayer) (c : call) :
  mute_derived x /\ rate_accepted x -> mute_derived (step x c) /\ rate_accepted (step x c).
Proof.
  unfold mute_derived, rate_accepted. intros [Hm Hr].
  destruct c as [m | q s | q | p s | r q s1 s2 | b | v | ok | ok | ok]; simpl; auto.
  - destruct m; simpl; auto.
  - destruct (GetCurrentPosition_rate q s x) as [-> ->]. auto.
  - unfold SetSeek. destruct (is_stream_ x || is_camera_ x); [auto |].
    destruct s; simpl; auto.
  - destruct (SetPlaybackRate_rate r q s1 s2 x) as [[-> ->] | (Hok & -> & ->)]; auto.
  - unfold SetVolume. destruct (video_src (gst_ x)); simpl; auto.
Qed.

Lemma run_rate (cs : list call) : forall x : GstVideoPlayer,
  mute_derived x /\ rate_accepted x -> mute_derived (run x cs) /\ rate_accepted (run x cs).
Proof.
  induction cs as [| c cs IH]; intros x H; [exact H |].
  apply (IH (step x c)), step_rate, H.
Qed.

(** X18: on a player the constructor has returned, after any sequence of
    controller calls and bus messages, whatever the engine answers, mute
    is what the recorded rate makes it (set exactly when the rate is
    below 0.5 or above 2), and the recorded rate is not one that
    [SetPlaybackRate] refuses as [rate <= 0]. *)
Theorem rate_and_mute_stay_consistent (env : Environment) (uri : string)
    (width0 height0 : Z) (x : GstVideoPlayer) (cs : list call)
    (Hbuilt : construct env uri width0 height0 = Returns x) :
  mute_derived (run x cs) /\ rate_accepted (run x cs).
Proof.
  apply run_rate. apply construct_controls in Hbuilt.
  unfold controls in Hbuilt. injection Hbuilt as _ Hr Hm _ _.
  unfold mute_derived, rate_accepted. rewrite Hr, Hm. split; reflexivity.
Qed.

Lemma rate_and_mute_stay_consistent_witness :
  let session := [CallSetPlaybackRate Samples.d_three (Some 5000000) true true;
                  CallHandleGstMessage GST_MESSAGE_EOS;
                  CallGetCurrentPosition (Some 9000000) true;
                  CallSetPlaybackRate Samples.d_minus_one (Some 9000000) true true] in
  mute_derived (run Samples.local_file_player session)
  /\ rate_accepted (run Samples.local_file_player session).
Proof.
  assert (Hbuilt : construct (Samples.machine 1920 1080) "/home/user/clip.mp4" 0 0
                   = Returns Samples.local_file_player) by (vm_compute; reflexivity).
  intros session. exact (rate_and_mute_stay_consistent _ _ _ _ _ session Hbuilt).
Defined.

Lemma step_keeps (x : GstVideoPlayer) (c : call) :
  set_trace (trace x) (step x c)
  = set_is_completed_ (is_completed_ (step x c))
      (set_auto_repeat_ (auto_repeat_ (step x c))
         (set_mute_ (mute_ (step x c))
            (set_playback_rate_ (playback_rate_ (step x c))
               (set_volume_ (volume_ (step x c)) x))))
  /\ exists t, trace (step x c) = trace x ++ t.
Proof.
  assert (Hnil : trace x = trace x ++ []) by now rewrite app_nil_r.
  destruct c as [m | q s | q | p s | r q s1 s2 | b | v | ok | ok | ok];
    unfold step, HandleGstMessage, SetPlaybackRate, GetCurrentPosition, drain_completed,
      SetSeek, SetVolume, SetAutoRepeat, Play, Pause, Stop.
  - destruct m; (split; [now destruct x | eauto]).
  - destruct (is_stream_ x || is_camera_ x) eqn:Hk; [split; [now destruct x | eauto] |].
    destruct q; [| split; [now destruct x | eauto]].
    destruct (is_completed_ x); [| split; [now destruct x | eauto]].
    cbn. destruct (auto_repeat_ x); [| split; [now destruct x | eauto]].
    rewrite Hk. destruct s; cbn; rewrite <- app_assoc; (split; [now destruct x | eauto]).
  - split; [now destruct x | eauto].
  - destruct (is_stream_ x || is_camera_ x); [split; [now destruct x | eauto] |].
    destruct s; cbn; (split; [now destruct x | eauto]).
  - destruct (is_stream_ x || is_camera_ x) eqn:Hk; [split; [now destruct x | eauto] |].
    destruct (video_src (gst_ x)); [| split; [now destruct x | eauto]].
    destruct (SFleb r d_zero); [split; [now destruct x | eauto] |].
    destruct q as [q |]; [| cbn; split; [now destruct x | eauto]].
    destruct (is_completed_ x).
    + cbn [set_is_completed_ emit auto_repeat_ set_trace is_stream_ is_camera_].
      destruct (auto_repeat_ x).
      * rewrite Hk. destruct s1; cbn [negb snd]; destruct (_ <? 0); try (destruct s2);
          cbn; rewrite <- ?app_assoc; (split; [now destruct x | eauto]).
      * destruct (_ <? 0); try (destruct s2);
          cbn; rewrite <- ?app_assoc; (split; [now destruct x | eauto]).
    + destruct (_ <? 0); try (destruct s2);
        cbn; rewrite <- ?app_assoc; (split; [now destruct x | eauto]).
  - split; [now destruct x | eauto].
  - destruct (video_src (gst_ x)); cbn; (split; [now destruct x | eauto]).
  - cbn. split; [now destruct x | eauto].
  - cbn. split; [now destruct x | eauto].
  - cbn. split; [now destruct x | eauto].
Qed.

Lemma step_view (x : GstVideoPlayer) (c : call) :
  source_and_frame (step x c) = source_and_frame x.
Proof.
  destruct (step_keeps x c) as [E _]. apply (f_equal source_and_frame) in E. exact E.
Qed.

Lemma run_view (cs : list call) : forall x : GstVideoPlayer,
  source_and_frame (run x cs) = source_and_frame x
  /\ exists t, trace (run x cs) = trace x ++ t.
Proof.
  induction cs as [| c cs IH]; intros x.
  - split; [reflexivity |]. exists []. now rewrite app_nil_r.
  - destruct (IH (step x c)) as (E & t & Et). destruct (step_keeps x c) as (_ & t0 & Et0).
    change (run x (c :: cs)) with (run (step x c) cs).
    split; [now rewrite E, step_view |].
    exists (t0 ++ t). now rewrite Et, Et0, <- app_assoc.
Qed.

(** X19: the controller calls and the bus messages, in any number and
    order and whatever the engine answers, leave the elements, the held
    frame, the pixel array, the size, the address, the aspect hint and
    the three source flags as they were, and only add to the history of
    requests; so a read of the frame and a duration query give after
    them what they gave before. *)
Theorem controller_keeps_source_and_frame (x : GstVideoPlayer) (cs : list call) :
  source_and_frame (run x cs) = source_and_frame x
  /\ (exists t, trace (run x cs) = trace x ++ t)
  /\ read_before_delivery (run x cs) = read_before_delivery x
  /\ (forall query, GetDuration query (run x cs) = GetDuration query x).
Proof.
  destruct (run_view cs x) as (E & Ht). split; [exact E |]. split; [exact Ht |].
  unfold source_and_frame in E. injection E as Eg Eu Ea Ep Ew Eh Es Ec Ei.
  split.
  - unfold read_before_delivery, GetFrameBuffer. rewrite Eg, Ew, Eh, Ep.
    destruct (buffer (gst_ x)) as [buf |]; [| reflexivity].
    destruct (_ || _); [reflexivity |].
    destruct (pixels_ x) as [px |].
    + now destruct (_ <? _)%nat.
    + now destruct (Nat.eqb _ 0).
  - intros query. unfold GetDuration. now rewrite Es, Ec.
Qed.

(** X20: on a local file with a source element, for a rate that is not
    [<= 0] and a position query that answers [q] nanoseconds,
    [SetPlaybackRate] first drains a pending completion; it then gives up
    if [q] is at or below minus one millisecond, and otherwise asks for a
    flushing seek at the new rate to [q] cut to whole milliseconds (toward
    zero).  It returns [true] exactly when that seek is asked for and
    succeeds; only then are the rate and mute recorded and mute sent to
    the source, and a [SetSeek] that follows carries the rate that is
    recorded, to the position in nanoseconds as [int64_t] holds it (the
    product itself when it is in range).  When the position query fails
    nothing happens at all. *)
Theorem SetPlaybackRate_exact (x : GstVideoPlayer) (rate : double) (q : Z)
    (repeat_seek_ok seek_ok : bool)
    (Hlocal : is_stream_ x || is_camera_ x = false)
    (Hsrc : is_Some (video_src (gst_ x)))
    (Hrate : SFleb rate d_zero = false) :
  let x1 := drain_completed repeat_seek_ok x in
  let target := Z.quot q GST_MSECOND * GST_MSECOND in
  let result := SetPlaybackRate rate (Some q) repeat_seek_ok seek_ok x in
  (fst result = true <-> - GST_MSECOND < q /\ seek_ok = true)
  /\ (q <= - GST_MSECOND -> result = (false, x1))
  /\ (- GST_MSECOND < q ->
      trace (snd result)
      = trace x1 ++ gst_element_seek rate GST_SEEK_FLAG_FLUSH target
                    :: (if seek_ok
                        then [g_object_set "src" "mute"
                                (GBool (SFltb rate d_half || SFltb d_two rate))]
                        else [])
      /\ playback_rate_ (snd result) = (if seek_ok then rate else playback_rate_ x)
      /\ mute_ (snd result)
         = (if seek_ok then SFltb rate d_half || SFltb d_two rate else mute_ x)
      /\ Z.abs target <= Z.abs q /\ Z.abs (q - target) < GST_MSECOND
      /\ Z.rem target GST_MSECOND = 0
      /\ forall position ok,
           trace (snd (SetSeek position ok (snd result)))
           = trace (snd result)
             ++ [gst_element_seek (if seek_ok then rate else playback_rate_ x)
                   GST_SEEK_FLAG_FLUSH_KEY_UNIT (to_int64 (position * 1000 * 1000))]
           /\ (INT64_MIN <= position * 1000 * 1000 <= INT64_MAX ->
               to_int64 (position * 1000 * 1000) = position * 1000 * 1000))
  /\ SetPlaybackRate rate None repeat_seek_ok seek_ok x = (false, x).
Proof.
  intros x1 target result.
  destruct (drain_completed_rate repeat_seek_ok x) as (Er & Em & _). fold x1 in Er, Em.
  assert (Ek : is_stream_ x1 || is_camera_ x1 = false).
  { subst x1. unfold drain_completed, SetSeek.
    destruct (is_completed_ x); [| exact Hlocal]. simpl.
    destruct (auto_repeat_ x); [| exact Hlocal]. rewrite Hlocal.
    now destruct repeat_seek_ok. }
  destruct Hsrc as [src Hsrc].
  assert (Hquot : (Z.quot q GST_MSECOND <? 0) = negb (- GST_MSECOND <? q)).
  { unfold GST_MSECOND. destruct (Z.ltb_spec (Z.quot q 1000000) 0);
      destruct (Z.ltb_spec (- (1000000)) q); simpl; try reflexivity; exfalso;
      Z.to_euclidean_division_equations; lia. }
  assert (Hres : result
                 = if - GST_MSECOND <? q
                   then (seek_ok,
                         let x2 := emit (gst_element_seek rate GST_SEEK_FLAG_FLUSH target) x1 in
                         if seek_ok
                         then emit (g_object_set "src" "mute"
                                      (GBool (SFltb rate d_half || SFltb d_two rate)))
                                (set_mute_ (SFltb rate d_half || SFltb d_two rate)
                                   (set_playback_rate_ rate x2))
                         else x2)
                   else (false, x1)).
  { subst result. unfold SetPlaybackRate, GetCurrentPosition.
    rewrite Hlocal, Hsrc, Hrate. fold x1. rewrite Hquot.
    destruct (- GST_MSECOND <? q); [| reflexivity]. now destruct seek_ok. }
  split; [| split; [| split]].
  - rewrite Hres. destruct (Z.ltb_spec (- GST_MSECOND) q); simpl.
    + intuition.
    + split; [discriminate | lia].
  - intros Hq. rewrite Hres. destruct (Z.ltb_spec (- GST_MSECOND) q); [lia | reflexivity].
  - intros Hq. rewrite Hres. destruct (Z.ltb_spec (- GST_MSECOND) q); [| lia].
    cbn [snd]. split; [| split; [| split; [| split; [| split; [| split]]]]].
    + destruct seek_ok; simpl; [rewrite <- app_assoc |]; reflexivity.
    + destruct seek_ok; simpl; [reflexivity | exact Er].
    + destruct seek_ok; simpl; [reflexivity | exact Em].
    + subst target. unfold GST_MSECOND. Z.to_euclidean_division_equations. lia.
    + subst target. unfold GST_MSECOND. Z.to_euclidean_division_equations. lia.
    + subst target. apply Z.rem_mul. unfold GST_MSECOND. lia.
    + intros position ok. split; [| apply to_int64_small]. unfold SetSeek.
      destruct seek_ok; cbn [is_stream_ is_camera_ emit set_trace set_mute_ set_playback_rate_];
        rewrite Ek; destruct ok;
        cbn [negb snd trace emit set_trace playback_rate_ set_playback_rate_ set_mute_];
        rewrite ?Er; reflexivity.
  - unfold SetPlaybackRate, GetCurrentPosition. now rewrite Hlocal, Hsrc, Hrate.
Qed.

Lemma SetPlaybackRate_exact_witness :
  fst (SetPlaybackRate Samples.d_three (Some 5000999) true true Samples.local_file_player)
  = true
  /\ In (gst_element_seek Samples.d_three GST_SEEK_FLAG_FLUSH 5000000)
       (trace (snd (SetPlaybackRate Samples.d_three (Some 5000999) true true
                      Samples.local_file_player))).
Proof.
  destruct (SetPlaybackRate_exact Samples.local_file_player Samples.d_three 5000999 true true
              eq_refl (ex_intro _ _ eq_refl) eq_refl) as (Hok & _ & Hseek & _).
  split.
  - apply Hok. split; [unfold GST_MSECOND; lia | reflexivity].
  - destruct Hseek as (Ht & _); [unfold GST_MSECOND; lia |].
    rewrite Ht. apply in_or_app. right. left. reflexivity.
Defined.

(** X21: on a local file a position query that answers [q] nanoseconds
    gives [q] cut to whole milliseconds toward zero, the value
    [GetDuration] gives for the same answer: for [q >= 0] the largest
    number of milliseconds not above [q], for [q <= 0] the smallest not
    below it.  The value -1, which a failed query gives, is also the
    value for every [q] from minus two milliseconds (excluded) to minus
    one millisecond (included).  A failed query changes nothing, so that
    a pending completion stays pending. *)
Theorem position_in_milliseconds (x : GstVideoPlayer) (q : Z) (seek_ok : bool)
    (Hlocal : is_stream_ x || is_camera_ x = false) :
  let ms := fst (GetCurrentPosition (Some q) seek_ok x) in
  ms = GetDuration (Some q) x
  /\ (0 <= q -> 0 <= ms /\ ms * GST_MSECOND <= q < (ms + 1) * GST_MSECOND)
  /\ (q <= 0 -> ms <= 0 /\ (ms - 1) * GST_MSECOND < q <= ms * GST_MSECOND)
  /\ (ms = -1 <-> (-2) * GST_MSECOND < q /\ q <= (-1) * GST_MSECOND)
  /\ GetCurrentPosition None seek_ok x = (-1, x)
  /\ GetDuration None x = -1.
Proof.
  unfold GetCurrentPosition, GetDuration. rewrite Hlocal. cbn [fst]. unfold GST_MSECOND.
  split; [reflexivity |].
  split; [intros; Z.to_euclidean_division_equations; lia |].
  split; [intros; Z.to_euclidean_division_equations; lia |].
  split; [split; intros; Z.to_euclidean_division_equations; lia |].
  split; reflexivity.
Qed.

Lemma position_in_milliseconds_witness :
  fst (GetCurrentPosition (Some (-1500000)) true Samples.local_file_player) = -1
  /\ fst (GetCurrentPosition None true Samples.local_file_player) = -1.
Proof.
  destruct (position_in_milliseconds Samples.local_file_player (-1500000) true eq_refl)
    as (_ & _ & _ & Hminus & Hfail & _).
  split.
  - apply Hminus. unfold GST_MSECOND. lia.
  - now rewrite Hfail.
Defined.

End PlaybackMore.

(** ** More on the frame sink *)

Section FrameMore.
Import Player Session.

Lemma GetFrameBuffer_changes (x x' : GstVideoPlayer) (r : option (list byte)) :
  GetFrameBuffer x = Returns (r, x') -> x' = set_pixels_ (pixels_ x') x.
Proof.
  unfold GetFrameBuffer.
  destruct (buffer (gst_ x)); [| intros [= <- <-]; now destruct x].
  destruct (_ || _); [discriminate |].
  destruct (pixels_ x) eqn:Hpx.
  - destruct (_ <? _)%nat; [discriminate |]. intros [= <- <-]. now destruct x.
  - destruct (Nat.eqb _ 0); [| discriminate]. intros [= <- <-]. now destruct x.
Qed.

(** X22: a read that returns changes nothing but the pixel array, whose
    length it keeps, and sends no request; with no frame held it gives
    null and changes nothing at all; and a second read right after it
    returns the same bytes and leaves the player as the first did. *)
Theorem read_is_idempotent (x x' : GstVideoPlayer) (r : option (list byte))
    (Hread : GetFrameBuffer x = Returns (r, x')) :
  GetFrameBuffer x' = Returns (r, x')
  /\ x' = set_pixels_ (pixels_ x') x
  /\ (buffer (gst_ x) = None -> r = None /\ x' = x)
  /\ (is_Some (buffer (gst_ x)) -> r = pixels_ x')
  /\ (forall px, pixels_ x = Some px ->
        exists px', pixels_ x' = Some px' /\ length px' = length px).
Proof.
  unfold GetFrameBuffer in *.
  destruct (buffer (gst_ x)) as [buf |] eqn:Hbuf.
  - destruct (_ || _) eqn:Hrange; [discriminate |].
    set (copied := Z.to_nat (Z.min ((width_ x * height_ x * 4) mod 2 ^ 32)
                               (Z.of_nat (length buf)))) in *.
    destruct (pixels_ x) as [px |] eqn:Hpx.
    + destruct (length px <? copied)%nat eqn:Hfit; [discriminate |].
      injection Hread as <- <-. apply Nat.ltb_ge in Hfit.
      assert (Hc : (copied <= length buf)%nat) by (unfold copied; lia).
      assert (Htake : length (take copied buf) = copied) by (rewrite length_take; lia).
      assert (Hlen : length (take copied buf ++ drop copied px) = length px).
      { rewrite length_app, Htake, length_drop. lia. }
      cbn [set_pixels_ gst_ width_ height_ pixels_]. rewrite Hbuf, Hrange. fold copied.
      assert (Hfit' : (length (take copied buf ++ drop copied px) <? copied)%nat = false).
      { apply Nat.ltb_ge. lia. }
      rewrite Hfit', (drop_app_length' _ _ _ (eq_sym Htake)).
      split; [reflexivity |]. split; [now destruct x |]. split; [discriminate |].
      split; [reflexivity |]. intros px0 [= <-]. eauto.
    + destruct (Nat.eqb copied 0) eqn:Hzero; [| discriminate].
      injection Hread as <- <-. rewrite Hbuf, Hrange, Hpx. fold copied. rewrite Hzero.
      split; [reflexivity |]. split; [rewrite <- Hpx; now destruct x |].
      split; [discriminate |]. split; [reflexivity | discriminate].
  - injection Hread as <- <-. rewrite Hbuf.
    split; [reflexivity |]. split; [now destruct x |]. split; [auto |].
    split; [intros []; discriminate | eauto].
Qed.

Lemma read_is_idempotent_witness :
  exists r x',
    GetFrameBuffer Samples.playing_player = Returns (r, x')
    /\ GetFrameBuffer x' = Returns (r, x').
Proof.
  destruct (GetFrameBuffer Samples.playing_player) as [[r x'] | | |] eqn:Hread;
    try (vm_compute in Hread; discriminate Hread).
  exists r, x'. split; [reflexivity |].
  exact (proj1 (read_is_idempotent _ _ _ Hread)).
Defined.

Lemma frame_step_keeps (x x' : GstVideoPlayer) (o : frame_op) :
  frame_step x o = Returns x' ->
  trace x' = trace x ++ (if is_read o then [] else [OnNotifyFrameDecoded])
  /\ controls x' = controls x
  /\ set_buffer (buffer (gst_ x)) (gst_ x') = gst_ x
  /\ (uri_ x', aspect_ratio_ x', is_stream_ x', is_camera_ x', is_inconsistent_ x')
     = (uri_ x, aspect_ratio_ x, is_stream_ x, is_camera_ x, is_inconsistent_ x).
Proof.
  destruct o as [buf w h indeterminate |]; simpl.
  - unfold HandoffHandler, Handoff_resize. intros H.
    apply bind_Returns in H as (x1 & H1 & H). injection H as <-.
    assert (E : x1 = set_pixels_ (pixels_ x1) (set_height_ (height_ x1)
                       (set_width_ (width_ x1) x))).
    { destruct (_ || _).
      - apply bind_Returns in H1 as (px & _ & H1). now injection H1 as <-.
      - injection H1 as <-. now destruct x. }
    rewrite E. simpl. repeat split. now destruct (gst_ x).
  - intros H. apply bind_Returns in H as ([r x1] & H1 & H). injection H as <-.
    rewrite (GetFrameBuffer_changes x x1 r H1).
    simpl. rewrite app_nil_r. repeat split. now destruct (gst_ x).
Qed.

Lemma frames_decoded_app (t1 t2 : list event) :
  frames_decoded (t1 ++ t2) = (frames_decoded t1 + frames_decoded t2)%nat.
Proof. unfold frames_decoded. now rewrite List.filter_app, length_app. Qed.

Lemma frames_decoded_replicate (n : nat) :
  frames_decoded (replicate n OnNotifyFrameDecoded) = n.
Proof. induction n as [| n IH]; [reflexivity |]. unfold frames_decoded in *. simpl. now rewrite IH. Qed.

(** X23: a run of deliveries and reads that returns has announced one
    decoded frame per delivery, in that order and nothing else, to the
    stream handler and the engine; it leaves every element pointer but
    the held frame, the address, the aspect hint, the source flags and
    all the controls (volume, rate, mute, auto-repeat, the completion
    flag) as they were. *)
Theorem deliveries_announced_once (os : list frame_op) (x x' : GstVideoPlayer)
    (Hrun : frame_run x os = Returns x') :
  trace x' = trace x ++ replicate (deliveries os) OnNotifyFrameDecoded
  /\ frames_decoded (trace x') = (frames_decoded (trace x) + deliveries os)%nat
  /\ controls x' = controls x
  /\ set_buffer (buffer (gst_ x)) (gst_ x') = gst_ x
  /\ (uri_ x', aspect_ratio_ x', is_stream_ x', is_camera_ x', is_inconsistent_ x')
     = (uri_ x, aspect_ratio_ x, is_stream_ x, is_camera_ x, is_inconsistent_ x).
Proof.
  assert (Hmain : trace x' = trace x ++ replicate (deliveries os) OnNotifyFrameDecoded
                  /\ controls x' = controls x
                  /\ set_buffer (buffer (gst_ x)) (gst_ x') = gst_ x
                  /\ (uri_ x', aspect_ratio_ x', is_stream_ x', is_camera_ x',
                      is_inconsistent_ x')
                     = (uri_ x, aspect_ratio_ x, is_stream_ x, is_camera_ x,
                        is_inconsistent_ x)).
  { revert x Hrun. induction os as [| o os IH]; intros x Hrun.
    - injection Hrun as <-. simpl. rewrite app_nil_r. repeat split. now destruct (gst_ x).
    - simpl in Hrun. apply bind_Returns in Hrun as (x1 & Hstep & Hrun).
      apply frame_step_keeps in Hstep as (Et & Ec & Eg & Es).
      destruct (IH _ Hrun) as (Et' & Ec' & Eg' & Es').
      split; [| split; [congruence | split; [| congruence]]].
      + rewrite Et', Et, <- app_assoc. f_equal. unfold deliveries. simpl.
        now destruct (is_read o).
      + rewrite <- Eg, <- Eg'. now destruct (gst_ x'). }
  destruct Hmain as (Et & Ec & Eg & Es). repeat split; try assumption.
  now rewrite Et, frames_decoded_app, frames_decoded_replicate.
Qed.

Lemma deliveries_announced_once_witness :
  let os := [Deliver Samples.frame_2x1 2 1 Samples.stale; Read;
             Deliver Samples.frame_2x2 2 2 Samples.stale; Read] in
  exists x',
    frame_run Samples.local_file_player os = Returns x'
    /\ frames_decoded (trace x')
       = (frames_decoded (trace Samples.local_file_player) + 2)%nat.
Proof.
  intros os.
  destruct (frame_run Samples.local_file_player os) as [x' | | |] eqn:Hrun;
    try (vm_compute in Hrun; discriminate Hrun).
  exists x'. split; [reflexivity |].
  exact (proj1 (proj2 (deliveries_announced_once _ _ _ Hrun))).
Defined.

End FrameMore.
